(** * Arm64EncoderIpc: the x64 driver side of the ARM64 encoder IPC channel

    A shallow embedding of [Arm64EncoderIpc.h] / [Arm64EncoderIpc.cpp]
    (namespace [Arm64EncoderIpc], class [EncoderIpcClient]) and the
    properties of its shared-memory protocol.

    - the packed structs of the header file are records, and their byte
      layout is computed from the member declarations under
      [#pragma pack(push, 1)];
    - the client object, the process-wide Win32 state (open handles, mapped
      views), the content of the named shared region and the chronological
      log of Win32 calls and shared-memory accesses form a [World];
    - member functions are computations in a state monad over [World] whose
      only failure is a fault on dereferencing an invalid region pointer;
    - what lies outside the client (whether a named object exists, whether a
      call succeeds, what a wait returns) is supplied call by call; events
      carry no signalled state of their own;
    - there is one named region and every view of this process aliases it;
      the encoder process is not part of these sources, so the region changes
      only through the client and, in the round-trip property, through the
      collaborator that echoes a frame. *)

From stdpp Require Import gmap strings list fin_maps pretty.
From Stdlib Require Import ZArith Lia.
From Stdlib.Strings Require Import Byte.

Open Scope Z_scope.

(** ** Fixed-width integers *)

Definition HANDLE := Z.
Definition DWORD := Z.
Definition nullptr : Z := 0.

Definition to_uint8 (v : Z) : Z := v mod 2 ^ 8.
Definition to_uint32 (v : Z) : Z := v mod 2 ^ 32.
Definition to_uint64 (v : Z) : Z := v mod 2 ^ 64.

Definition is_uint32 (v : Z) : Prop := 0 <= v < 2 ^ 32.
Definition is_uint64 (v : Z) : Prop := 0 <= v < 2 ^ 64.

(** ** Constants of [Arm64EncoderIpc.h] *)

Definition SHARED_MEM_NAME : string := "ALVR_ARM64_ENCODER".
Definition FRAME_READY_EVENT : string := "ALVR_ARM64_FRAME_READY".
Definition PACKET_READY_EVENT : string := "ALVR_ARM64_PACKET_READY".
Definition ENCODER_READY_EVENT : string := "ALVR_ARM64_ENCODER_READY".

Definition FRAME_BUFFER_SIZE : Z := 4096 * 2160 * 4.
Definition PACKET_BUFFER_SIZE : Z := 4 * 1024 * 1024.

(** Win32 constants used by the client. *)
Definition WAIT_OBJECT_0 : DWORD := 0.
Definition WAIT_TIMEOUT : DWORD := 258.
Definition WAIT_FAILED : DWORD := 4294967295.

Inductive PixelFormat := RGBA | NV12 | P010.

(** [static_cast<uint8_t>(format)] *)
Definition PixelFormat_to_uint8 (f : PixelFormat) : Z :=
  match f with RGBA => 0 | NV12 => 1 | P010 => 2 end.

(** ** Byte layout of the packed structs *)

Module Layout.

(** A declared member: its name, its size in bytes and the alignment its
    type asks for. *)
Record Member := mkMember { m_name : string; m_size : Z; m_align : Z }.

Definition uint8_t (n : string) : Member := mkMember n 1 1.
Definition uint32_t (n : string) : Member := mkMember n 4 4.
Definition uint64_t (n : string) : Member := mkMember n 8 8.
Definition uint8_array (n : string) (len : Z) : Member := mkMember n len 1.

Definition round_up (off a : Z) : Z := ((off + a - 1) / a) * a.

(** Under [#pragma pack(p)] a member is aligned to the smaller of [p] and
    its own alignment. *)
Definition packed_align (pack : Z) (m : Member) : Z := Z.min pack (m_align m).

(** Offsets of the members laid out in declaration order from [off]. *)
Fixpoint offsets (pack off : Z) (ms : list Member) : list (string * Z * Z) :=
  match ms with
  | [] => []
  | m :: rest =>
      let o := round_up off (packed_align pack m) in
      (m_name m, o, m_size m) :: offsets pack (o + m_size m) rest
  end.

Fixpoint end_offset (pack off : Z) (ms : list Member) : Z :=
  match ms with
  | [] => off
  | m :: rest =>
      end_offset pack (round_up off (packed_align pack m) + m_size m) rest
  end.

Definition struct_align (pack : Z) (ms : list Member) : Z :=
  foldr (fun m a => Z.max (packed_align pack m) a) 1 ms.

Definition sizeof (pack : Z) (ms : list Member) : Z :=
  round_up (end_offset pack 0 ms) (struct_align pack ms).

Definition struct_member (pack : Z) (n : string) (ms : list Member) : Member :=
  mkMember n (sizeof pack ms) (struct_align pack ms).

(** The three structs, member by member as declared. *)
Definition FrameHeader_members : list Member :=
  [ uint32_t "width"; uint32_t "height"; uint64_t "timestamp_ns";
    uint8_t "insert_idr"; uint8_t "pixel_format"; uint32_t "row_pitch";
    uint32_t "data_size"; uint8_t "shutdown"; uint8_array "_padding" 3 ].

Definition PacketHeader_members : list Member :=
  [ uint32_t "size"; uint64_t "timestamp_ns"; uint8_t "is_idr";
    uint8_array "_padding" 3 ].

Definition SharedMemoryLayout_members (pack : Z) : list Member :=
  [ struct_member pack "frame_header" FrameHeader_members;
    struct_member pack "packet_header" PacketHeader_members;
    uint8_array "frame_buffer" FRAME_BUFFER_SIZE;
    uint8_array "packet_buffer" PACKET_BUFFER_SIZE ].

(** [#pragma pack(push, 1)] *)
Definition pack : Z := 1.

End Layout.

(** ** The shared region as the client reads and writes it *)

Record FrameHeader := mkFrameHeader {
  fh_width : Z;
  fh_height : Z;
  fh_timestamp_ns : Z;
  fh_insert_idr : Z;
  fh_pixel_format : Z;
  fh_row_pitch : Z;
  fh_data_size : Z;
  fh_shutdown : Z;
  fh_padding : list byte
}.

Record PacketHeader := mkPacketHeader {
  ph_size : Z;
  ph_timestamp_ns : Z;
  ph_is_idr : Z;
  ph_padding : list byte
}.

(** The two buffers are byte arrays indexed from 0; the client only ever
    touches indices below the capacities. *)
Record SharedMemoryLayout := mkShared {
  frame_header : FrameHeader;
  packet_header : PacketHeader;
  frame_buffer : Z -> byte;
  packet_buffer : Z -> byte
}.

(** [memcpy(dst, src, n)] on byte arrays indexed from 0. *)
Definition memcpy (dst src : Z -> byte) (n : Z) : Z -> byte :=
  fun i => if (0 <=? i) && (i <? n) then src i else dst i.

(** The first [n] bytes of an array, as a vector. *)
Definition bytes_of (src : Z -> byte) (n : Z) : list byte :=
  map (fun i => src (Z.of_nat i)) (seq 0 (Z.to_nat n)).

(** ** The client object and the process-wide state *)

Record EncoderIpcClient := mkClient {
  m_sharedMemory : HANDLE;
  m_sharedPtr : Z;
  m_frameReadyEvent : HANDLE;
  m_packetReadyEvent : HANDLE;
  m_encoderReadyEvent : HANDLE;
  m_encoderProcess : HANDLE;
  m_width : Z;
  m_height : Z;
  m_codec : string;
  m_connected : bool
}.

(** The default member initialisers; the constructor body is empty. *)
Definition new_client : EncoderIpcClient :=
  mkClient nullptr nullptr nullptr nullptr nullptr nullptr 0 0 EmptyString false.

Definition IsConnected (c : EncoderIpcClient) : bool := m_connected c.

(** Kernel objects a handle of this process can refer to. *)
Inductive KObject :=
| KSection (name : string)
| KEvent (name : string)
| KProcess (cmdline : string)
| KThread.

Inductive FrameField :=
| FH_width | FH_height | FH_timestamp_ns | FH_insert_idr | FH_pixel_format
| FH_row_pitch | FH_data_size | FH_shutdown.

Inductive PacketField := PH_size | PH_timestamp_ns | PH_is_idr.

(** What the client does to the outside, in the order it does it: Win32 and
    filesystem calls, and accesses to the shared region through
    [m_sharedPtr]. *)
Inductive Event :=
| EvOpenFileMappingW (name : string)
| EvMapViewOfFile (h : HANDLE)
| EvUnmapViewOfFile (p : Z)
| EvCloseHandle (h : HANDLE)
| EvOpenEventW (name : string)
| EvSetEvent (h : HANDLE)
| EvWaitForSingleObject (h : HANDLE) (timeout_ms : DWORD)
| EvSleep (ms : DWORD)
| EvGetModuleFileNameW
| EvExists (path : string)
| EvCreateProcessW (cmdline : string)
| EvStoreFrameHeader (f : FrameField) (v : Z)
| EvCopyToFrameBuffer (n : Z)
| EvLoadPacketHeader (f : PacketField)
| EvCopyFromPacketBuffer (n : Z).

Record World := mkWorld {
  self : EncoderIpcClient;          (* the object the methods run on *)
  handles : gmap Z KObject;         (* open handles of this process *)
  views : gmap Z HANDLE;            (* mapped views: base address, section *)
  next_id : positive;               (* next handle value / address handed out *)
  region : SharedMemoryLayout;      (* content of the named shared region *)
  log : list Event
}.

Definition with_self (f : EncoderIpcClient -> EncoderIpcClient) (w : World) : World :=
  mkWorld (f (self w)) (handles w) (views w) (next_id w) (region w) (log w).
Definition with_handles (f : gmap Z KObject -> gmap Z KObject) (w : World) : World :=
  mkWorld (self w) (f (handles w)) (views w) (next_id w) (region w) (log w).
Definition with_views (f : gmap Z HANDLE -> gmap Z HANDLE) (w : World) : World :=
  mkWorld (self w) (handles w) (f (views w)) (next_id w) (region w) (log w).
Definition with_region (f : SharedMemoryLayout -> SharedMemoryLayout) (w : World) : World :=
  mkWorld (self w) (handles w) (views w) (next_id w) (f (region w)) (log w).

(** Assignments to the members of the object. *)
Definition set_sharedMemory (v : HANDLE) (c : EncoderIpcClient) :=
  mkClient v (m_sharedPtr c) (m_frameReadyEvent c) (m_packetReadyEvent c)
    (m_encoderReadyEvent c) (m_encoderProcess c) (m_width c) (m_height c)
    (m_codec c) (m_connected c).
Definition set_sharedPtr (v : Z) (c : EncoderIpcClient) :=
  mkClient (m_sharedMemory c) v (m_frameReadyEvent c) (m_packetReadyEvent c)
    (m_encoderReadyEvent c) (m_encoderProcess c) (m_width c) (m_height c)
    (m_codec c) (m_connected c).
Definition set_frameReadyEvent (v : HANDLE) (c : EncoderIpcClient) :=
  mkClient (m_sharedMemory c) (m_sharedPtr c) v (m_packetReadyEvent c)
    (m_encoderReadyEvent c) (m_encoderProcess c) (m_width c) (m_height c)
    (m_codec c) (m_connected c).
Definition set_packetReadyEvent (v : HANDLE) (c : EncoderIpcClient) :=
  mkClient (m_sharedMemory c) (m_sharedPtr c) (m_frameReadyEvent c) v
    (m_encoderReadyEvent c) (m_encoderProcess c) (m_width c) (m_height c)
    (m_codec c) (m_connected c).
Definition set_encoderReadyEvent (v : HANDLE) (c : EncoderIpcClient) :=
  mkClient (m_sharedMemory c) (m_sharedPtr c) (m_frameReadyEvent c)
    (m_packetReadyEvent c) v (m_encoderProcess c) (m_width c) (m_height c)
    (m_codec c) (m_connected c).
Definition set_encoderProcess (v : HANDLE) (c : EncoderIpcClient) :=
  mkClient (m_sharedMemory c) (m_sharedPtr c) (m_frameReadyEvent c)
    (m_packetReadyEvent c) (m_encoderReadyEvent c) v (m_width c) (m_height c)
    (m_codec c) (m_connected c).
Definition set_width (v : Z) (c : EncoderIpcClient) :=
  mkClient (m_sharedMemory c) (m_sharedPtr c) (m_frameReadyEvent c)
    (m_packetReadyEvent c) (m_encoderReadyEvent c) (m_encoderProcess c)
    (to_uint32 v) (m_height c) (m_codec c) (m_connected c).
Definition set_height (v : Z) (c : EncoderIpcClient) :=
  mkClient (m_sharedMemory c) (m_sharedPtr c) (m_frameReadyEvent c)
    (m_packetReadyEvent c) (m_encoderReadyEvent c) (m_encoderProcess c)
    (m_width c) (to_uint32 v) (m_codec c) (m_connected c).
Definition set_codec (v : string) (c : EncoderIpcClient) :=
  mkClient (m_sharedMemory c) (m_sharedPtr c) (m_frameReadyEvent c)
    (m_packetReadyEvent c) (m_encoderReadyEvent c) (m_encoderProcess c)
    (m_width c) (m_height c) v (m_connected c).
Definition set_connected (v : bool) (c : EncoderIpcClient) :=
  mkClient (m_sharedMemory c) (m_sharedPtr c) (m_frameReadyEvent c)
    (m_packetReadyEvent c) (m_encoderReadyEvent c) (m_encoderProcess c)
    (m_width c) (m_height c) (m_codec c) v.

(** Assignment to one member of [frame_header]; the value is converted to
    the member's type. *)
Definition set_frame_field (f : FrameField) (v : Z) (h : FrameHeader) : FrameHeader :=
  match f with
  | FH_width =>
      mkFrameHeader (to_uint32 v) (fh_height h) (fh_timestamp_ns h) (fh_insert_idr h)
        (fh_pixel_format h) (fh_row_pitch h) (fh_data_size h) (fh_shutdown h) (fh_padding h)
  | FH_height =>
      mkFrameHeader (fh_width h) (to_uint32 v) (fh_timestamp_ns h) (fh_insert_idr h)
        (fh_pixel_format h) (fh_row_pitch h) (fh_data_size h) (fh_shutdown h) (fh_padding h)
  | FH_timestamp_ns =>
      mkFrameHeader (fh_width h) (fh_height h) (to_uint64 v) (fh_insert_idr h)
        (fh_pixel_format h) (fh_row_pitch h) (fh_data_size h) (fh_shutdown h) (fh_padding h)
  | FH_insert_idr =>
      mkFrameHeader (fh_width h) (fh_height h) (fh_timestamp_ns h) (to_uint8 v)
        (fh_pixel_format h) (fh_row_pitch h) (fh_data_size h) (fh_shutdown h) (fh_padding h)
  | FH_pixel_format =>
      mkFrameHeader (fh_width h) (fh_height h) (fh_timestamp_ns h) (fh_insert_idr h)
        (to_uint8 v) (fh_row_pitch h) (fh_data_size h) (fh_shutdown h) (fh_padding h)
  | FH_row_pitch =>
      mkFrameHeader (fh_width h) (fh_height h) (fh_timestamp_ns h) (fh_insert_idr h)
        (fh_pixel_format h) (to_uint32 v) (fh_data_size h) (fh_shutdown h) (fh_padding h)
  | FH_data_size =>
      mkFrameHeader (fh_width h) (fh_height h) (fh_timestamp_ns h) (fh_insert_idr h)
        (fh_pixel_format h) (fh_row_pitch h) (to_uint32 v) (fh_shutdown h) (fh_padding h)
  | FH_shutdown =>
      mkFrameHeader (fh_width h) (fh_height h) (fh_timestamp_ns h) (fh_insert_idr h)
        (fh_pixel_format h) (fh_row_pitch h) (fh_data_size h) (to_uint8 v) (fh_padding h)
  end.

Definition get_packet_field (f : PacketField) (h : PacketHeader) : Z :=
  match f with
  | PH_size => ph_size h
  | PH_timestamp_ns => ph_timestamp_ns h
  | PH_is_idr => ph_is_idr h
  end.

Definition set_frame_header (h : FrameHeader) (r : SharedMemoryLayout) :=
  mkShared h (packet_header r) (frame_buffer r) (packet_buffer r).
Definition set_frame_buffer (b : Z -> byte) (r : SharedMemoryLayout) :=
  mkShared (frame_header r) (packet_header r) b (packet_buffer r).

(** ** The monad of member functions *)

Inductive Fault := NullPointerDereference | InvalidPointerDereference.

Inductive Outcome (A : Type) :=
| Ok (a : A) (w : World)
| Crash (f : Fault).
Arguments Ok {A} a w.
Arguments Crash {A} f.

Definition M (A : Type) : Type := World -> Outcome A.

Definition ret {A} (a : A) : M A := fun w => Ok a w.
Definition bind {A B} (c : M A) (k : A -> M B) : M B :=
  fun w => match c w with Ok a w' => k a w' | Crash f => Crash f end.

Notation "x <- c ;; k" := (bind c (fun x => k))
  (at level 100, c at level 99, k at level 200, right associativity).
Notation "c ;; k" := (bind c (fun _ => k))
  (at level 100, k at level 200, right associativity).

Definition this : M EncoderIpcClient := fun w => Ok (self w) w.
Definition assign (f : EncoderIpcClient -> EncoderIpcClient) : M unit :=
  fun w => Ok tt (with_self f w).
Definition emit (e : Event) : M unit :=
  fun w => Ok tt (mkWorld (self w) (handles w) (views w) (next_id w) (region w) (log w ++ [e])).
Definition fresh : M Z :=
  fun w => Ok (Z.pos (next_id w))
              (mkWorld (self w) (handles w) (views w) (Pos.succ (next_id w)) (region w) (log w)).
Definition lookup_handle (h : HANDLE) : M (option KObject) :=
  fun w => Ok (handles w !! h) w.
Definition lookup_view (p : Z) : M (option HANDLE) :=
  fun w => Ok (views w !! p) w.
Definition update_handles (f : gmap Z KObject -> gmap Z KObject) : M unit :=
  fun w => Ok tt (with_handles f w).
Definition update_views (f : gmap Z HANDLE -> gmap Z HANDLE) : M unit :=
  fun w => Ok tt (with_views f w).

(** ** Win32 and filesystem calls

    Each call is logged.  Where the result depends on something outside this
    process, the caller passes it in: [found] (a named object exists), [ok]
    (the system grants the request), [result] (what the wait returns on a
    valid handle).  Handle values and view addresses are handed out fresh and
    are never null. *)

Definition OpenFileMappingW (name : string) (found : bool) : M HANDLE :=
  emit (EvOpenFileMappingW name) ;;
  if found then
    h <- fresh ;;
    update_handles (insert h (KSection name)) ;;
    ret h
  else ret nullptr.

Definition OpenEventW (name : string) (found : bool) : M HANDLE :=
  emit (EvOpenEventW name) ;;
  if found then
    h <- fresh ;;
    update_handles (insert h (KEvent name)) ;;
    ret h
  else ret nullptr.

Definition MapViewOfFile (h : HANDLE) (ok : bool) : M Z :=
  emit (EvMapViewOfFile h) ;;
  o <- lookup_handle h ;;
  match o with
  | Some (KSection _) =>
      if ok then
        p <- fresh ;;
        update_views (insert p h) ;;
        ret p
      else ret nullptr
  | _ => ret nullptr
  end.

Definition UnmapViewOfFile (p : Z) : M bool :=
  emit (EvUnmapViewOfFile p) ;;
  o <- lookup_view p ;;
  match o with
  | Some _ => update_views (delete p) ;; ret true
  | None => ret false
  end.

Definition CloseHandle (h : HANDLE) : M bool :=
  emit (EvCloseHandle h) ;;
  o <- lookup_handle h ;;
  match o with
  | Some _ => update_handles (delete h) ;; ret true
  | None => ret false
  end.

Definition SetEvent (h : HANDLE) (ok : bool) : M bool :=
  emit (EvSetEvent h) ;;
  o <- lookup_handle h ;;
  match o with
  | Some (KEvent _) => ret ok
  | _ => ret false
  end.

Definition WaitForSingleObject (h : HANDLE) (timeout_ms : DWORD) (result : DWORD) : M DWORD :=
  emit (EvWaitForSingleObject h timeout_ms) ;;
  o <- lookup_handle h ;;
  match o with
  | Some (KEvent _) | Some (KProcess _) | Some KThread => ret result
  | _ => ret WAIT_FAILED
  end.

Definition Sleep (ms : DWORD) : M unit := emit (EvSleep ms).

(** [std::filesystem::path]: the components of a path; [parent_path] drops
    the last one, [operator/] appends one, [wstring] joins them. *)
Definition path := list string.
Definition parent_path (p : path) : path := removelast p.
Definition path_append (p : path) (name : string) : path := p ++ [name].
Fixpoint wstring (p : path) : string :=
  match p with
  | [] => EmptyString
  | [c] => c
  | c :: rest => c +:+ "\" +:+ wstring rest
  end.

Definition GetModuleFileNameW (module : path) : M path :=
  emit EvGetModuleFileNameW ;; ret module.

Definition filesystem_exists (p : path) (found : bool) : M bool :=
  emit (EvExists (wstring p)) ;; ret found.

(** [std::to_wstring] of an unsigned value. *)
Definition to_wstring (v : Z) : string := pretty v.

(** Returns the success flag and [pi.hProcess], [pi.hThread]. *)
Definition CreateProcessW (cmdline : string) (ok : bool) : M (bool * (HANDLE * HANDLE)) :=
  emit (EvCreateProcessW cmdline) ;;
  if ok then
    hp <- fresh ;;
    update_handles (insert hp (KProcess cmdline)) ;;
    ht <- fresh ;;
    update_handles (insert ht KThread) ;;
    ret (true, (hp, ht))
  else ret (false, (nullptr, nullptr)).

(** ** Accesses through [m_sharedPtr] *)

(** Dereferencing the region pointer faults unless it is the base address of
    a view that is currently mapped. *)
Definition deref : M unit :=
  fun w =>
    let p := m_sharedPtr (self w) in
    if p =? nullptr then Crash NullPointerDereference
    else match views w !! p with
         | Some _ => Ok tt w
         | None => Crash InvalidPointerDereference
         end.

(** [m_sharedPtr->frame_header.f = v] *)
Definition store_frame_header (f : FrameField) (v : Z) : M unit :=
  deref ;;
  emit (EvStoreFrameHeader f v) ;;
  fun w => Ok tt (with_region (fun r => set_frame_header (set_frame_field f v (frame_header r)) r) w).

(** [memcpy(m_sharedPtr->frame_buffer, data, n)] *)
Definition copy_to_frame_buffer (data : Z -> byte) (n : Z) : M unit :=
  deref ;;
  emit (EvCopyToFrameBuffer n) ;;
  fun w => Ok tt (with_region (fun r => set_frame_buffer (memcpy (frame_buffer r) data n) r) w).

(** [m_sharedPtr->packet_header.f] *)
Definition load_packet_header (f : PacketField) : M Z :=
  deref ;;
  emit (EvLoadPacketHeader f) ;;
  fun w => Ok (get_packet_field f (packet_header (region w))) w.

(** [v.resize(n); memcpy(v.data(), m_sharedPtr->packet_buffer, n)] *)
Definition copy_from_packet_buffer (n : Z) : M (list byte) :=
  deref ;;
  emit (EvCopyFromPacketBuffer n) ;;
  fun w => Ok (bytes_of (packet_buffer (region w)) n) w.

(** ** [EncoderIpcClient] member functions *)

(** What the surroundings answer during one [Initialize] call. *)
Record InitEnv := mkInitEnv {
  ie_region_present : bool;         (* the named region exists at the first attempt *)
  ie_module_path : path;            (* what GetModuleFileNameW reports *)
  ie_encoder_exists : bool;         (* the encoder executable is on disk *)
  ie_process_created : bool;        (* CreateProcessW succeeds *)
  ie_region_appears : nat -> bool;  (* the named region exists at poll i *)
  ie_view_mapped : bool;            (* MapViewOfFile succeeds *)
  ie_frame_event_present : bool;
  ie_packet_event_present : bool;
  ie_encoder_event_present : bool;
  ie_ready_wait : DWORD             (* what the wait on the ready event returns *)
}.

Definition when (b : bool) (c : M unit) : M unit := if b then c else ret tt.

Definition Shutdown : M unit :=
  c <- this ;;
  when (negb (m_sharedPtr c =? nullptr) && m_connected c)
    (store_frame_header FH_shutdown 1 ;;
     c <- this ;;
     when (negb (m_frameReadyEvent c =? nullptr))
       (SetEvent (m_frameReadyEvent c) true ;; ret tt)) ;;
  c <- this ;;
  when (negb (m_sharedPtr c =? nullptr))
    (UnmapViewOfFile (m_sharedPtr c) ;;
     assign (set_sharedPtr nullptr)) ;;
  c <- this ;;
  when (negb (m_sharedMemory c =? nullptr))
    (CloseHandle (m_sharedMemory c) ;;
     assign (set_sharedMemory nullptr)) ;;
  c <- this ;;
  when (negb (m_frameReadyEvent c =? nullptr))
    (CloseHandle (m_frameReadyEvent c) ;;
     assign (set_frameReadyEvent nullptr)) ;;
  c <- this ;;
  when (negb (m_packetReadyEvent c =? nullptr))
    (CloseHandle (m_packetReadyEvent c) ;;
     assign (set_packetReadyEvent nullptr)) ;;
  c <- this ;;
  when (negb (m_encoderReadyEvent c =? nullptr))
    (CloseHandle (m_encoderReadyEvent c) ;;
     assign (set_encoderReadyEvent nullptr)) ;;
  c <- this ;;
  when (negb (m_encoderProcess c =? nullptr))
    (WaitForSingleObject (m_encoderProcess c) 3000 WAIT_TIMEOUT ;;
     CloseHandle (m_encoderProcess c) ;;
     assign (set_encoderProcess nullptr)) ;;
  assign (set_connected false).

Definition LaunchEncoderProcess (env : InitEnv) : M bool :=
  modulePath <- GetModuleFileNameW (ie_module_path env) ;;
  let exePath := modulePath in
  let encoderPath := path_append (parent_path exePath) "alvr_encoder_arm64.exe" in
  found <- filesystem_exists encoderPath (ie_encoder_exists env) ;;
  if negb found then ret false
  else
    c <- this ;;
    let cmdLine := wstring encoderPath in
    let cmdLine := cmdLine +:+ " " +:+ to_wstring (m_width c) in
    let cmdLine := cmdLine +:+ " " +:+ to_wstring (m_height c) in
    let wcodec := m_codec c in
    let cmdLine := cmdLine +:+ " " +:+ wcodec in
    r <- CreateProcessW cmdLine (ie_process_created env) ;;
    let '(created, (hProcess, hThread)) := r in
    if negb created then ret false
    else
      assign (set_encoderProcess hProcess) ;;
      CloseHandle hThread ;;
      ret true.

Definition WaitForEncoderReady (timeout_ms : DWORD) (wait_result : DWORD) : M bool :=
  c <- this ;;
  if m_encoderReadyEvent c =? nullptr then ret false
  else
    result <- WaitForSingleObject (m_encoderReadyEvent c) timeout_ms wait_result ;;
    ret (result =? WAIT_OBJECT_0).

(** The default argument of [WaitForEncoderReady]. *)
Definition default_ready_timeout_ms : DWORD := 5000.

(** [for (int i = 0; i < 50; i++) { Sleep(100); ...; if (...) break; }],
    entered with [i] and [n] iterations to go. *)
Fixpoint poll_shared_memory (env : InitEnv) (n i : nat) : M unit :=
  match n with
  | O => ret tt
  | S n' =>
      Sleep 100 ;;
      h <- OpenFileMappingW SHARED_MEM_NAME (ie_region_appears env i) ;;
      assign (set_sharedMemory h) ;;
      if negb (h =? nullptr) then ret tt
      else poll_shared_memory env n' (S i)
  end.

(** [Initialize] from the point where [m_sharedMemory] is a section handle. *)
Definition Initialize_mapped (env : InitEnv) : M bool :=
  c <- this ;;
  p <- MapViewOfFile (m_sharedMemory c) (ie_view_mapped env) ;;
  assign (set_sharedPtr p) ;;
  if p =? nullptr then
    c <- this ;;
    CloseHandle (m_sharedMemory c) ;;
    assign (set_sharedMemory nullptr) ;;
    ret false
  else
    h <- OpenEventW FRAME_READY_EVENT (ie_frame_event_present env) ;;
    assign (set_frameReadyEvent h) ;;
    h <- OpenEventW PACKET_READY_EVENT (ie_packet_event_present env) ;;
    assign (set_packetReadyEvent h) ;;
    h <- OpenEventW ENCODER_READY_EVENT (ie_encoder_event_present env) ;;
    assign (set_encoderReadyEvent h) ;;
    c <- this ;;
    if (m_frameReadyEvent c =? nullptr) || (m_packetReadyEvent c =? nullptr)
       || (m_encoderReadyEvent c =? nullptr)
    then Shutdown ;; ret false
    else
      ready <- WaitForEncoderReady default_ready_timeout_ms (ie_ready_wait env) ;;
      if negb ready then Shutdown ;; ret false
      else
        assign (set_connected true) ;;
        ret true.

Definition Initialize (width height : Z) (codec : string) (env : InitEnv) : M bool :=
  assign (set_width width) ;;
  assign (set_height height) ;;
  assign (set_codec codec) ;;
  h <- OpenFileMappingW SHARED_MEM_NAME (ie_region_present env) ;;
  assign (set_sharedMemory h) ;;
  c <- this ;;
  if m_sharedMemory c =? nullptr then
    launched <- LaunchEncoderProcess env ;;
    if negb launched then ret false
    else
      poll_shared_memory env 50 0 ;;
      c <- this ;;
      if m_sharedMemory c =? nullptr then ret false
      else Initialize_mapped env
  else Initialize_mapped env.

Definition SendFrame (data : Z -> byte) (data_size width height row_pitch timestamp_ns : Z)
    (insert_idr : bool) (format : PixelFormat) (signal_ok : bool) : M bool :=
  c <- this ;;
  if negb (m_connected c) || (m_sharedPtr c =? nullptr) then ret false
  else if FRAME_BUFFER_SIZE <? data_size then ret false
  else
    store_frame_header FH_width width ;;
    store_frame_header FH_height height ;;
    store_frame_header FH_timestamp_ns timestamp_ns ;;
    store_frame_header FH_insert_idr (if insert_idr then 1 else 0) ;;
    store_frame_header FH_pixel_format (PixelFormat_to_uint8 format) ;;
    store_frame_header FH_row_pitch row_pitch ;;
    store_frame_header FH_data_size data_size ;;
    store_frame_header FH_shutdown 0 ;;
    copy_to_frame_buffer data data_size ;;
    c <- this ;;
    raised <- SetEvent (m_frameReadyEvent c) signal_ok ;;
    if negb raised then ret false
    else ret true.

(** The three reference parameters of [ReceivePacket]. *)
Record PacketOut := mkPacketOut {
  packet_data : list byte;
  timestamp_ns : Z;
  is_idr : bool
}.

Definition default_receive_timeout_ms : DWORD := 1000.

Definition ReceivePacket (out : PacketOut) (timeout_ms : DWORD) (wait_result : DWORD)
    : M (bool * PacketOut) :=
  c <- this ;;
  if negb (m_connected c) || (m_sharedPtr c =? nullptr) then ret (false, out)
  else
    result <- WaitForSingleObject (m_packetReadyEvent c) timeout_ms wait_result ;;
    if negb (result =? WAIT_OBJECT_0) then ret (false, out)
    else
      size <- load_packet_header PH_size ;;
      if PACKET_BUFFER_SIZE <? size then ret (false, out)
      else
        bytes <- copy_from_packet_buffer size ;;
        ts <- load_packet_header PH_timestamp_ns ;;
        idr <- load_packet_header PH_is_idr ;;
        ret (true, mkPacketOut bytes ts (negb (idr =? 0))).

(** ** Runs of the public operations *)

Inductive Op :=
| OpInitialize (width height : Z) (codec : string) (env : InitEnv)
| OpSendFrame (data : Z -> byte) (data_size width height row_pitch timestamp_ns : Z)
    (insert_idr : bool) (format : PixelFormat) (signal_ok : bool)
| OpReceivePacket (out : PacketOut) (timeout_ms wait_result : DWORD)
| OpShutdown.

Definition run_op (o : Op) : M unit :=
  match o with
  | OpInitialize w h codec env => Initialize w h codec env ;; ret tt
  | OpSendFrame d n w h rp ts idr fmt ok => SendFrame d n w h rp ts idr fmt ok ;; ret tt
  | OpReceivePacket out t r => ReceivePacket out t r ;; ret tt
  | OpShutdown => Shutdown
  end.

Fixpoint run (ops : list Op) : M unit :=
  match ops with
  | [] => ret tt
  | o :: rest => run_op o ;; run rest
  end.

(** A process in which nothing has been opened yet, holding a freshly
    constructed client. *)
Definition fresh_world (r : SharedMemoryLayout) : World :=
  mkWorld new_client ∅ ∅ 1%positive r [].

Definition zero_region : SharedMemoryLayout :=
  mkShared (mkFrameHeader 0 0 0 0 0 0 0 0 [x00; x00; x00])
           (mkPacketHeader 0 0 0 [x00; x00; x00])
           (fun _ => x00) (fun _ => x00).

Definition env_attach : InitEnv :=
  mkInitEnv true ["C:"; "ALVR"; "bin"; "vrserver.exe"] true true (fun _ => true)
            true true true true WAIT_OBJECT_0.

(** ** The Connected state

    What a successful [Initialize] leaves behind: the flag is set, the region
    pointer is the base of a mapped view, and the three event members are
    open handles to events. *)
Definition is_event (o : option KObject) : bool :=
  match o with Some (KEvent _) => true | _ => false end.

Record Connected (w : World) : Prop := mkConnected {
  conn_flag : m_connected (self w) = true;
  conn_ptr : m_sharedPtr (self w) <> nullptr;
  conn_view : is_Some (views w !! m_sharedPtr (self w));
  conn_frame_ready : is_event (handles w !! m_frameReadyEvent (self w)) = true;
  conn_packet_ready : is_event (handles w !! m_packetReadyEvent (self w)) = true;
  conn_encoder_ready : is_event (handles w !! m_encoderReadyEvent (self w)) = true
}.

(** * Vocabulary of the statements *)

(** [post o Q]: the outcome [o] is a normal return whose result and final
    world satisfy [Q]. *)
Definition post {A} (o : Outcome A) (Q : A -> World -> Prop) : Prop :=
  match o with
  | Ok a w => Q a w
  | Crash _ => False
  end.

Definition is_section (o : option KObject) : bool :=
  match o with Some (KSection _) => true | _ => false end.

(** Removing a key unless it is the null handle. *)
Definition drop {X} (k : Z) (m : gmap Z X) : gmap Z X :=
  if k =? nullptr then m else delete k m.

Definition unless_null (k : Z) (evs : list Event) : list Event :=
  if k =? nullptr then [] else evs.

(** The client announces the shutdown to the encoder only when it is
    connected and has the region mapped. *)
Definition announces_shutdown (c : EncoderIpcClient) : bool :=
  negb (m_sharedPtr c =? nullptr) && m_connected c.

Definition cleared (c : EncoderIpcClient) : EncoderIpcClient :=
  mkClient nullptr nullptr nullptr nullptr nullptr nullptr
    (m_width c) (m_height c) (m_codec c) false.

Definition Shutdown_handles (c : EncoderIpcClient) (hs : gmap Z KObject) : gmap Z KObject :=
  drop (m_encoderProcess c)
    (drop (m_encoderReadyEvent c)
       (drop (m_packetReadyEvent c)
          (drop (m_frameReadyEvent c)
             (drop (m_sharedMemory c) hs)))).

Definition Shutdown_region (c : EncoderIpcClient) (r : SharedMemoryLayout) : SharedMemoryLayout :=
  if announces_shutdown c
  then set_frame_header (set_frame_field FH_shutdown 1 (frame_header r)) r
  else r.

Definition Shutdown_events (c : EncoderIpcClient) : list Event :=
  (if announces_shutdown c
   then EvStoreFrameHeader FH_shutdown 1
          :: unless_null (m_frameReadyEvent c) [EvSetEvent (m_frameReadyEvent c)]
   else [])
  ++ unless_null (m_sharedPtr c) [EvUnmapViewOfFile (m_sharedPtr c)]
  ++ unless_null (m_sharedMemory c) [EvCloseHandle (m_sharedMemory c)]
  ++ unless_null (m_frameReadyEvent c) [EvCloseHandle (m_frameReadyEvent c)]
  ++ unless_null (m_packetReadyEvent c) [EvCloseHandle (m_packetReadyEvent c)]
  ++ unless_null (m_encoderReadyEvent c) [EvCloseHandle (m_encoderReadyEvent c)]
  ++ unless_null (m_encoderProcess c)
       [EvWaitForSingleObject (m_encoderProcess c) 3000; EvCloseHandle (m_encoderProcess c)].

(** A non-null region pointer is the base of a mapped view. *)
Definition pointer_valid (w : World) : Prop :=
  m_sharedPtr (self w) <> nullptr -> is_Some (views w !! m_sharedPtr (self w)).

Definition init_post (first : Event) (w : World) (b : bool) (w' : World) : Prop :=
  (pointer_valid w -> pointer_valid w') /\
  (b = true -> Connected w' /\ m_sharedMemory (self w') <> nullptr
               /\ m_frameReadyEvent (self w') <> nullptr
               /\ m_packetReadyEvent (self w') <> nullptr
               /\ m_encoderReadyEvent (self w') <> nullptr) /\
  (b = false -> m_connected (self w) = false -> m_connected (self w') = false) /\
  (m_connected (self w) = false -> region w' = region w) /\
  (exists rest, log w' = log w ++ first :: rest).

Definition wait_value (o : option KObject) (res : DWORD) : DWORD :=
  match o with
  | Some (KEvent _) | Some (KProcess _) | Some KThread => res
  | _ => WAIT_FAILED
  end.

Definition encoder_path (env : InitEnv) : path :=
  path_append (parent_path (ie_module_path env)) "alvr_encoder_arm64.exe".

Definition encoder_cmdline (env : InitEnv) (width height : Z) (codec : string) : string :=
  ((wstring (encoder_path env) +:+ " " +:+ to_wstring width)
     +:+ " " +:+ to_wstring height)
    +:+ " " +:+ codec.

(** [k] rounds of the polling loop. *)
Fixpoint poll_events (k : nat) : list Event :=
  match k with
  | O => []
  | S k' => EvSleep 100 :: EvOpenFileMappingW SHARED_MEM_NAME :: poll_events k'
  end.

(** The members [Initialize] records before it touches the system. *)
Definition configured (width height : Z) (codec : string) (c : EncoderIpcClient) :=
  set_codec codec (set_height height (set_width width c)).

(** The command line [Initialize] starts the encoder with. *)
Definition launch_cmdline (env : InitEnv) (width height : Z) (codec : string) : string :=
  encoder_cmdline env (to_uint32 width) (to_uint32 height) codec.

(** What a successful launch logs, from the first attempt to attach up to
    closing the thread handle. *)
Definition launch_events (env : InitEnv) (width height : Z) (codec : string) (w : World)
    : list Event :=
  [EvOpenFileMappingW SHARED_MEM_NAME; EvGetModuleFileNameW;
   EvExists (wstring (encoder_path env));
   EvCreateProcessW (launch_cmdline env width height codec);
   EvCloseHandle (Z.pos (Pos.succ (next_id w)))].

(** The handle table after a successful launch. *)
Definition launched_handles (env : InitEnv) (width height : Z) (codec : string) (w : World)
    : gmap Z KObject :=
  delete (Z.pos (Pos.succ (next_id w)))
    (<[Z.pos (Pos.succ (next_id w)) := KThread]>
       (<[Z.pos (next_id w) := KProcess (launch_cmdline env width height codec)]>
          (handles w))).

Definition log_event (e : list Event) (w : World) : World :=
  mkWorld (self w) (handles w) (views w) (next_id w) (region w) (log w ++ e).

Definition sent_header (old : FrameHeader) (data_size width height row_pitch ts : Z)
    (idr : bool) (fmt : PixelFormat) : FrameHeader :=
  mkFrameHeader (to_uint32 width) (to_uint32 height) (to_uint64 ts)
    (if idr then 1 else 0) (PixelFormat_to_uint8 fmt)
    (to_uint32 row_pitch) (to_uint32 data_size) 0 (fh_padding old).

Definition SendFrame_events (h : HANDLE) (data_size width height row_pitch ts : Z)
    (idr : bool) (fmt : PixelFormat) : list Event :=
  [EvStoreFrameHeader FH_width width;
   EvStoreFrameHeader FH_height height;
   EvStoreFrameHeader FH_timestamp_ns ts;
   EvStoreFrameHeader FH_insert_idr (if idr then 1 else 0);
   EvStoreFrameHeader FH_pixel_format (PixelFormat_to_uint8 fmt);
   EvStoreFrameHeader FH_row_pitch row_pitch;
   EvStoreFrameHeader FH_data_size data_size;
   EvStoreFrameHeader FH_shutdown 0;
   EvCopyToFrameBuffer data_size;
   EvSetEvent h].

Definition received_packet (r : SharedMemoryLayout) : PacketOut :=
  mkPacketOut (bytes_of (packet_buffer r) (ph_size (packet_header r)))
    (ph_timestamp_ns (packet_header r))
    (negb (ph_is_idr (packet_header r) =? 0)).

(** The states a client can be in: it starts freshly constructed, in a
    process in any state, and is driven by its public operations. *)
Inductive reachable : World -> Prop :=
| reach_new hs vs n r l : reachable (mkWorld new_client hs vs n r l)
| reach_op w o w' : reachable w -> run_op o w = Ok tt w' -> reachable w'.

(** A client that has just connected by attaching to an existing region. *)
Definition connected_world : World :=
  match Initialize 1920 1080 "h264" env_attach (fresh_world zero_region) with
  | Ok _ w => w
  | Crash _ => fresh_world zero_region
  end.

(** A connected client whose packet slot holds a three-byte packet. *)
Definition packet_region : SharedMemoryLayout :=
  mkShared (frame_header zero_region)
    (mkPacketHeader 3 1000 1 [x00; x00; x00])
    (frame_buffer zero_region)
    (fun i => if i =? 0 then x0a else if i =? 1 then x0b else x0c).

(** Modelled from the spec: the encoder process is not part of these sources.
    This is what the collaborator of the round-trip property does to the
    region when it echoes the frame slot back through the packet slot: the
    packet header takes the frame's size, timestamp and IDR flag, and the
    packet buffer takes the payload, as far as the buffer reaches.  Raising
    the packet-ready event is the [WAIT_OBJECT_0] the client's next wait
    returns. *)
Definition echoes (collaborator : SharedMemoryLayout -> SharedMemoryLayout) : Prop :=
  forall r,
    let fh := frame_header r in
    let r' := collaborator r in
    ph_size (packet_header r') = fh_data_size fh /\
    ph_timestamp_ns (packet_header r') = fh_timestamp_ns fh /\
    ph_is_idr (packet_header r') = fh_insert_idr fh /\
    (forall i, 0 <= i < Z.min (fh_data_size fh) PACKET_BUFFER_SIZE ->
               packet_buffer r' i = frame_buffer r i).

(** The plain echo. *)
Definition echo_frame (r : SharedMemoryLayout) : SharedMemoryLayout :=
  let fh := frame_header r in
  mkShared fh
    (mkPacketHeader (fh_data_size fh) (fh_timestamp_ns fh) (fh_insert_idr fh)
       (ph_padding (packet_header r)))
    (frame_buffer r)
    (memcpy (packet_buffer r) (frame_buffer r) (Z.min (fh_data_size fh) PACKET_BUFFER_SIZE)).

(** Send a frame, let the collaborator act on the region, receive the
    packet. *)
Definition round_trip (collaborator : SharedMemoryLayout -> SharedMemoryLayout)
    (data : Z -> byte) (data_size width height row_pitch ts : Z)
    (idr : bool) (fmt : PixelFormat) (out : PacketOut) (timeout_ms : DWORD)
    : M (bool * PacketOut) :=
  sent <- SendFrame data data_size width height row_pitch ts idr fmt true ;;
  if sent then
    (fun w => Ok tt (with_region collaborator w)) ;;
    ReceivePacket out timeout_ms WAIT_OBJECT_0
  else ret (false, out).

(** The handles a client holds in its members. *)
Definition held_handles (c : EncoderIpcClient) : list HANDLE :=
  [m_sharedMemory c; m_frameReadyEvent c; m_packetReadyEvent c;
   m_encoderReadyEvent c; m_encoderProcess c].

Definition is_wait (e : Event) : bool :=
  match e with EvWaitForSingleObject _ _ => true | _ => false end.
Definition is_announcement (e : Event) : bool :=
  match e with EvStoreFrameHeader _ _ | EvSetEvent _ => true | _ => false end.

(** A run during which the client never becomes connected again. *)
Inductive disconnected_run : World -> list Op -> World -> Prop :=
| dr_nil w : disconnected_run w [] w
| dr_cons w o w1 ops w2 :
    run_op o w = Ok tt w1 ->
    m_connected (self w1) = false ->
    disconnected_run w1 ops w2 ->
    disconnected_run w (o :: ops) w2.

(** The four operations of the counterexample below. *)
Definition reconnect_and_send : list Op :=
  [OpInitialize 1920 1080 "h264" env_attach;
   OpShutdown;
   OpInitialize 1920 1080 "h264" env_attach;
   OpSendFrame (fun _ => x2a) 8 2 1 8 1000 true RGBA true].

Definition is_Initialize (o : Op) : bool :=
  match o with OpInitialize _ _ _ _ => true | _ => false end.

(** Runs that follow the connection protocol: [Initialize] is only invoked on
    a client that is not connected. *)
Inductive protocol_reachable : World -> Prop :=
| proto_new hs vs n r l : protocol_reachable (mkWorld new_client hs vs n r l)
| proto_op w o w' :
    protocol_reachable w ->
    (is_Initialize o = true -> m_connected (self w) = false) ->
    run_op o w = Ok tt w' ->
    protocol_reachable w'.

Definition members_non_null (c : EncoderIpcClient) : Prop :=
  m_sharedPtr c <> nullptr /\ m_sharedMemory c <> nullptr /\
  m_frameReadyEvent c <> nullptr /\ m_packetReadyEvent c <> nullptr /\
  m_encoderReadyEvent c <> nullptr.

Definition connected_invariant (w : World) : Prop :=
  pointer_valid w /\
  (m_connected (self w) = true -> Connected w /\ members_non_null (self w)).

(** An [Initialize] during which the region is found but cannot be mapped. *)
Definition env_map_fails : InitEnv :=
  mkInitEnv true ["C:"; "ALVR"; "bin"; "vrserver.exe"] true true (fun _ => true)
            false true true true WAIT_OBJECT_0.





(** An [Initialize] that has to start the encoder, sees the region appear at
    the fourth poll, and then waits in vain for the encoder to get ready. *)
Definition env_ready_timeout : InitEnv :=
  mkInitEnv false ["C:"; "ALVR"; "bin"; "vrserver.exe"] true true
            (fun i => (3 <=? i)%nat) true true true true WAIT_TIMEOUT.

(** No region and no encoder executable next to the host. *)
Definition env_no_encoder : InitEnv :=
  mkInitEnv false ["C:"; "ALVR"; "bin"; "vrserver.exe"] false true (fun _ => false)
            true true true true WAIT_OBJECT_0.

(** The state in which [Initialize] calls [Shutdown] when the readiness wait
    fails: the state of a client that has just connected, with the connected
    flag still to be set.  The section and the events are open and the view
    is mapped. *)
Definition mapped_world : World := with_self (set_connected false) connected_world.

(** * The rest of the public interface

    [LaunchEncoderProcess] and [WaitForEncoderReady] are public members too,
    and the destructor runs [Shutdown]. *)

(** [~EncoderIpcClient() { Shutdown(); }] *)
Definition EncoderIpcClient_destructor : M unit := Shutdown.

Inductive PublicOp :=
| PubOp (o : Op)
| PubLaunchEncoderProcess (env : InitEnv)
| PubWaitForEncoderReady (timeout_ms wait_result : DWORD).

Definition run_public (o : PublicOp) : M unit :=
  match o with
  | PubOp o => run_op o
  | PubLaunchEncoderProcess env => LaunchEncoderProcess env ;; ret tt
  | PubWaitForEncoderReady t r => WaitForEncoderReady t r ;; ret tt
  end.

(** The states a client can be in when callers may use every public member
    function, in any order. *)
Inductive public_reachable : World -> Prop :=
| pub_new hs vs n r l : public_reachable (mkWorld new_client hs vs n r l)
| pub_op w o w' : public_reachable w -> run_public o w = Ok tt w' -> public_reachable w'.

(** The client holds no view, no section and no event. *)
Definition holds_no_channel (c : EncoderIpcClient) : Prop :=
  m_sharedPtr c = nullptr /\ m_sharedMemory c = nullptr /\
  m_frameReadyEvent c = nullptr /\ m_packetReadyEvent c = nullptr /\
  m_encoderReadyEvent c = nullptr.

(** The client holds nothing at all. *)
Definition holds_nothing (c : EncoderIpcClient) : Prop :=
  holds_no_channel c /\ m_encoderProcess c = nullptr.

(** Handle values and view addresses not handed out yet are not in use. *)
Definition ids_fresh (w : World) : Prop :=
  forall k, (next_id w <= k)%positive ->
            handles w !! Z.pos k = None /\ views w !! Z.pos k = None.

(** The world after a successful [MapViewOfFile] of [m_sharedMemory] whose
    result is stored in [m_sharedPtr]. *)
Definition after_MapViewOfFile (w : World) : World :=
  mkWorld (set_sharedPtr (Z.pos (next_id w)) (self w)) (handles w)
    (<[Z.pos (next_id w) := m_sharedMemory (self w)]> (views w))
    (Pos.succ (next_id w)) (region w)
    (log w ++ [EvMapViewOfFile (m_sharedMemory (self w))]).

(** The world after [member = OpenEventW(.., name)]. *)
Definition after_OpenEventW (name : string) (found : bool)
    (set : HANDLE -> EncoderIpcClient -> EncoderIpcClient) (w : World) : World :=
  mkWorld (set (if found then Z.pos (next_id w) else nullptr) (self w))
    (if found then <[Z.pos (next_id w) := KEvent name]> (handles w) else handles w)
    (views w)
    (if found then Pos.succ (next_id w) else next_id w)
    (region w) (log w ++ [EvOpenEventW name]).

(** The world in which [Initialize] checks the three event members. *)
Definition events_opened (env : InitEnv) (w : World) : World :=
  after_OpenEventW ENCODER_READY_EVENT (ie_encoder_event_present env) set_encoderReadyEvent
    (after_OpenEventW PACKET_READY_EVENT (ie_packet_event_present env) set_packetReadyEvent
       (after_OpenEventW FRAME_READY_EVENT (ie_frame_event_present env) set_frameReadyEvent
          (after_MapViewOfFile w))).

Definition all_events_present (env : InitEnv) : bool :=
  ie_frame_event_present env && ie_packet_event_present env
    && ie_encoder_event_present env.

(** The world [Shutdown] leaves behind. *)
Definition after_Shutdown (w : World) : World :=
  mkWorld (cleared (self w)) (Shutdown_handles (self w) (handles w))
    (drop (m_sharedPtr (self w)) (views w)) (next_id w)
    (Shutdown_region (self w) (region w))
    (log w ++ Shutdown_events (self w)).

(** The world in which [Initialize] returns after a failed [MapViewOfFile]. *)
Definition after_map_failure (w : World) : World :=
  mkWorld (set_sharedMemory nullptr (set_sharedPtr nullptr (self w)))
    (delete (m_sharedMemory (self w)) (handles w)) (views w) (next_id w) (region w)
    (log w ++ [EvMapViewOfFile (m_sharedMemory (self w));
               EvCloseHandle (m_sharedMemory (self w))]).

(** The wait of [WaitForEncoderReady()] as [Initialize] performs it. *)
Definition ready_wait_logged (w : World) : World :=
  log_event [EvWaitForSingleObject (m_encoderReadyEvent (self w)) default_ready_timeout_ms] w.

(** Every environment in which the client attaches and connects. *)
Definition env_connects (env : InitEnv) : Prop :=
  ie_region_present env = true /\ ie_view_mapped env = true /\
  all_events_present env = true /\ ie_ready_wait env = WAIT_OBJECT_0.

(** A client whose first attempt started an encoder that never created the
    region. *)
Definition env_never_appears : InitEnv :=
  mkInitEnv false ["C:"; "ALVR"; "bin"; "vrserver.exe"] true true (fun _ => false)
            true true true true WAIT_OBJECT_0.

(** What every public call keeps true: a non-null region pointer is a mapped
    view, and a client whose connected flag is off holds no view, section or
    event. *)
Definition disconnected_invariant (w : World) : Prop :=
  pointer_valid w /\ (m_connected (self w) = false -> holds_no_channel (self w)).

(** The four handles of the channel, without the process handle. *)
Definition channel_handles (c : EncoderIpcClient) : list HANDLE :=
  [m_sharedMemory c; m_frameReadyEvent c; m_packetReadyEvent c; m_encoderReadyEvent c].

(** A client whose [Initialize] started the encoder and then polled in vain:
    it is not connected and holds the handle of the process it started. *)
Definition stalled_world : World :=
  match Initialize 1920 1080 "h264" env_never_appears (fresh_world zero_region) with
  | Ok _ w => w
  | Crash _ => fresh_world zero_region
  end.

Definition env_launches : InitEnv :=
  mkInitEnv false ["C:"; "ALVR"; "bin"; "vrserver.exe"] true true (fun _ => true)
            true true true true WAIT_OBJECT_0.

(** * [VideoEncoderSW]: the encoder that owns and drives the client

    The out-of-process path of [VideoEncoderSW.cpp].  The object, the process
    it runs in (with the [EncoderIpcClient] that [m_arm64Encoder] owns as its
    [self]) and the calls made to Direct3D, FFmpeg and the NAL parser form
    the state.  The in-process FFmpeg path is a parameter of the functions
    that branch into it. *)

Module VideoEncoderSW.

Inductive ALVR_CODEC := ALVR_CODEC_H264 | ALVR_CODEC_HEVC | ALVR_CODEC_AV1.

(** The two members of [Settings::Instance()] that the out-of-process path
    reads. *)
Record Settings := mkSettings { m_enableHdr : bool; m_use10bitEncoder : bool }.

Definition HRESULT := Z.
Definition FAILED (hr : HRESULT) : bool := hr <? 0.
Definition S_OK : HRESULT := 0.
Definition E_FAIL : HRESULT := -2147467259.

Definition PROCESSOR_ARCHITECTURE_AMD64 : Z := 9.
Definition PROCESSOR_ARCHITECTURE_ARM64 : Z := 12.

Record D3D11_TEXTURE2D_DESC := mkDesc {
  Width : Z;
  Height : Z;
  MipLevels : Z;
  ArraySize : Z;
  Format : Z;
  SampleDesc : Z * Z;
  Usage : Z;
  BindFlags : Z;
  CPUAccessFlags : Z;
  MiscFlags : Z
}.

Definition D3D11_USAGE_STAGING : Z := 3.
Definition D3D11_CPU_ACCESS_READ : Z := 131072.

(** [pData] stands for the bytes found at the mapped address. *)
Record D3D11_MAPPED_SUBRESOURCE := mkMapped {
  pData : Z -> byte;
  RowPitch : Z;
  DepthPitch : Z
}.

Record Members := mkMembers {
  m_codecContext : Z;
  m_transferredFrame : Z;
  m_encoderFrame : Z;
  m_scalerContext : Z;
  m_stagingTex : bool;                       (* the ComPtr holds a texture *)
  m_stagingTexDesc : D3D11_TEXTURE2D_DESC;
  m_stagingTexMap : D3D11_MAPPED_SUBRESOURCE;
  m_codec : ALVR_CODEC;
  m_refreshRate : Z;
  m_renderWidth : Z;
  m_renderHeight : Z;
  m_bitrateInMBits : Z;
  m_arm64Encoder : bool;                     (* the unique_ptr owns a client *)
  m_useArm64Encoder : bool
}.

(** The constructor's initialiser list and the default member initialisers;
    the staging descriptor and mapping start out indeterminate. *)
Definition constructor (refreshRate width height : Z)
    (desc : D3D11_TEXTURE2D_DESC) (mapped : D3D11_MAPPED_SUBRESOURCE) : Members :=
  mkMembers nullptr nullptr nullptr nullptr false desc mapped
    ALVR_CODEC_H264 refreshRate width height 30 false false.

Definition set_codecContext (v : Z) (o : Members) :=
  mkMembers v (m_transferredFrame o) (m_encoderFrame o) (m_scalerContext o)
    (m_stagingTex o) (m_stagingTexDesc o) (m_stagingTexMap o) (m_codec o)
    (m_refreshRate o) (m_renderWidth o) (m_renderHeight o) (m_bitrateInMBits o)
    (m_arm64Encoder o) (m_useArm64Encoder o).
Definition set_transferredFrame (v : Z) (o : Members) :=
  mkMembers (m_codecContext o) v (m_encoderFrame o) (m_scalerContext o)
    (m_stagingTex o) (m_stagingTexDesc o) (m_stagingTexMap o) (m_codec o)
    (m_refreshRate o) (m_renderWidth o) (m_renderHeight o) (m_bitrateInMBits o)
    (m_arm64Encoder o) (m_useArm64Encoder o).
Definition set_encoderFrame (v : Z) (o : Members) :=
  mkMembers (m_codecContext o) (m_transferredFrame o) v (m_scalerContext o)
    (m_stagingTex o) (m_stagingTexDesc o) (m_stagingTexMap o) (m_codec o)
    (m_refreshRate o) (m_renderWidth o) (m_renderHeight o) (m_bitrateInMBits o)
    (m_arm64Encoder o) (m_useArm64Encoder o).
Definition set_scalerContext (v : Z) (o : Members) :=
  mkMembers (m_codecContext o) (m_transferredFrame o) (m_encoderFrame o) v
    (m_stagingTex o) (m_stagingTexDesc o) (m_stagingTexMap o) (m_codec o)
    (m_refreshRate o) (m_renderWidth o) (m_renderHeight o) (m_bitrateInMBits o)
    (m_arm64Encoder o) (m_useArm64Encoder o).
Definition set_stagingTex (v : bool) (o : Members) :=
  mkMembers (m_codecContext o) (m_transferredFrame o) (m_encoderFrame o) (m_scalerContext o)
    v (m_stagingTexDesc o) (m_stagingTexMap o) (m_codec o)
    (m_refreshRate o) (m_renderWidth o) (m_renderHeight o) (m_bitrateInMBits o)
    (m_arm64Encoder o) (m_useArm64Encoder o).
Definition set_stagingTexDesc (v : D3D11_TEXTURE2D_DESC) (o : Members) :=
  mkMembers (m_codecContext o) (m_transferredFrame o) (m_encoderFrame o) (m_scalerContext o)
    (m_stagingTex o) v (m_stagingTexMap o) (m_codec o)
    (m_refreshRate o) (m_renderWidth o) (m_renderHeight o) (m_bitrateInMBits o)
    (m_arm64Encoder o) (m_useArm64Encoder o).
Definition set_stagingTexMap (v : D3D11_MAPPED_SUBRESOURCE) (o : Members) :=
  mkMembers (m_codecContext o) (m_transferredFrame o) (m_encoderFrame o) (m_scalerContext o)
    (m_stagingTex o) (m_stagingTexDesc o) v (m_codec o)
    (m_refreshRate o) (m_renderWidth o) (m_renderHeight o) (m_bitrateInMBits o)
    (m_arm64Encoder o) (m_useArm64Encoder o).
Definition set_arm64Encoder (v : bool) (o : Members) :=
  mkMembers (m_codecContext o) (m_transferredFrame o) (m_encoderFrame o) (m_scalerContext o)
    (m_stagingTex o) (m_stagingTexDesc o) (m_stagingTexMap o) (m_codec o)
    (m_refreshRate o) (m_renderWidth o) (m_renderHeight o) (m_bitrateInMBits o)
    v (m_useArm64Encoder o).
Definition set_useArm64Encoder (v : bool) (o : Members) :=
  mkMembers (m_codecContext o) (m_transferredFrame o) (m_encoderFrame o) (m_scalerContext o)
    (m_stagingTex o) (m_stagingTexDesc o) (m_stagingTexMap o) (m_codec o)
    (m_refreshRate o) (m_renderWidth o) (m_renderHeight o) (m_bitrateInMBits o)
    (m_arm64Encoder o) v.

(** Calls that leave the object and the client: Direct3D, FFmpeg, the NAL
    parser of the base class. *)
Inductive Call :=
| GetNativeSystemInfo
| GetDesc
| CreateTexture2D (desc : D3D11_TEXTURE2D_DESC)
| CopyResource
| Map
| Unmap
| ParseFrameNals (codec : ALVR_CODEC) (buf : list byte) (len : Z)
    (targetTimestampNs : Z) (isIdr : bool)
| av_frame_free (frame : Z)
| avcodec_free_context (ctx : Z)
| sws_freeContext (ctx : Z).

Record State := mkState {
  object : Members;
  process : World;
  calls : list Call
}.

Inductive Result (A : Type) :=
| Done (a : A) (s : State)
| Faulted (f : Fault).
Arguments Done {A} a s.
Arguments Faulted {A} f.

Definition SW (A : Type) : Type := State -> Result A.

Definition pure {A} (a : A) : SW A := fun s => Done a s.
Definition seq {A B} (c : SW A) (k : A -> SW B) : SW B :=
  fun s => match c s with Done a s' => k a s' | Faulted f => Faulted f end.

Declare Scope sw_scope.
Notation "x <- c ;; k" := (seq c (fun x => k))
  (at level 100, c at level 99, k at level 200, right associativity) : sw_scope.
Notation "c ;; k" := (seq c (fun _ => k))
  (at level 100, k at level 200, right associativity) : sw_scope.
Local Open Scope sw_scope.

Definition me : SW Members := fun s => Done (object s) s.
Definition update (f : Members -> Members) : SW unit :=
  fun s => Done tt (mkState (f (object s)) (process s) (calls s)).
Definition call (c : Call) : SW unit :=
  fun s => Done tt (mkState (object s) (process s) (calls s ++ [c])).

(** A member function of the client run on the client the object owns. *)
Definition client {A} (c : M A) : SW A :=
  fun s => match c (process s) with
           | Ok a w => Done a (mkState (object s) w (calls s))
           | Crash f => Faulted f
           end.

(** [m_arm64Encoder = std::make_unique<EncoderIpcClient>()]: a client the
    pointer owned is destroyed, the pointer owns a newly constructed one. *)
Definition make_unique_arm64Encoder : SW unit :=
  o <- me ;;
  (if m_arm64Encoder o then client EncoderIpcClient_destructor else pure tt) ;;
  client (assign (fun _ => new_client)) ;;
  update (set_arm64Encoder true).

(** [m_arm64Encoder.reset()] *)
Definition reset_arm64Encoder : SW unit :=
  o <- me ;;
  if m_arm64Encoder o then
    client EncoderIpcClient_destructor ;;
    update (set_arm64Encoder false)
  else pure tt.

(** The process as the new client of [TryInitArm64Encoder] finds it: the
    assignment to [m_arm64Encoder] has destroyed a client the pointer owned,
    whose destructor has run [Shutdown]. *)
Definition old_client_destroyed (s : State) : World :=
  if m_arm64Encoder (object s) then after_Shutdown (process s) else process s.

(** The call site passes the render size; the definition of
    [EncoderIpcClient::Initialize] in [Arm64EncoderIpc.cpp] takes the codec
    name as a third argument, which stays a parameter here. *)
Definition TryInitArm64Encoder (wProcessorArchitecture : Z) (codec : string)
    (env : InitEnv) : SW bool :=
  call GetNativeSystemInfo ;;
  if negb (wProcessorArchitecture =? PROCESSOR_ARCHITECTURE_ARM64) then pure false
  else
    make_unique_arm64Encoder ;;
    o <- me ;;
    ok <- client (Initialize (m_renderWidth o) (m_renderHeight o) codec env) ;;
    if ok then
      update (set_useArm64Encoder true) ;;
      pure true
    else
      reset_arm64Encoder ;;
      pure false.

(** What the surroundings answer during one [TransmitViaArm64] call, and the
    indeterminate initial values of its locals [pts] and [isIdr]. *)
Record TransmitEnv := mkTransmitEnv {
  te_settings : Settings;
  te_signal_ok : bool;
  te_packet_wait : DWORD;
  te_pts : Z;
  te_isIdr : bool
}.

Definition select_format (settings : Settings) : PixelFormat :=
  if m_enableHdr settings
  then (if m_use10bitEncoder settings then P010 else NV12)
  else RGBA.

Definition TransmitViaArm64 (data : Z -> byte) (size timestampNs : Z) (insertIDR : bool)
    (env : TransmitEnv) : SW bool :=
  o <- me ;;
  unusable <- (if negb (m_arm64Encoder o) then pure true
               else c <- client this ;; pure (negb (IsConnected c))) ;;
  if unusable then pure false
  else
    let settings := te_settings env in
    let format := select_format settings in
    sent <- client (SendFrame data size
                      (Width (m_stagingTexDesc o)) (Height (m_stagingTexDesc o))
                      (RowPitch (m_stagingTexMap o)) timestampNs insertIDR format
                      (te_signal_ok env)) ;;
    if negb sent then pure false
    else
      let packet := mkPacketOut [] (te_pts env) (te_isIdr env) in
      r <- client (ReceivePacket packet default_receive_timeout_ms (te_packet_wait env)) ;;
      let '(received, packet) := r in
      if received then
        call (ParseFrameNals (m_codec o) (packet_data packet)
                (Z.of_nat (length (packet_data packet)))
                (timestamp_ns packet) (is_idr packet)) ;;
        pure true
      else pure false.

(** The byte that tells the encoder process the pixel format. *)
Definition pixel_format_code (settings : Settings) : Z :=
  if m_enableHdr settings
  then (if m_use10bitEncoder settings then 2 else 1)
  else 0.

(** What Direct3D answers during one [Transmit] call. *)
Record D3DEnv := mkD3DEnv {
  d3d_create : HRESULT;                   (* CreateTexture2D *)
  d3d_map : HRESULT;                      (* Map *)
  d3d_mapped : D3D11_MAPPED_SUBRESOURCE   (* what a successful Map reports *)
}.

(** [pTexture] is given by what its [GetDesc] reports. *)
Definition SetupStagingTexture (pTexture : D3D11_TEXTURE2D_DESC) (d3d : D3DEnv)
    : SW HRESULT :=
  call GetDesc ;;
  let desc := pTexture in
  update (set_stagingTexDesc
            (mkDesc (Width desc) (Height desc) (MipLevels desc) (ArraySize desc)
               (Format desc) (SampleDesc desc) D3D11_USAGE_STAGING 0
               D3D11_CPU_ACCESS_READ 0)) ;;
  o <- me ;;
  call (CreateTexture2D (m_stagingTexDesc o)) ;;
  update (set_stagingTex (negb (FAILED (d3d_create d3d)))) ;;
  pure (d3d_create d3d).

Definition CopyTexture (d3d : D3DEnv) : SW HRESULT :=
  call CopyResource ;;
  call Map ;;
  (if FAILED (d3d_map d3d) then pure tt
   else update (set_stagingTexMap (d3d_mapped d3d))) ;;
  pure (d3d_map d3d).

(** The size in bytes of the mapped frame, in [uint32_t] arithmetic. *)
Definition frame_data_size (settings : Settings) (o : Members) : Z :=
  let dataSize :=
    to_uint32 (RowPitch (m_stagingTexMap o) * Height (m_stagingTexDesc o)) in
  if m_enableHdr settings
  then to_uint32 (dataSize
                  + to_uint32 (RowPitch (m_stagingTexMap o)
                               * (Height (m_stagingTexDesc o) / 2)))
  else dataSize.

Definition Transmit (in_process : SW unit) (pTexture : D3D11_TEXTURE2D_DESC)
    (presentationTime targetTimestampNs : Z) (insertIDR : bool)
    (d3d : D3DEnv) (env : TransmitEnv) : SW unit :=
  o <- me ;;
  if m_useArm64Encoder o then
    failed <- (if negb (m_stagingTex o) then
                 hr <- SetupStagingTexture pTexture d3d ;;
                 pure (FAILED hr)
               else pure false) ;;
    if failed then pure tt
    else
      hr <- CopyTexture d3d ;;
      if FAILED hr then pure tt
      else
        o <- me ;;
        let dataSize := frame_data_size (te_settings env) o in
        TransmitViaArm64 (pData (m_stagingTexMap o)) dataSize targetTimestampNs
          insertIDR env ;;
        call Unmap ;;
        pure tt
  else in_process.

(** [av_frame_free] and [avcodec_free_context] take the address of the
    pointer and write null to it. *)
Definition Shutdown : SW unit :=
  o <- me ;;
  (if m_arm64Encoder o then
     client Shutdown ;;
     reset_arm64Encoder ;;
     update (set_useArm64Encoder false)
   else pure tt) ;;
  o <- me ;;
  (if negb (m_transferredFrame o =? nullptr) then
     call (av_frame_free (m_transferredFrame o)) ;;
     update (set_transferredFrame nullptr)
   else pure tt) ;;
  o <- me ;;
  (if negb (m_encoderFrame o =? nullptr) then
     call (av_frame_free (m_encoderFrame o)) ;;
     update (set_encoderFrame nullptr)
   else pure tt) ;;
  o <- me ;;
  (if negb (m_codecContext o =? nullptr) then
     call (avcodec_free_context (m_codecContext o)) ;;
     update (set_codecContext nullptr)
   else pure tt) ;;
  o <- me ;;
  (if negb (m_scalerContext o =? nullptr) then
     call (sws_freeContext (m_scalerContext o)) ;;
     update (set_scalerContext nullptr)
   else pure tt).

(** [Initialize]: the in-process FFmpeg set-up runs only if the
    out-of-process encoder could not be used. *)
Definition Initialize (in_process : SW unit) (wProcessorArchitecture : Z)
    (codec : string) (env : InitEnv) : SW unit :=
  ok <- TryInitArm64Encoder wProcessorArchitecture codec env ;;
  if ok then pure tt else in_process.

(** The calls that reach the client. *)
Inductive Op :=
| OpTryInitArm64Encoder (wProcessorArchitecture : Z) (codec : string) (env : InitEnv)
| OpTransmitViaArm64 (data : Z -> byte) (size timestampNs : Z) (insertIDR : bool)
    (env : TransmitEnv)
| OpShutdown.

Definition run_op (o : Op) : SW unit :=
  match o with
  | OpTryInitArm64Encoder arch codec env => TryInitArm64Encoder arch codec env ;; pure tt
  | OpTransmitViaArm64 data size ts idr env => TransmitViaArm64 data size ts idr env ;; pure tt
  | OpShutdown => Shutdown
  end.

(** The states of an encoder on the out-of-process path: it is newly
    constructed, in a process in any state; then the functions above are
    called in any order, and [Transmit] whenever it takes the out-of-process
    branch. *)
Inductive reachable : State -> Prop :=
| reach_new refreshRate width height desc mapped w :
    reachable (mkState (constructor refreshRate width height desc mapped) w [])
| reach_op s o s' : reachable s -> run_op o s = Done tt s' -> reachable s'
| reach_Transmit s in_process pTexture presentationTime targetTimestampNs insertIDR d3d env s' :
    reachable s ->
    m_useArm64Encoder (object s) = true ->
    Transmit in_process pTexture presentationTime targetTimestampNs insertIDR d3d env s
      = Done tt s' ->
    reachable s'.

(** [ensures r Q]: the call returned, with a result and a state that
    satisfy [Q]. *)
Definition ensures {A} (r : Result A) (Q : A -> State -> Prop) : Prop :=
  match r with
  | Done a s => Q a s
  | Faulted _ => False
  end.

Definition is_ParseFrameNals (c : Call) : bool :=
  match c with ParseFrameNals _ _ _ _ _ => true | _ => false end.

(** A well-formed call of the NAL parser: the codec the object was
    constructed with, a length that is the length of the buffer, and no more
    than the packet buffer holds. *)
Definition parser_call_ok (c : Call) : Prop :=
  match c with
  | ParseFrameNals codec buf len _ _ =>
      codec = ALVR_CODEC_H264 /\ len = Z.of_nat (length buf) /\ len <= PACKET_BUFFER_SIZE
  | _ => True
  end.

(** The descriptor [SetupStagingTexture] asks Direct3D for. *)
Definition staged_desc (pTexture : D3D11_TEXTURE2D_DESC) : D3D11_TEXTURE2D_DESC :=
  mkDesc (Width pTexture) (Height pTexture) (MipLevels pTexture) (ArraySize pTexture)
    (Format pTexture) (SampleDesc pTexture) D3D11_USAGE_STAGING 0 D3D11_CPU_ACCESS_READ 0.

(** What [Transmit] does before it maps the texture: nothing if the staging
    texture exists, otherwise one attempt to create it. *)
Definition staging_calls (pTexture : D3D11_TEXTURE2D_DESC) (o : Members) : list Call :=
  if m_stagingTex o then [] else [GetDesc; CreateTexture2D (staged_desc pTexture)].

Definition staging_fails (d3d : D3DEnv) (o : Members) : bool :=
  negb (m_stagingTex o) && FAILED (d3d_create d3d).

Definition staged (pTexture : D3D11_TEXTURE2D_DESC) (d3d : D3DEnv) (o : Members) : Members :=
  if m_stagingTex o then o
  else set_stagingTex (negb (FAILED (d3d_create d3d)))
         (set_stagingTexDesc (staged_desc pTexture) o).

(** The FFmpeg objects [Shutdown] frees, in the order it frees them. *)
Definition frees (o : Members) : list Call :=
  (if m_transferredFrame o =? nullptr then [] else [av_frame_free (m_transferredFrame o)])
  ++ (if m_encoderFrame o =? nullptr then [] else [av_frame_free (m_encoderFrame o)])
  ++ (if m_codecContext o =? nullptr then [] else [avcodec_free_context (m_codecContext o)])
  ++ (if m_scalerContext o =? nullptr then [] else [sws_freeContext (m_scalerContext o)]).

(** The object [Shutdown] leaves behind. *)
Definition released (o : Members) : Members :=
  mkMembers nullptr nullptr nullptr nullptr
    (m_stagingTex o) (m_stagingTexDesc o) (m_stagingTexMap o) (m_codec o)
    (m_refreshRate o) (m_renderWidth o) (m_renderHeight o) (m_bitrateInMBits o)
    false (if m_arm64Encoder o then false else m_useArm64Encoder o).

(** What holds of an encoder on the out-of-process path at all times. *)
Definition invariant (s : State) : Prop :=
  (m_arm64Encoder (object s) = true ->
   Connected (process s) /\ m_useArm64Encoder (object s) = true) /\
  m_codec (object s) = ALVR_CODEC_H264 /\
  Forall parser_call_ok (calls s).

(** A newly constructed 1920 x 1080 encoder in a process that has nothing
    open, and the same on a 4096 x 2160 RGBA staging texture. *)
Definition blank_desc : D3D11_TEXTURE2D_DESC := mkDesc 0 0 0 0 0 (0, 0) 0 0 0 0.
Definition blank_mapping : D3D11_MAPPED_SUBRESOURCE := mkMapped (fun _ => x00) 0 0.

Definition new_state : State :=
  mkState (constructor 90 1920 1080 blank_desc blank_mapping) (fresh_world zero_region) [].

(** An encoder that owns a connected client and has a 2 x 1 RGBA staging
    texture mapped, while the packet slot holds a three-byte packet. *)
Definition streaming_state : State :=
  mkState
    (set_stagingTexMap (mkMapped (fun _ => x2a) 8 8)
       (set_stagingTexDesc (mkDesc 2 1 1 1 28 (1, 0) D3D11_USAGE_STAGING 0
                              D3D11_CPU_ACCESS_READ 0)
          (set_stagingTex true
             (set_useArm64Encoder true
                (set_arm64Encoder true
                   (constructor 90 1920 1080 blank_desc blank_mapping))))))
    (with_region (fun _ => packet_region) connected_world) [].

(** The encoder of [new_state] after a successful [TryInitArm64Encoder]. *)
Definition attached_state : State :=
  match TryInitArm64Encoder PROCESSOR_ARCHITECTURE_ARM64 "h264" env_attach new_state with
  | Done _ s => s
  | Faulted _ => new_state
  end.

Definition env_sdr : TransmitEnv :=
  mkTransmitEnv (mkSettings false false) true WAIT_OBJECT_0 0 false.

End VideoEncoderSW.

(** * Proofs *)

(** ** Stepping through a member function *)

Lemma bind_Ok {A B} (c : M A) (k : A -> M B) w a w' :
  c w = Ok a w' -> bind c k w = k a w'.
Proof. unfold bind. intros ->. reflexivity. Qed.

Lemma post_bind {A B} (c : M A) (k : A -> M B) w Q :
  post (c w) (fun a w1 => post (k a w1) Q) -> post (bind c k w) Q.
Proof. unfold bind, post. destruct (c w); auto. Qed.

Lemma post_weaken {A} (o : Outcome A) (Q Q' : A -> World -> Prop) :
  post o Q -> (forall a w, Q a w -> Q' a w) -> post o Q'.
Proof. destruct o; simpl; auto. Qed.

Lemma post_Ok {A} (o : Outcome A) Q :
  post o Q -> exists a w, o = Ok a w /\ Q a w.
Proof. destruct o; simpl; [eauto | tauto]. Qed.

Ltac norm :=
  cbn [self handles views next_id region log
       with_self with_handles with_views with_region
       m_sharedMemory m_sharedPtr m_frameReadyEvent m_packetReadyEvent
       m_encoderReadyEvent m_encoderProcess m_width m_height m_codec m_connected
       set_sharedMemory set_sharedPtr set_frameReadyEvent set_packetReadyEvent
       set_encoderReadyEvent set_encoderProcess set_width set_height set_codec
       set_connected frame_header packet_header frame_buffer packet_buffer
       negb orb andb Z.eqb nullptr].

Tactic Notation "norm" "in" hyp(H) :=
  cbn [self handles views next_id region log
       with_self with_handles with_views with_region
       m_sharedMemory m_sharedPtr m_frameReadyEvent m_packetReadyEvent
       m_encoderReadyEvent m_encoderProcess m_width m_height m_codec m_connected
       set_sharedMemory set_sharedPtr set_frameReadyEvent set_packetReadyEvent
       set_encoderReadyEvent set_encoderProcess set_width set_height set_codec
       set_connected frame_header packet_header frame_buffer packet_buffer
       negb orb andb Z.eqb nullptr] in H.

(** One statement whose effect is known by computation. *)
Ltac step := erewrite bind_Ok; [| reflexivity]; norm.
(** One statement whose effect is given by a lemma. *)
Ltac step_by lem := erewrite bind_Ok; [| apply lem]; norm.

Lemma deref_Ok w :
  m_sharedPtr (self w) <> nullptr ->
  is_Some (views w !! m_sharedPtr (self w)) ->
  deref w = Ok tt w.
Proof.
  intros Hnz [s Hs]. unfold deref.
  destruct (Z.eqb_spec (m_sharedPtr (self w)) nullptr) as [E|_]; [contradiction|].
  rewrite Hs. reflexivity.
Qed.

Lemma store_frame_header_Ok f v w :
  m_sharedPtr (self w) <> nullptr ->
  is_Some (views w !! m_sharedPtr (self w)) ->
  store_frame_header f v w =
    Ok tt (mkWorld (self w) (handles w) (views w) (next_id w)
             (mkShared (set_frame_field f v (frame_header (region w)))
                (packet_header (region w)) (frame_buffer (region w))
                (packet_buffer (region w)))
             (log w ++ [EvStoreFrameHeader f v])).
Proof.
  intros Hnz Hv. unfold store_frame_header.
  rewrite (bind_Ok _ _ _ _ _ (deref_Ok w Hnz Hv)). reflexivity.
Qed.

Lemma copy_to_frame_buffer_Ok data n w :
  m_sharedPtr (self w) <> nullptr ->
  is_Some (views w !! m_sharedPtr (self w)) ->
  copy_to_frame_buffer data n w =
    Ok tt (mkWorld (self w) (handles w) (views w) (next_id w)
             (mkShared (frame_header (region w)) (packet_header (region w))
                (memcpy (frame_buffer (region w)) data n) (packet_buffer (region w)))
             (log w ++ [EvCopyToFrameBuffer n])).
Proof.
  intros Hnz Hv. unfold copy_to_frame_buffer.
  rewrite (bind_Ok _ _ _ _ _ (deref_Ok w Hnz Hv)). reflexivity.
Qed.

Lemma load_packet_header_Ok f w :
  m_sharedPtr (self w) <> nullptr ->
  is_Some (views w !! m_sharedPtr (self w)) ->
  load_packet_header f w =
    Ok (get_packet_field f (packet_header (region w)))
       (mkWorld (self w) (handles w) (views w) (next_id w) (region w)
          (log w ++ [EvLoadPacketHeader f])).
Proof.
  intros Hnz Hv. unfold load_packet_header.
  rewrite (bind_Ok _ _ _ _ _ (deref_Ok w Hnz Hv)). reflexivity.
Qed.

Lemma copy_from_packet_buffer_Ok n w :
  m_sharedPtr (self w) <> nullptr ->
  is_Some (views w !! m_sharedPtr (self w)) ->
  copy_from_packet_buffer n w =
    Ok (bytes_of (packet_buffer (region w)) n)
       (mkWorld (self w) (handles w) (views w) (next_id w) (region w)
          (log w ++ [EvCopyFromPacketBuffer n])).
Proof.
  intros Hnz Hv. unfold copy_from_packet_buffer.
  rewrite (bind_Ok _ _ _ _ _ (deref_Ok w Hnz Hv)). reflexivity.
Qed.

Lemma SetEvent_Ok h ok w :
  SetEvent h ok w =
    Ok (if is_event (handles w !! h) then ok else false)
       (mkWorld (self w) (handles w) (views w) (next_id w) (region w)
          (log w ++ [EvSetEvent h])).
Proof.
  unfold SetEvent, bind, emit, lookup_handle, ret. simpl.
  destruct (handles w !! h) as [[]|]; reflexivity.
Qed.

Lemma to_uint32_id v : is_uint32 v -> to_uint32 v = v.
Proof. intros H. apply Z.mod_small. exact H. Qed.

Lemma to_uint64_id v : is_uint64 v -> to_uint64 v = v.
Proof. intros H. apply Z.mod_small. exact H. Qed.

(** ** Exact effect of the Win32 calls *)

Lemma CloseHandle_run h w :
  CloseHandle h w =
    Ok (if handles w !! h is Some _ then true else false)
       (mkWorld (self w) (delete h (handles w)) (views w) (next_id w) (region w)
          (log w ++ [EvCloseHandle h])).
Proof.
  unfold CloseHandle, bind, emit, lookup_handle, update_handles, with_handles, ret.
  simpl. destruct (handles w !! h) eqn:E; simpl.
  - reflexivity.
  - rewrite (delete_id _ _ E). reflexivity.
Qed.

Lemma UnmapViewOfFile_run p w :
  UnmapViewOfFile p w =
    Ok (if views w !! p is Some _ then true else false)
       (mkWorld (self w) (handles w) (delete p (views w)) (next_id w) (region w)
          (log w ++ [EvUnmapViewOfFile p])).
Proof.
  unfold UnmapViewOfFile, bind, emit, lookup_view, update_views, with_views, ret.
  simpl. destruct (views w !! p) eqn:E; simpl.
  - reflexivity.
  - rewrite (delete_id _ _ E). reflexivity.
Qed.

Lemma WaitForSingleObject_run h t res w :
  WaitForSingleObject h t res w =
    Ok (match handles w !! h with
        | Some (KEvent _) | Some (KProcess _) | Some KThread => res
        | _ => WAIT_FAILED
        end)
       (mkWorld (self w) (handles w) (views w) (next_id w) (region w)
          (log w ++ [EvWaitForSingleObject h t])).
Proof.
  unfold WaitForSingleObject, bind, emit, lookup_handle, ret. simpl.
  destruct (handles w !! h) as [[]|]; reflexivity.
Qed.

Lemma OpenFileMappingW_run name found w :
  OpenFileMappingW name found w =
    Ok (if found then Z.pos (next_id w) else nullptr)
       (mkWorld (self w)
          (if found then <[Z.pos (next_id w) := KSection name]> (handles w) else handles w)
          (views w)
          (if found then Pos.succ (next_id w) else next_id w)
          (region w) (log w ++ [EvOpenFileMappingW name])).
Proof. destruct found; reflexivity. Qed.

Lemma OpenEventW_run name found w :
  OpenEventW name found w =
    Ok (if found then Z.pos (next_id w) else nullptr)
       (mkWorld (self w)
          (if found then <[Z.pos (next_id w) := KEvent name]> (handles w) else handles w)
          (views w)
          (if found then Pos.succ (next_id w) else next_id w)
          (region w) (log w ++ [EvOpenEventW name])).
Proof. destruct found; reflexivity. Qed.

Lemma MapViewOfFile_run h ok w :
  MapViewOfFile h ok w =
    let mapped := is_section (handles w !! h) && ok in
    Ok (if mapped then Z.pos (next_id w) else nullptr)
       (mkWorld (self w) (handles w)
          (if mapped then <[Z.pos (next_id w) := h]> (views w) else views w)
          (if mapped then Pos.succ (next_id w) else next_id w)
          (region w) (log w ++ [EvMapViewOfFile h])).
Proof.
  unfold MapViewOfFile, bind, emit, lookup_handle. simpl.
  destruct (handles w !! h) as [[]|]; simpl; try reflexivity.
  destruct ok; reflexivity.
Qed.

(** ** Exact effect of [Shutdown] *)

Lemma close_block (set : HANDLE -> EncoderIpcClient -> EncoderIpcClient) h w :
  (h = nullptr -> set nullptr (self w) = self w) ->
  when (negb (h =? nullptr)) (CloseHandle h ;; assign (set nullptr)) w =
    Ok tt (mkWorld (set nullptr (self w)) (drop h (handles w)) (views w)
             (next_id w) (region w) (log w ++ unless_null h [EvCloseHandle h])).
Proof.
  intros Hset. unfold drop, unless_null.
  destruct (Z.eqb_spec h nullptr) as [E|E]; simpl.
  - rewrite (Hset E), app_nil_r. destruct w; reflexivity.
  - rewrite (bind_Ok _ _ _ _ _ (CloseHandle_run _ w)). reflexivity.
Qed.

Lemma unmap_block p w :
  (p = nullptr -> set_sharedPtr nullptr (self w) = self w) ->
  when (negb (p =? nullptr)) (UnmapViewOfFile p ;; assign (set_sharedPtr nullptr)) w =
    Ok tt (mkWorld (set_sharedPtr nullptr (self w)) (handles w) (drop p (views w))
             (next_id w) (region w) (log w ++ unless_null p [EvUnmapViewOfFile p])).
Proof.
  intros Hset. unfold drop, unless_null.
  destruct (Z.eqb_spec p nullptr) as [E|E]; simpl.
  - rewrite (Hset E), app_nil_r. destruct w; reflexivity.
  - rewrite (bind_Ok _ _ _ _ _ (UnmapViewOfFile_run _ w)). reflexivity.
Qed.

Lemma process_block h w :
  (h = nullptr -> set_encoderProcess nullptr (self w) = self w) ->
  when (negb (h =? nullptr))
       (WaitForSingleObject h 3000 WAIT_TIMEOUT ;;
        CloseHandle h ;;
        assign (set_encoderProcess nullptr)) w =
    Ok tt (mkWorld (set_encoderProcess nullptr (self w)) (drop h (handles w)) (views w)
             (next_id w) (region w)
             (log w ++ unless_null h [EvWaitForSingleObject h 3000; EvCloseHandle h])).
Proof.
  intros Hset. unfold drop, unless_null.
  destruct (Z.eqb_spec h nullptr) as [E|E]; simpl.
  - rewrite (Hset E), app_nil_r. destruct w; reflexivity.
  - rewrite (bind_Ok _ _ _ _ _ (WaitForSingleObject_run _ _ _ w)).
    erewrite bind_Ok; [| apply CloseHandle_run].
    simpl. rewrite <- app_assoc. reflexivity.
Qed.

Lemma announce_block b w :
  pointer_valid w ->
  b = announces_shutdown (self w) ->
  when b
       (store_frame_header FH_shutdown 1 ;;
        c <- this ;;
        when (negb (m_frameReadyEvent c =? nullptr))
          (SetEvent (m_frameReadyEvent c) true ;; ret tt)) w =
    Ok tt (mkWorld (self w) (handles w) (views w) (next_id w)
             (Shutdown_region (self w) (region w))
             (log w ++
                if announces_shutdown (self w)
                then EvStoreFrameHeader FH_shutdown 1
                       :: unless_null (m_frameReadyEvent (self w))
                            [EvSetEvent (m_frameReadyEvent (self w))]
                else [])).
Proof.
  intros Hp ->. unfold Shutdown_region, announces_shutdown, unless_null.
  destruct (Z.eqb_spec (m_sharedPtr (self w)) nullptr) as [E|E]; simpl.
  { rewrite app_nil_r. destruct w; reflexivity. }
  destruct (m_connected (self w)); simpl.
  2:{ rewrite app_nil_r. destruct w; reflexivity. }
  rewrite (bind_Ok _ _ _ _ _ (store_frame_header_Ok _ _ w E (Hp E))).
  unfold bind at 1, this at 1. simpl.
  destruct (Z.eqb_spec (m_frameReadyEvent (self w)) nullptr) as [F|F]; simpl.
  - reflexivity.
  - rewrite (bind_Ok _ _ _ _ _ (SetEvent_Ok _ _ _)). simpl.
    rewrite <- app_assoc. reflexivity.
Qed.

Lemma Shutdown_run w :
  pointer_valid w ->
  Shutdown w =
    Ok tt (mkWorld (cleared (self w)) (Shutdown_handles (self w) (handles w))
             (drop (m_sharedPtr (self w)) (views w)) (next_id w)
             (Shutdown_region (self w) (region w))
             (log w ++ Shutdown_events (self w))).
Proof.
  intros Hp. unfold Shutdown.
  destruct w as [[sm ptr fr pr er proc wd ht cd conn] hs vs n r l].
  step. step_by announce_block; [| exact Hp | reflexivity].
  step. step_by unmap_block; [| intros ->; reflexivity].
  step. step_by (close_block set_sharedMemory); [| intros ->; reflexivity].
  step. step_by (close_block set_frameReadyEvent); [| intros ->; reflexivity].
  step. step_by (close_block set_packetReadyEvent); [| intros ->; reflexivity].
  step. step_by (close_block set_encoderReadyEvent); [| intros ->; reflexivity].
  step. step_by process_block; [| intros ->; reflexivity].
  unfold assign, with_self, Shutdown_handles, Shutdown_events, cleared. norm.
  repeat rewrite <- app_assoc. reflexivity.
Qed.

Lemma fresh_ids_differ (n : positive) :
  Z.pos n <> Z.pos (Pos.succ n) /\
  Z.pos n <> Z.pos (Pos.succ (Pos.succ n)) /\
  Z.pos n <> Z.pos (Pos.succ (Pos.succ (Pos.succ n))) /\
  Z.pos n <> Z.pos (Pos.succ (Pos.succ (Pos.succ (Pos.succ n)))).
Proof. repeat split; lia. Qed.

Lemma WaitForEncoderReady_run t res w :
  WaitForEncoderReady t res w =
    let h := m_encoderReadyEvent (self w) in
    Ok (negb (h =? nullptr) && (wait_value (handles w !! h) res =? WAIT_OBJECT_0))
       (mkWorld (self w) (handles w) (views w) (next_id w) (region w)
          (log w ++ unless_null h [EvWaitForSingleObject h t])).
Proof.
  unfold WaitForEncoderReady, unless_null. cbv zeta.
  unfold bind at 1, this at 1.
  destruct (Z.eqb_spec (m_encoderReadyEvent (self w)) nullptr) as [E|E]; simpl.
  - rewrite app_nil_r. destruct w; reflexivity.
  - rewrite (bind_Ok _ _ _ _ _ (WaitForSingleObject_run _ _ _ w)). reflexivity.
Qed.

Ltac split_init_post :=
  cbn [post ret]; unfold init_post; norm;
  split; [| split; [| split; [| split]]].

Ltac view_is_mapped :=
  unfold pointer_valid; norm; intros; rewrite lookup_insert_eq; eauto.

(** A connection attempt that ends in [Shutdown]. *)
Ltac after_teardown :=
  split_init_post;
  [ unfold pointer_valid; norm; intros _ H; exfalso; apply H; reflexivity
  | discriminate
  | reflexivity
  | intros Hc; unfold Shutdown_region, announces_shutdown; norm;
    rewrite Hc; reflexivity
  | eexists; rewrite <- !app_assoc; reflexivity ].

Lemma Initialize_mapped_post env w :
  m_sharedMemory (self w) <> nullptr ->
  post (Initialize_mapped env w) (init_post (EvMapViewOfFile (m_sharedMemory (self w))) w).
Proof.
  intros Hsm. unfold Initialize_mapped.
  destruct w as [[sm ptr fr pr er proc wd ht cd conn] hs vs n r l].
  cbn [self m_sharedMemory] in Hsm.
  step. step_by MapViewOfFile_run. cbv zeta.
  destruct (is_section (hs !! sm) && ie_view_mapped env); norm.
  - step.
    step_by OpenEventW_run. step.
    step_by OpenEventW_run. step.
    step_by OpenEventW_run. step. step.
    destruct (ie_frame_event_present env), (ie_packet_event_present env),
      (ie_encoder_event_present env); norm;
      try (step_by Shutdown_run; [after_teardown | view_is_mapped]).
    step_by WaitForEncoderReady_run. cbv zeta. norm.
    rewrite lookup_insert_eq. cbn [wait_value].
    destruct (ie_ready_wait env =? WAIT_OBJECT_0); norm.
    + step. split_init_post.
      * view_is_mapped.
      * intros _. pose proof (fresh_ids_differ n) as (D1 & D2 & D3 & D4).
        pose proof (fresh_ids_differ (Pos.succ n)) as (E1 & E2 & _).
        pose proof (fresh_ids_differ (Pos.succ (Pos.succ n))) as (F1 & _).
        repeat split; norm; try discriminate; try exact Hsm.
        -- rewrite lookup_insert_eq. eauto.
        -- rewrite lookup_insert_ne by congruence.
           rewrite lookup_insert_ne by congruence.
           rewrite lookup_insert_eq. reflexivity.
        -- rewrite lookup_insert_ne by congruence.
           rewrite lookup_insert_eq. reflexivity.
        -- rewrite lookup_insert_eq. reflexivity.
      * discriminate.
      * reflexivity.
      * eexists; rewrite <- !app_assoc; reflexivity.
    + step_by Shutdown_run; [after_teardown | view_is_mapped].
  - step. step. step_by CloseHandle_run. step.
    split_init_post.
    + unfold pointer_valid; norm; intros _ H; exfalso; apply H; reflexivity.
    + discriminate.
    + auto.
    + reflexivity.
    + eexists; rewrite <- !app_assoc; reflexivity.
Qed.

(** ** The attach-or-launch prelude of [Initialize] *)

Lemma LaunchEncoderProcess_run env w :
  LaunchEncoderProcess env w =
    let c := self w in
    let cmd := encoder_cmdline env (m_width c) (m_height c) (m_codec c) in
    let probe := [EvGetModuleFileNameW; EvExists (wstring (encoder_path env))] in
    let hProcess := Z.pos (next_id w) in
    let hThread := Z.pos (Pos.succ (next_id w)) in
    if negb (ie_encoder_exists env) then
      Ok false (mkWorld c (handles w) (views w) (next_id w) (region w) (log w ++ probe))
    else if negb (ie_process_created env) then
      Ok false (mkWorld c (handles w) (views w) (next_id w) (region w)
                  (log w ++ probe ++ [EvCreateProcessW cmd]))
    else
      Ok true (mkWorld (set_encoderProcess hProcess c)
                 (delete hThread
                    (<[hThread := KThread]> (<[hProcess := KProcess cmd]> (handles w))))
                 (views w) (Pos.succ (Pos.succ (next_id w))) (region w)
                 (log w ++ probe ++ [EvCreateProcessW cmd; EvCloseHandle hThread])).
Proof.
  unfold LaunchEncoderProcess, encoder_cmdline, encoder_path. cbv zeta.
  step. step.
  destruct (ie_encoder_exists env); norm.
  2:{ unfold ret. rewrite <- !app_assoc. reflexivity. }
  step.
  destruct (ie_process_created env).
  - step. norm. step. step_by CloseHandle_run.
    unfold ret. rewrite <- !app_assoc. cbn [app]. reflexivity.
  - step. norm. unfold ret. rewrite <- !app_assoc. cbn [app]. reflexivity.
Qed.

Lemma poll_events_snoc k :
  poll_events (S k) = poll_events k ++ [EvSleep 100; EvOpenFileMappingW SHARED_MEM_NAME].
Proof. induction k as [|k IH]; [reflexivity|]. simpl in *. rewrite IH. reflexivity. Qed.

(** The region never appears: every round is spent. *)
Lemma poll_shared_memory_never env n i w :
  m_sharedMemory (self w) = nullptr ->
  (forall j, (i <= j < i + n)%nat -> ie_region_appears env j = false) ->
  poll_shared_memory env n i w =
    Ok tt (mkWorld (self w) (handles w) (views w) (next_id w) (region w)
             (log w ++ poll_events n)).
Proof.
  revert i w. induction n as [|n IH]; intros i w Hnull Hnever.
  - simpl. unfold ret. rewrite app_nil_r. destruct w; reflexivity.
  - cbn [poll_shared_memory]. unfold Sleep.
    step. step_by OpenFileMappingW_run.
    rewrite (Hnever i) by lia. norm.
    step. rewrite IH.
    + norm. destruct w as [[] ? ? ? ? ?]. simpl in Hnull. subst. norm.
      rewrite <- !app_assoc. reflexivity.
    + reflexivity.
    + intros j Hj. apply Hnever. lia.
Qed.

(** The region first appears at round [i + k]. *)
Lemma poll_shared_memory_hit env n i k w :
  (k < n)%nat ->
  (forall j, (i <= j < i + k)%nat -> ie_region_appears env j = false) ->
  ie_region_appears env (i + k)%nat = true ->
  poll_shared_memory env n i w =
    Ok tt (mkWorld (set_sharedMemory (Z.pos (next_id w)) (self w))
             (<[Z.pos (next_id w) := KSection SHARED_MEM_NAME]> (handles w))
             (views w) (Pos.succ (next_id w)) (region w)
             (log w ++ poll_events (S k))).
Proof.
  revert n i w. induction k as [|k IH]; intros n i w Hk Hnever Hhit.
  - destruct n as [|n]; [lia|].
    cbn [poll_shared_memory]. unfold Sleep.
    step. step_by OpenFileMappingW_run.
    replace (i + 0)%nat with i in Hhit by lia. rewrite Hhit. norm.
    step. unfold ret. rewrite <- !app_assoc. reflexivity.
  - destruct n as [|n]; [lia|].
    cbn [poll_shared_memory]. unfold Sleep.
    step. step_by OpenFileMappingW_run.
    rewrite (Hnever i) by lia. norm.
    step. rewrite (IH n (S i)).
    + norm. destruct w as [[] ? ? ? ? ?]. norm.
      rewrite <- !app_assoc. reflexivity.
    + lia.
    + intros j Hj. apply Hnever. lia.
    + replace (S i + k)%nat with (i + S k)%nat by lia. exact Hhit.
Qed.

Lemma first_hit_or_never (f : nat -> bool) (i n : nat) :
  (forall j, (i <= j < i + n)%nat -> f j = false) \/
  (exists k, (k < n)%nat /\ (forall j, (i <= j < i + k)%nat -> f j = false)
             /\ f (i + k)%nat = true).
Proof.
  revert i. induction n as [|n IH]; intros i.
  - left. intros j Hj. lia.
  - destruct (f i) eqn:Hi.
    + right. exists O. repeat split; [lia | intros j Hj; lia |].
      replace (i + 0)%nat with i by lia. exact Hi.
    + destruct (IH (S i)) as [Hnever | (k & Hk & Hbefore & Hhit)].
      * left. intros j Hj. destruct (Nat.eq_dec j i) as [->|Hne]; [exact Hi|].
        apply Hnever. lia.
      * right. exists (S k). repeat split; [lia | |].
        -- intros j Hj. destruct (Nat.eq_dec j i) as [->|Hne]; [exact Hi|].
           apply Hbefore. lia.
        -- replace (i + S k)%nat with (S i + k)%nat by lia. exact Hhit.
Qed.

(** The region exists: the client attaches to it. *)
Lemma Initialize_attach width height codec env w :
  ie_region_present env = true ->
  Initialize width height codec env w =
    Initialize_mapped env
      (mkWorld (set_sharedMemory (Z.pos (next_id w)) (configured width height codec (self w)))
         (<[Z.pos (next_id w) := KSection SHARED_MEM_NAME]> (handles w))
         (views w) (Pos.succ (next_id w)) (region w)
         (log w ++ [EvOpenFileMappingW SHARED_MEM_NAME])).
Proof.
  intros Hp. unfold Initialize. do 3 step.
  step_by OpenFileMappingW_run. rewrite Hp. norm.
  step. step. reflexivity.
Qed.

(** No region and no encoder executable. *)
Lemma Initialize_no_encoder width height codec env w :
  ie_region_present env = false ->
  ie_encoder_exists env = false ->
  Initialize width height codec env w =
    Ok false
      (mkWorld (set_sharedMemory nullptr (configured width height codec (self w))) (handles w) (views w) (next_id w) (region w)
         (log w ++ [EvOpenFileMappingW SHARED_MEM_NAME; EvGetModuleFileNameW;
                    EvExists (wstring (encoder_path env))])).
Proof.
  intros Hp He. unfold Initialize. do 3 step.
  step_by OpenFileMappingW_run. rewrite Hp. norm.
  step. step. unfold bind at 1. rewrite LaunchEncoderProcess_run. cbv zeta.
  rewrite He. norm. unfold ret. rewrite <- !app_assoc. reflexivity.
Qed.

(** No region, and the encoder process cannot be started. *)
Lemma Initialize_launch_failed width height codec env w :
  ie_region_present env = false ->
  ie_encoder_exists env = true ->
  ie_process_created env = false ->
  Initialize width height codec env w =
    Ok false
      (mkWorld (set_sharedMemory nullptr (configured width height codec (self w))) (handles w) (views w) (next_id w) (region w)
         (log w ++ [EvOpenFileMappingW SHARED_MEM_NAME; EvGetModuleFileNameW;
                    EvExists (wstring (encoder_path env)); EvCreateProcessW (launch_cmdline env width height codec)])).
Proof.
  intros Hp He Hc. unfold Initialize. do 3 step.
  step_by OpenFileMappingW_run. rewrite Hp. norm.
  step. step. unfold bind at 1. rewrite LaunchEncoderProcess_run. cbv zeta.
  rewrite He, Hc. norm. unfold ret. rewrite <- !app_assoc. reflexivity.
Qed.

(** The encoder was started but the region did not appear in 50 rounds. *)
Lemma Initialize_poll_exhausted width height codec env w :
  ie_region_present env = false ->
  ie_encoder_exists env = true ->
  ie_process_created env = true ->
  (forall j, (j < 50)%nat -> ie_region_appears env j = false) ->
  Initialize width height codec env w =
    Ok false
      (mkWorld (set_encoderProcess (Z.pos (next_id w)) (set_sharedMemory nullptr (configured width height codec (self w))))
         (launched_handles env width height codec w) (views w) (Pos.succ (Pos.succ (next_id w))) (region w)
         (log w ++ launch_events env width height codec w ++ poll_events 50)).
Proof.
  intros Hp He Hc Hnever. unfold Initialize. do 3 step.
  step_by OpenFileMappingW_run. rewrite Hp. norm.
  step. step. unfold bind at 1. rewrite LaunchEncoderProcess_run. cbv zeta.
  rewrite He, Hc. norm.
  erewrite bind_Ok; [| apply poll_shared_memory_never;
                       [reflexivity | intros j Hj; apply Hnever; lia]].
  norm. step. unfold ret. rewrite <- !app_assoc. reflexivity.
Qed.

(** The encoder was started and the region first appeared at round [k]. *)
Lemma Initialize_poll_hit width height codec env w k :
  ie_region_present env = false ->
  ie_encoder_exists env = true ->
  ie_process_created env = true ->
  (k < 50)%nat ->
  (forall j, (j < k)%nat -> ie_region_appears env j = false) ->
  ie_region_appears env k = true ->
  Initialize width height codec env w =
    Initialize_mapped env
      (mkWorld
         (set_sharedMemory (Z.pos (Pos.succ (Pos.succ (next_id w))))
            (set_encoderProcess (Z.pos (next_id w)) (set_sharedMemory nullptr (configured width height codec (self w)))))
         (<[Z.pos (Pos.succ (Pos.succ (next_id w))) := KSection SHARED_MEM_NAME]>
            (launched_handles env width height codec w))
         (views w) (Pos.succ (Pos.succ (Pos.succ (next_id w)))) (region w)
         (log w ++ launch_events env width height codec w ++ poll_events (S k))).
Proof.
  intros Hp He Hc Hk Hbefore Hhit. unfold Initialize. do 3 step.
  step_by OpenFileMappingW_run. rewrite Hp. norm.
  step. step. unfold bind at 1. rewrite LaunchEncoderProcess_run. cbv zeta.
  rewrite He, Hc. norm.
  erewrite bind_Ok;
    [| apply (poll_shared_memory_hit env 50 0 k);
       [exact Hk | intros j Hj; apply Hbefore; lia | exact Hhit]].
  norm. step. rewrite <- !app_assoc. reflexivity.
Qed.

(** ** Exact effect of [SendFrame] and [ReceivePacket] *)

Lemma SendFrame_refused w data data_size width height row_pitch ts idr fmt signal_ok :
  m_connected (self w) = false \/ m_sharedPtr (self w) = nullptr ->
  SendFrame data data_size width height row_pitch ts idr fmt signal_ok w = Ok false w.
Proof.
  intros H. unfold SendFrame. unfold bind at 1, this at 1.
  destruct H as [H|H]; rewrite H.
  - reflexivity.
  - rewrite Z.eqb_refl, orb_true_r. reflexivity.
Qed.

Lemma SendFrame_oversize w data data_size width height row_pitch ts idr fmt signal_ok :
  FRAME_BUFFER_SIZE < data_size ->
  SendFrame data data_size width height row_pitch ts idr fmt signal_ok w = Ok false w.
Proof.
  intros H. unfold SendFrame. unfold bind at 1, this at 1.
  destruct (negb (m_connected (self w)) || (m_sharedPtr (self w) =? nullptr));
    [reflexivity|].
  destruct (Z.ltb_spec FRAME_BUFFER_SIZE data_size); [reflexivity | lia].
Qed.

Lemma SendFrame_run w data data_size width height row_pitch ts idr fmt signal_ok :
  m_connected (self w) = true ->
  m_sharedPtr (self w) <> nullptr ->
  is_Some (views w !! m_sharedPtr (self w)) ->
  data_size <= FRAME_BUFFER_SIZE ->
  SendFrame data data_size width height row_pitch ts idr fmt signal_ok w =
    Ok (if is_event (handles w !! m_frameReadyEvent (self w)) then signal_ok else false)
       (mkWorld (self w) (handles w) (views w) (next_id w)
          (mkShared
             (sent_header (frame_header (region w)) data_size width height row_pitch ts idr fmt)
             (packet_header (region w))
             (memcpy (frame_buffer (region w)) data data_size)
             (packet_buffer (region w)))
          (log w ++ SendFrame_events (m_frameReadyEvent (self w))
                      data_size width height row_pitch ts idr fmt)).
Proof.
  intros Hc Hnz Hv Hsz.
  unfold SendFrame.
  unfold bind at 1, this at 1.
  rewrite Hc.
  destruct (Z.eqb_spec (m_sharedPtr (self w)) nullptr) as [E|_]; [contradiction|].
  cbn [negb orb].
  destruct (Z.ltb_spec FRAME_BUFFER_SIZE data_size) as [E|_]; [lia|].
  do 8 (step_by store_frame_header_Ok; [| assumption ..]).
  step_by copy_to_frame_buffer_Ok; [| assumption ..].
  step.
  step_by SetEvent_Ok.
  repeat rewrite <- app_assoc.
  unfold sent_header, SendFrame_events.
  cbv [app set_frame_field fh_width fh_height fh_timestamp_ns fh_insert_idr
       fh_pixel_format fh_row_pitch fh_data_size fh_shutdown fh_padding].
  destruct (is_event (handles w !! m_frameReadyEvent (self w)));
    destruct signal_ok, idr, fmt; reflexivity.
Qed.

Lemma ReceivePacket_refused w out t res :
  m_connected (self w) = false \/ m_sharedPtr (self w) = nullptr ->
  ReceivePacket out t res w = Ok (false, out) w.
Proof.
  intros H. unfold ReceivePacket. unfold bind at 1, this at 1.
  destruct H as [H|H]; rewrite H.
  - reflexivity.
  - rewrite Z.eqb_refl, orb_true_r. reflexivity.
Qed.

Lemma ReceivePacket_run w out t res :
  m_connected (self w) = true ->
  m_sharedPtr (self w) <> nullptr ->
  is_Some (views w !! m_sharedPtr (self w)) ->
  let h := m_packetReadyEvent (self w) in
  let result := wait_value (handles w !! h) res in
  let size := ph_size (packet_header (region w)) in
  ReceivePacket out t res w =
    if negb (result =? WAIT_OBJECT_0) then
      Ok (false, out) (log_event [EvWaitForSingleObject h t] w)
    else if PACKET_BUFFER_SIZE <? size then
      Ok (false, out)
         (log_event [EvWaitForSingleObject h t; EvLoadPacketHeader PH_size] w)
    else
      Ok (true, received_packet (region w))
         (log_event [EvWaitForSingleObject h t; EvLoadPacketHeader PH_size;
                     EvCopyFromPacketBuffer size;
                     EvLoadPacketHeader PH_timestamp_ns;
                     EvLoadPacketHeader PH_is_idr] w).
Proof.
  intros Hc Hnz Hv. cbv zeta. unfold ReceivePacket, log_event, received_packet.
  unfold bind at 1, this at 1.
  rewrite Hc.
  destruct (Z.eqb_spec (m_sharedPtr (self w)) nullptr) as [E|_]; [contradiction|].
  cbn [negb orb].
  step_by WaitForSingleObject_run. fold (wait_value (handles w !! m_packetReadyEvent (self w)) res).
  destruct (wait_value (handles w !! m_packetReadyEvent (self w)) res =? WAIT_OBJECT_0);
    cbn [negb]; [| reflexivity].
  step_by load_packet_header_Ok; [| assumption ..].
  cbn [get_packet_field].
  destruct (PACKET_BUFFER_SIZE <? ph_size (packet_header (region w)));
    [unfold ret; rewrite <- !app_assoc; reflexivity |].
  step_by copy_from_packet_buffer_Ok; [| assumption ..].
  step_by load_packet_header_Ok; [| assumption ..].
  step_by load_packet_header_Ok; [| assumption ..].
  unfold ret. rewrite <- !app_assoc. reflexivity.
Qed.

(** ** What every [Initialize] call guarantees *)

Lemma init_post_transfer e e1 w w1 b w' :
  (pointer_valid w -> pointer_valid w1) ->
  m_connected (self w1) = m_connected (self w) ->
  region w1 = region w ->
  (exists evs, log w1 = log w ++ e :: evs) ->
  init_post e1 w1 b w' -> init_post e w b w'.
Proof.
  intros Hp1 Hc Hr [evs Hl] (Hp & Ht & Hf & Hreg & [rest Hlog]).
  unfold init_post. rewrite <- Hc, <- Hr.
  split; [auto|]. split; [exact Ht|]. split; [exact Hf|]. split; [exact Hreg|].
  exists (evs ++ e1 :: rest). rewrite Hlog, Hl, <- app_assoc. reflexivity.
Qed.

Lemma Initialize_post width height codec env w :
  post (Initialize width height codec env w)
       (init_post (EvOpenFileMappingW SHARED_MEM_NAME) w).
Proof.
  assert (Hfail : forall c hs' n' evs,
             m_sharedPtr c = m_sharedPtr (self w) ->
             m_connected c = m_connected (self w) ->
             init_post (EvOpenFileMappingW SHARED_MEM_NAME) w false
               (mkWorld c hs' (views w) n' (region w)
                  (log w ++ EvOpenFileMappingW SHARED_MEM_NAME :: evs))).
  { intros c hs' n' evs Hptr Hconn. unfold init_post. norm.
    split; [| split; [| split; [| split]]].
    - unfold pointer_valid. norm. rewrite Hptr. auto.
    - discriminate.
    - intros _ H. rewrite Hconn. exact H.
    - reflexivity.
    - exists evs. reflexivity. }
  destruct (ie_region_present env) eqn:Hpresent.
  - rewrite Initialize_attach by assumption.
    eapply post_weaken; [apply Initialize_mapped_post; norm; discriminate |].
    intros b w'. apply init_post_transfer; norm; eauto.
  - destruct (ie_encoder_exists env) eqn:Hexists.
    2:{ rewrite Initialize_no_encoder by assumption. apply Hfail; reflexivity. }
    destruct (ie_process_created env) eqn:Hcreated.
    2:{ rewrite Initialize_launch_failed by assumption. apply Hfail; reflexivity. }
    destruct (first_hit_or_never (ie_region_appears env) 0 50)
      as [Hnever | (k & Hk & Hbefore & Hhit)].
    + rewrite Initialize_poll_exhausted by (try assumption; intros; apply Hnever; lia).
      apply Hfail; reflexivity.
    + rewrite (Initialize_poll_hit _ _ _ _ _ k)
        by (try assumption; intros; apply Hbefore; lia).
      eapply post_weaken; [apply Initialize_mapped_post; norm; discriminate |].
      intros b w'. apply init_post_transfer; norm; eauto.
Qed.

(** A successful [Initialize] leaves the client in the Connected state. *)
Lemma Initialize_success_Connected width height codec env w w' :
  Initialize width height codec env w = Ok true w' -> Connected w'.
Proof.
  intros Hrun. pose proof (Initialize_post width height codec env w) as Hpost.
  rewrite Hrun in Hpost. destruct Hpost as (_ & Htrue & _).
  apply Htrue. reflexivity.
Qed.

(** ** Invariants of runs *)

Lemma Shutdown_post w :
  pointer_valid w ->
  post (Shutdown w)
    (fun _ w' => pointer_valid w' /\ m_connected (self w') = false /\
                 (m_connected (self w) = false -> region w' = region w)).
Proof.
  intros Hp. rewrite (Shutdown_run w Hp). cbn [post]. unfold pointer_valid. norm.
  repeat split.
  - intros H. exfalso. apply H. reflexivity.
  - intros Hc. unfold Shutdown_region, announces_shutdown. rewrite Hc.
    rewrite andb_false_r. reflexivity.
Qed.

Lemma SendFrame_post w data data_size width height row_pitch ts idr fmt signal_ok :
  pointer_valid w ->
  post (SendFrame data data_size width height row_pitch ts idr fmt signal_ok w)
    (fun _ w' => self w' = self w /\ handles w' = handles w /\ views w' = views w /\
                 (m_connected (self w) = false -> region w' = region w)).
Proof.
  intros Hp.
  destruct (m_connected (self w)) eqn:Hc.
  2:{ rewrite SendFrame_refused by auto. cbn [post]. auto. }
  destruct (Z.eq_dec (m_sharedPtr (self w)) nullptr) as [Hnull|Hnz].
  { rewrite SendFrame_refused by auto. cbn [post]. auto. }
  destruct (Z_lt_le_dec FRAME_BUFFER_SIZE data_size) as [Hbig|Hfit].
  { rewrite SendFrame_oversize by assumption. cbn [post]. auto. }
  rewrite SendFrame_run by auto. cbn [post]. norm.
  repeat split. discriminate.
Qed.

Lemma ReceivePacket_post w out t res :
  pointer_valid w ->
  post (ReceivePacket out t res w)
    (fun _ w' => self w' = self w /\ handles w' = handles w /\ views w' = views w /\
                 region w' = region w).
Proof.
  intros Hp.
  destruct (m_connected (self w)) eqn:Hc.
  2:{ rewrite ReceivePacket_refused by auto. cbn [post]. auto. }
  destruct (Z.eq_dec (m_sharedPtr (self w)) nullptr) as [Hnull|Hnz].
  { rewrite ReceivePacket_refused by auto. cbn [post]. auto. }
  rewrite ReceivePacket_run by auto. cbv zeta.
  destruct (negb _); [cbn [post]; auto|].
  destruct (_ <? _); cbn [post]; auto.
Qed.

Lemma pointer_valid_same w w' :
  self w' = self w -> views w' = views w -> pointer_valid w -> pointer_valid w'.
Proof. unfold pointer_valid. intros -> ->. auto. Qed.

(** No operation faults, whatever state a run has reached, and the region
    pointer stays valid. *)
Lemma run_op_post o w :
  pointer_valid w -> post (run_op o w) (fun _ w' => pointer_valid w').
Proof.
  intros Hp. destruct o; cbn [run_op].
  - apply post_bind. eapply post_weaken; [apply Initialize_post|].
    intros b w' (Hp' & _). exact (Hp' Hp).
  - apply post_bind. eapply post_weaken; [apply SendFrame_post; exact Hp|].
    intros b w' (Hs & _ & Hv & _). cbn [post ret]. eapply pointer_valid_same; eauto.
  - apply post_bind. eapply post_weaken; [apply ReceivePacket_post; exact Hp|].
    intros b w' (Hs & _ & Hv & _). cbn [post ret]. eapply pointer_valid_same; eauto.
  - eapply post_weaken; [apply Shutdown_post; exact Hp|].
    intros _ w' (Hp' & _). exact Hp'.
Qed.

Lemma run_post ops w :
  pointer_valid w -> post (run ops w) (fun _ w' => pointer_valid w').
Proof.
  revert w. induction ops as [|o ops IH]; intros w Hp; cbn [run].
  - exact Hp.
  - apply post_bind. eapply post_weaken; [apply run_op_post; exact Hp|].
    intros [] w1 Hp1. apply IH. exact Hp1.
Qed.

Lemma reachable_pointer_valid w : reachable w -> pointer_valid w.
Proof.
  induction 1 as [hs vs n r l | w o w' _ IH Hrun].
  - unfold pointer_valid. cbn. intros H. exfalso. apply H. reflexivity.
  - pose proof (run_op_post o w IH) as Hpost. rewrite Hrun in Hpost. exact Hpost.
Qed.

Lemma reachable_progress w o : reachable w -> exists w', run_op o w = Ok tt w'.
Proof.
  intros Hr. pose proof (run_op_post o w (reachable_pointer_valid w Hr)) as Hpost.
  destruct (run_op o w) as [[] w'|]; [eauto | contradiction].
Qed.

(** ** Concrete states used to exercise the statements *)

Lemma connected_world_Connected : Connected connected_world.
Proof.
  constructor; try (vm_compute; congruence).
  eexists. vm_compute. reflexivity.
Qed.

Lemma connected_world_run :
  run_op (OpInitialize 1920 1080 "h264" env_attach) (fresh_world zero_region)
    = Ok tt connected_world.
Proof.
  assert (Hp : pointer_valid (fresh_world zero_region)).
  { unfold pointer_valid. cbn. intros H. exfalso. apply H. reflexivity. }
  pose proof (Initialize_post 1920 1080 "h264" env_attach (fresh_world zero_region)) as Hpost.
  unfold connected_world, run_op, bind.
  destruct (Initialize 1920 1080 "h264" env_attach (fresh_world zero_region));
    [reflexivity | contradiction].
Qed.

Lemma connected_world_reachable : reachable connected_world.
Proof.
  eapply reach_op; [apply (reach_new ∅ ∅ 1%positive zero_region []) |].
  exact connected_world_run.
Qed.

Lemma connected_world_announces : announces_shutdown (self connected_world) = true.
Proof. vm_compute. reflexivity. Qed.

Lemma Connected_log_event e w : Connected w -> Connected (log_event e w).
Proof. intros [? ? ? ? ? ?]. constructor; assumption. Qed.

Lemma Connected_with_region f w : Connected w -> Connected (with_region f w).
Proof. intros [? ? ? ? ? ?]. constructor; assumption. Qed.

Lemma bytes_of_length src n : length (bytes_of src n) = Z.to_nat n.
Proof. unfold bytes_of. rewrite length_map, length_seq. reflexivity. Qed.

Lemma bytes_of_lookup src n (i : nat) :
  (i < Z.to_nat n)%nat -> bytes_of src n !! i = Some (src (Z.of_nat i)).
Proof.
  intros Hi. unfold bytes_of. rewrite list_lookup_fmap.
  rewrite lookup_seq_lt by exact Hi. reflexivity.
Qed.

Lemma bytes_of_ext src src' n :
  (forall i, 0 <= i < n -> src i = src' i) -> bytes_of src n = bytes_of src' n.
Proof.
  intros H. unfold bytes_of. apply map_ext_in. intros i Hi.
  apply in_seq in Hi. apply H. lia.
Qed.

(** * The frame channel *)

(** C1. In the Connected state a [SendFrame] whose [data_size] fits the frame
    buffer stores the eight header members (the two flags and the pixel
    format as single bytes, [shutdown] as 0), copies exactly [data_size]
    bytes of the input into the frame buffer, and only then raises the
    frame-ready event; it returns what raising the event returned, so a
    failed raise reports failure with the header and the payload already
    written. *)
Theorem SendFrame_writes_then_signals
    w data data_size width height row_pitch ts idr fmt signal_ok :
  Connected w ->
  is_uint32 data_size -> is_uint32 width -> is_uint32 height ->
  is_uint32 row_pitch -> is_uint64 ts ->
  data_size <= FRAME_BUFFER_SIZE ->
  exists w',
    SendFrame data data_size width height row_pitch ts idr fmt signal_ok w
      = Ok signal_ok w' /\
    frame_header (region w') =
      mkFrameHeader width height ts (if idr then 1 else 0) (PixelFormat_to_uint8 fmt)
        row_pitch data_size 0 (fh_padding (frame_header (region w))) /\
    (forall i, 0 <= i < data_size -> frame_buffer (region w') i = data i) /\
    (forall i, ~ (0 <= i < data_size) ->
               frame_buffer (region w') i = frame_buffer (region w) i) /\
    packet_header (region w') = packet_header (region w) /\
    packet_buffer (region w') = packet_buffer (region w) /\
    log w' = log w ++
      [EvStoreFrameHeader FH_width width;
       EvStoreFrameHeader FH_height height;
       EvStoreFrameHeader FH_timestamp_ns ts;
       EvStoreFrameHeader FH_insert_idr (if idr then 1 else 0);
       EvStoreFrameHeader FH_pixel_format (PixelFormat_to_uint8 fmt);
       EvStoreFrameHeader FH_row_pitch row_pitch;
       EvStoreFrameHeader FH_data_size data_size;
       EvStoreFrameHeader FH_shutdown 0;
       EvCopyToFrameBuffer data_size;
       EvSetEvent (m_frameReadyEvent (self w))] /\
    Connected w'.
Proof.
  intros HC Hds Hw Hh Hrp Hts Hfit.
  pose proof HC as [Hc Hnz Hv Hf Hp He].
  eexists. split.
  { rewrite SendFrame_run by assumption. rewrite Hf. reflexivity. }
  norm. unfold sent_header.
  rewrite !to_uint32_id, to_uint64_id by assumption.
  repeat split; try assumption.
  - intros i Hi. unfold memcpy.
    destruct (Z.leb_spec 0 i); [| lia]. destruct (Z.ltb_spec i data_size); [| lia].
    reflexivity.
  - intros i Hi. unfold memcpy.
    destruct (Z.leb_spec 0 i); [| reflexivity].
    destruct (Z.ltb_spec i data_size); [lia | reflexivity].
Qed.

Lemma SendFrame_writes_then_signals_witness :
  exists w',
    SendFrame (fun _ => x2a) 8 2 1 8 1000 true RGBA false connected_world = Ok false w' /\
    fh_data_size (frame_header (region w')) = 8 /\
    fh_shutdown (frame_header (region w')) = 0 /\
    frame_buffer (region w') 7 = x2a.
Proof.
  destruct (SendFrame_writes_then_signals connected_world (fun _ => x2a)
              8 2 1 8 1000 true RGBA false)
    as (w' & Hrun & Hhdr & Hcopy & _);
    [ exact connected_world_Connected
    | unfold is_uint32; lia | unfold is_uint32; lia | unfold is_uint32; lia
    | unfold is_uint32; lia | unfold is_uint64; lia
    | vm_compute; discriminate | ].
  exists w'. rewrite Hhdr. repeat split; [exact Hrun |].
  apply Hcopy. lia.
Defined.

(** C2. A [SendFrame] whose [data_size] exceeds [FRAME_BUFFER_SIZE]
    (4096 * 2160 * 4 bytes) fails and leaves everything, in particular the
    whole shared region, exactly as it was; a [data_size] equal to the
    capacity is accepted. *)
Theorem SendFrame_oversize_rejected
    w data data_size width height row_pitch ts idr fmt signal_ok :
  FRAME_BUFFER_SIZE = 35389440 /\
  (FRAME_BUFFER_SIZE < data_size ->
   SendFrame data data_size width height row_pitch ts idr fmt signal_ok w = Ok false w) /\
  (Connected w -> data_size = FRAME_BUFFER_SIZE ->
   exists w',
     SendFrame data data_size width height row_pitch ts idr fmt signal_ok w
       = Ok signal_ok w' /\
     fh_data_size (frame_header (region w')) = FRAME_BUFFER_SIZE /\
     forall i, 0 <= i < FRAME_BUFFER_SIZE -> frame_buffer (region w') i = data i).
Proof.
  split; [reflexivity|]. split.
  - apply SendFrame_oversize.
  - intros HC ->. pose proof HC as [Hc Hnz Hv Hf Hp He].
    eexists. split; [| split].
    + rewrite SendFrame_run by (try assumption; lia). rewrite Hf. reflexivity.
    + reflexivity.
    + intros i Hi. norm. unfold memcpy.
      destruct (Z.leb_spec 0 i); [| lia].
      destruct (Z.ltb_spec i FRAME_BUFFER_SIZE); [reflexivity | lia].
Qed.

Lemma SendFrame_oversize_rejected_witness :
  SendFrame (fun _ => x2a) (FRAME_BUFFER_SIZE + 1) 4096 2160 16384 1000 true RGBA true
    connected_world = Ok false connected_world /\
  exists w',
    SendFrame (fun _ => x2a) FRAME_BUFFER_SIZE 4096 2160 16384 1000 true RGBA true
      connected_world = Ok true w' /\
    fh_data_size (frame_header (region w')) = FRAME_BUFFER_SIZE.
Proof.
  split.
  - apply (proj1 (proj2 (SendFrame_oversize_rejected connected_world (fun _ => x2a)
                           (FRAME_BUFFER_SIZE + 1) 4096 2160 16384 1000 true RGBA true))).
    lia.
  - destruct (proj2 (proj2 (SendFrame_oversize_rejected connected_world (fun _ => x2a)
                              FRAME_BUFFER_SIZE 4096 2160 16384 1000 true RGBA true))
                connected_world_Connected eq_refl) as (w' & Hrun & Hsz & _).
    exists w'. split; assumption.
Defined.

(** * The packet channel *)

(** C3. In the Connected state [ReceivePacket] waits on the packet-ready
    event.  If the wait does not return [WAIT_OBJECT_0] it fails without
    touching the shared region and the client stays connected.  If the event
    fired and the header's [size] exceeds [PACKET_BUFFER_SIZE] (4 MiB) it
    fails after reading [size] only, copying nothing.  Otherwise it returns
    exactly [size] bytes of the packet buffer together with the header's
    [timestamp_ns] and [is_idr]. *)
Theorem ReceivePacket_cases w out timeout_ms wait_result :
  Connected w ->
  let h := m_packetReadyEvent (self w) in
  let size := ph_size (packet_header (region w)) in
  PACKET_BUFFER_SIZE = 4194304 /\
  (wait_result <> WAIT_OBJECT_0 ->
   ReceivePacket out timeout_ms wait_result w =
     Ok (false, out) (log_event [EvWaitForSingleObject h timeout_ms] w)) /\
  (wait_result = WAIT_OBJECT_0 -> PACKET_BUFFER_SIZE < size ->
   ReceivePacket out timeout_ms wait_result w =
     Ok (false, out)
        (log_event [EvWaitForSingleObject h timeout_ms; EvLoadPacketHeader PH_size] w)) /\
  (wait_result = WAIT_OBJECT_0 -> size <= PACKET_BUFFER_SIZE ->
   exists out',
     ReceivePacket out timeout_ms wait_result w =
       Ok (true, out')
          (log_event [EvWaitForSingleObject h timeout_ms; EvLoadPacketHeader PH_size;
                      EvCopyFromPacketBuffer size;
                      EvLoadPacketHeader PH_timestamp_ns;
                      EvLoadPacketHeader PH_is_idr] w) /\
     length (packet_data out') = Z.to_nat size /\
     (forall i : nat, (i < Z.to_nat size)%nat ->
        packet_data out' !! i = Some (packet_buffer (region w) (Z.of_nat i))) /\
     timestamp_ns out' = ph_timestamp_ns (packet_header (region w)) /\
     is_idr out' = negb (ph_is_idr (packet_header (region w)) =? 0)) /\
  (forall e, Connected (log_event e w)).
Proof.
  intros HC h size. pose proof HC as [Hc Hnz Hv Hf Hp He].
  assert (Hwait : wait_value (handles w !! h) wait_result = wait_result).
  { unfold h. unfold is_event in Hp.
    destruct (handles w !! m_packetReadyEvent (self w)) as [[]|]; try discriminate.
    reflexivity. }
  split; [reflexivity|].
  split; [| split; [| split]].
  - intros Hne. rewrite ReceivePacket_run by assumption. cbv zeta.
    fold h. rewrite Hwait.
    destruct (Z.eqb_spec wait_result WAIT_OBJECT_0); [contradiction | reflexivity].
  - intros -> Hbig. rewrite ReceivePacket_run by assumption. cbv zeta.
    fold h. rewrite Hwait. cbn [negb Z.eqb WAIT_OBJECT_0]. fold size.
    destruct (Z.ltb_spec PACKET_BUFFER_SIZE size); [reflexivity | lia].
  - intros -> Hfit. exists (received_packet (region w)).
    split; [| split; [| split; [| split]]].
    + rewrite ReceivePacket_run by assumption. cbv zeta.
      fold h. rewrite Hwait. cbn [negb Z.eqb WAIT_OBJECT_0]. fold size.
      destruct (Z.ltb_spec PACKET_BUFFER_SIZE size); [lia | reflexivity].
    + apply bytes_of_length.
    + intros i Hi. apply bytes_of_lookup. exact Hi.
    + reflexivity.
    + reflexivity.
  - intros e. apply Connected_log_event. exact HC.
Qed.

Lemma ReceivePacket_cases_witness :
  ReceivePacket (mkPacketOut [] 0 false) 1000 WAIT_TIMEOUT connected_world =
    Ok (false, mkPacketOut [] 0 false)
       (log_event [EvWaitForSingleObject (m_packetReadyEvent (self connected_world)) 1000]
          connected_world) /\
  exists out' w',
    ReceivePacket (mkPacketOut [] 0 false) 1000 WAIT_OBJECT_0
      (with_region (fun _ => packet_region) connected_world) = Ok (true, out') w' /\
    length (packet_data out') = 3%nat /\
    packet_data out' !! 1%nat = Some x0b /\
    timestamp_ns out' = 1000 /\
    is_idr out' = true.
Proof.
  split.
  - destruct (ReceivePacket_cases connected_world (mkPacketOut [] 0 false) 1000
                WAIT_TIMEOUT connected_world_Connected) as (_ & Htimeout & _).
    apply Htimeout. vm_compute. discriminate.
  - assert (HC : Connected (with_region (fun _ => packet_region) connected_world))
      by (apply Connected_with_region; exact connected_world_Connected).
    destruct (ReceivePacket_cases _ (mkPacketOut [] 0 false) 1000 WAIT_OBJECT_0 HC)
      as (_ & _ & _ & Hok & _).
    destruct (Hok eq_refl) as (out' & Hrun & Hlen & Hbytes & Hts & Hidr);
      [vm_compute; discriminate |].
    exists out'. eexists. split; [exact Hrun |].
    split; [exact Hlen |]. split; [apply (Hbytes 1%nat); vm_compute; lia |].
    split; [exact Hts | exact Hidr].
Defined.

(** Whatever the region holds, a successful [ReceivePacket] returns at most
    [PACKET_BUFFER_SIZE] bytes. *)
Lemma ReceivePacket_at_most_capacity w out t res out' w' :
  ReceivePacket out t res w = Ok (true, out') w' ->
  (length (packet_data out') <= Z.to_nat PACKET_BUFFER_SIZE)%nat.
Proof.
  intros Hrun.
  destruct (m_connected (self w)) eqn:Hc.
  2:{ rewrite ReceivePacket_refused in Hrun by auto. discriminate. }
  destruct (Z.eq_dec (m_sharedPtr (self w)) nullptr) as [Hnull|Hnz].
  { rewrite ReceivePacket_refused in Hrun by auto. discriminate. }
  destruct (views w !! m_sharedPtr (self w)) eqn:Hv.
  - rewrite ReceivePacket_run in Hrun by eauto. cbv zeta in Hrun.
    destruct (negb _); [discriminate|].
    destruct (Z.ltb_spec PACKET_BUFFER_SIZE (ph_size (packet_header (region w))));
      [discriminate|].
    injection Hrun as <- _. unfold received_packet. cbn [packet_data].
    rewrite bytes_of_length. lia.
  - exfalso. revert Hrun.
    unfold ReceivePacket. unfold bind at 1, this at 1. rewrite Hc.
    destruct (Z.eqb_spec (m_sharedPtr (self w)) nullptr) as [E|_]; [contradiction|].
    cbn [negb orb].
    step_by WaitForSingleObject_run.
    destruct (negb _); [discriminate|].
    unfold bind at 1, load_packet_header at 1. unfold bind at 1, deref at 1. norm.
    destruct (Z.eqb_spec (m_sharedPtr (self w)) nullptr) as [E|_]; [contradiction|].
    rewrite Hv. discriminate.
Qed.

(** * Round trip through an echoing collaborator *)

Lemma echo_frame_echoes : echoes echo_frame.
Proof.
  intros r. cbv zeta. unfold echo_frame. norm.
  cbn [ph_size ph_timestamp_ns ph_is_idr].
  repeat split. intros i Hi. unfold memcpy.
  destruct (Z.leb_spec 0 i); [| lia].
  destruct (Z.ltb_spec i (Z.min (fh_data_size (frame_header r)) PACKET_BUFFER_SIZE));
    [reflexivity | lia].
Qed.

(** No collaborator at all can return more than the packet buffer holds. *)
Lemma round_trip_at_most_packet_capacity
    collaborator data data_size width height row_pitch ts idr fmt out timeout_ms w out' w' :
  round_trip collaborator data data_size width height row_pitch ts idr fmt out timeout_ms w
    = Ok (true, out') w' ->
  (length (packet_data out') <= Z.to_nat PACKET_BUFFER_SIZE)%nat.
Proof.
  unfold round_trip. unfold bind at 1.
  destruct (SendFrame _ _ _ _ _ _ _ _ _ w) as [[] w1|]; [| discriminate | discriminate].
  unfold bind at 1. apply ReceivePacket_at_most_capacity.
Qed.

(** C4, as stated, fails: a full 4096 x 2160 RGBA frame fills the frame
    buffer exactly, is accepted by [SendFrame], and cannot come back, because
    the packet slot holds at most [PACKET_BUFFER_SIZE] bytes and
    [ReceivePacket] rejects the larger size. *)
Lemma round_trip_fails_at_frame_capacity :
  FRAME_BUFFER_SIZE = 4096 * 2160 * 4 /\
  post (round_trip echo_frame (fun _ => x2a) FRAME_BUFFER_SIZE 4096 2160 (4096 * 4)
          1000 true RGBA (mkPacketOut [] 0 false) 1000 connected_world)
       (fun result _ => result = (false, mkPacketOut [] 0 false)).
Proof.
  split; [reflexivity|].
  vm_compute. reflexivity.
Qed.

(** C4, amended.  For every payload of at most [PACKET_BUFFER_SIZE] bytes
    (4 MiB, which is below the frame buffer's capacity), a successful
    [SendFrame] followed by the collaborator's echo makes [ReceivePacket]
    return the same bytes, the same size, the same timestamp and the same
    IDR flag; this covers the sizes 0, 1, [PACKET_BUFFER_SIZE - 1] and
    [PACKET_BUFFER_SIZE]. *)
Theorem round_trip_within_packet_capacity
    collaborator w data data_size width height row_pitch ts idr fmt out timeout_ms :
  echoes collaborator ->
  Connected w ->
  is_uint32 width -> is_uint32 height -> is_uint32 row_pitch -> is_uint64 ts ->
  0 <= data_size <= PACKET_BUFFER_SIZE ->
  PACKET_BUFFER_SIZE < FRAME_BUFFER_SIZE /\
  exists w',
    round_trip collaborator data data_size width height row_pitch ts idr fmt out timeout_ms w
      = Ok (true, mkPacketOut (bytes_of data data_size) ts idr) w' /\
    length (bytes_of data data_size) = Z.to_nat data_size.
Proof.
  intros Hecho HC Hw Hh Hrp Hts Hsz.
  assert (Hcap : PACKET_BUFFER_SIZE < FRAME_BUFFER_SIZE) by reflexivity.
  split; [exact Hcap|].
  pose proof HC as [Hc Hnz Hv Hf Hp He].
  assert (Hds : to_uint32 data_size = data_size).
  { apply to_uint32_id. unfold is_uint32.
    assert (PACKET_BUFFER_SIZE < 2 ^ 32) by reflexivity. lia. }
  eexists. split; [| apply bytes_of_length].
  unfold round_trip.
  erewrite bind_Ok; [| apply SendFrame_run; try assumption; lia].
  rewrite Hf.
  erewrite bind_Ok; [| reflexivity].
  rewrite ReceivePacket_run by assumption. cbv zeta.
  norm. unfold is_event in Hp. unfold wait_value.
  destruct (handles w !! m_packetReadyEvent (self w)) as [[]|]; try discriminate.
  cbn [negb Z.eqb WAIT_OBJECT_0].
  unfold sent_header. rewrite Hds, (to_uint64_id ts Hts).
  match goal with |- context [collaborator ?r] =>
    destruct (Hecho r) as (Hsize & Htime & Hidr & Hbytes)
  end.
  cbn [frame_header frame_buffer fh_data_size fh_timestamp_ns fh_insert_idr]
    in Hsize, Htime, Hidr, Hbytes.
  unfold received_packet. rewrite Hsize, Htime, Hidr.
  destruct (Z.ltb_spec PACKET_BUFFER_SIZE data_size); [lia|].
  f_equal. f_equal. f_equal; [| destruct idr; reflexivity].
  apply bytes_of_ext. intros i Hi. rewrite Hbytes by lia. unfold memcpy.
  destruct (Z.leb_spec 0 i); [| lia]. destruct (Z.ltb_spec i data_size); [| lia].
  reflexivity.
Qed.

Lemma round_trip_within_packet_capacity_witness :
  exists w',
    round_trip echo_frame (fun i => if i =? 0 then x0a else x0b) 2 2 1 8 1000 true RGBA
      (mkPacketOut [] 0 false) 1000 connected_world
    = Ok (true, mkPacketOut [x0a; x0b] 1000 true) w'.
Proof.
  destruct (round_trip_within_packet_capacity echo_frame connected_world
              (fun i => if i =? 0 then x0a else x0b) 2 2 1 8 1000 true RGBA
              (mkPacketOut [] 0 false) 1000 echo_frame_echoes connected_world_Connected)
    as (_ & w' & Hrun & _);
    [ unfold is_uint32; lia | unfold is_uint32; lia | unfold is_uint32; lia
    | unfold is_uint64; lia | vm_compute; split; discriminate | ].
  exists w'. exact Hrun.
Defined.

(** * Shutdown *)

Lemma drop_lookup_Some {X} k (m : gmap Z X) j x :
  drop k m !! j = Some x -> m !! j = Some x.
Proof.
  unfold drop. destruct (k =? nullptr); [auto|].
  intros H. apply lookup_delete_Some in H. tauto.
Qed.

Lemma drop_lookup_None {X} k (m : gmap Z X) j :
  m !! j = None -> drop k m !! j = None.
Proof.
  unfold drop. destruct (k =? nullptr); [auto|].
  intros H. apply lookup_delete_None. auto.
Qed.

Lemma drop_lookup_here {X} k (m : gmap Z X) :
  k <> nullptr -> drop k m !! k = None.
Proof.
  intros Hk. unfold drop.
  destruct (Z.eqb_spec k nullptr); [contradiction|]. apply lookup_delete_eq.
Qed.

Lemma Shutdown_handles_closed c hs h :
  In h (held_handles c) -> h <> nullptr -> Shutdown_handles c hs !! h = None.
Proof.
  unfold held_handles, Shutdown_handles. cbn [In].
  intros [<- | [<- | [<- | [<- | [<- | []]]]]] Hnz;
    repeat first [ apply drop_lookup_here; exact Hnz | apply drop_lookup_None ].
Qed.

Lemma Shutdown_handles_Some c hs h o :
  Shutdown_handles c hs !! h = Some o -> hs !! h = Some o.
Proof.
  unfold Shutdown_handles. intros H.
  do 5 apply drop_lookup_Some in H. exact H.
Qed.

Lemma Shutdown_events_waits c e :
  In e (Shutdown_events c) -> is_wait e = true ->
  e = EvWaitForSingleObject (m_encoderProcess c) 3000 /\ m_encoderProcess c <> nullptr.
Proof.
  unfold Shutdown_events, unless_null. intros Hin Hw.
  repeat (apply in_app_or in Hin; destruct Hin as [Hin | Hin]);
    try (destruct (announces_shutdown c)); cbn [In] in Hin;
    repeat match goal with
           | H : context [if ?b =? nullptr then _ else _] |- _ =>
               destruct (Z.eqb_spec b nullptr); cbn [In] in H
           | H : _ \/ _ |- _ => destruct H
           | H : False |- _ => destruct H
           | H : _ = e |- _ => subst e; cbn in Hw; try discriminate
           end; auto.
Qed.

Lemma Shutdown_events_quiet c e :
  announces_shutdown c = false -> In e (Shutdown_events c) -> is_announcement e = false.
Proof.
  unfold Shutdown_events, unless_null. intros -> Hin. cbn [app] in Hin.
  repeat (apply in_app_or in Hin; destruct Hin as [Hin | Hin]);
    repeat match goal with
           | H : context [if ?b =? nullptr then _ else _] |- _ =>
               destruct (Z.eqb_spec b nullptr); cbn [In] in H
           | H : _ \/ _ |- _ => destruct H
           | H : False |- _ => destruct H
           | H : _ = e |- _ => subst e
           end; reflexivity.
Qed.

Lemma Shutdown_twice w :
  pointer_valid w ->
  forall w', Shutdown w = Ok tt w' -> Shutdown w' = Ok tt w'.
Proof.
  intros Hp w' Hrun. rewrite (Shutdown_run w Hp) in Hrun.
  injection Hrun as <-.
  rewrite Shutdown_run.
  - norm. unfold Shutdown_handles, Shutdown_region, Shutdown_events, announces_shutdown,
      drop, unless_null, cleared. norm. cbn [app]. rewrite app_nil_r. reflexivity.
  - unfold pointer_valid. norm. intros H. exfalso. apply H. reflexivity.
Qed.

Lemma announces_shutdown_true c :
  m_sharedPtr c <> nullptr -> m_connected c = true -> announces_shutdown c = true.
Proof.
  intros Hptr Hc. unfold announces_shutdown. rewrite Hc.
  destruct (Z.eqb_spec (m_sharedPtr c) nullptr); [contradiction | reflexivity].
Qed.

Lemma announces_shutdown_false c :
  m_sharedPtr c = nullptr \/ m_connected c = false -> announces_shutdown c = false.
Proof.
  unfold announces_shutdown. intros [-> | ->]; [reflexivity|].
  apply andb_false_r.
Qed.

(** C5. [Shutdown] can be called in every state in which the region
    pointer, if it is not null, is the base of a mapped view: every state a
    client can reach, before any [Initialize] and after an earlier [Shutdown]
    included, and the partly initialised states in which [Initialize] itself
    calls it.  It returns normally; all six handle and pointer members are
    then null and the connected flag is false; the view is unmapped and every
    handle the client held is closed, and nothing is opened; the only wait is
    the one for the encoder process, bounded by 3000 ms.  With the region
    mapped and the connected flag set, the shutdown flag is stored and the
    frame-ready event raised; with the pointer null or the flag off, a mapped
    region included, the region is left as it is and nothing is raised.  An
    immediately following second call changes nothing. *)
Theorem Shutdown_releases_everything w :
  pointer_valid w ->
  exists w',
    Shutdown w = Ok tt w' /\
    self w' = cleared (self w) /\
    (m_sharedPtr (self w) <> nullptr -> views w' !! m_sharedPtr (self w) = None) /\
    (forall h, In h (held_handles (self w)) -> h <> nullptr -> handles w' !! h = None) /\
    (forall h o, handles w' !! h = Some o -> handles w !! h = Some o) /\
    (forall p s, views w' !! p = Some s -> views w !! p = Some s) /\
    log w' = log w ++ Shutdown_events (self w) /\
    (forall e, In e (Shutdown_events (self w)) -> is_wait e = true ->
       e = EvWaitForSingleObject (m_encoderProcess (self w)) 3000) /\
    (m_sharedPtr (self w) <> nullptr -> m_connected (self w) = true ->
       fh_shutdown (frame_header (region w')) = 1 /\
       In (EvStoreFrameHeader FH_shutdown 1) (Shutdown_events (self w)) /\
       (m_frameReadyEvent (self w) <> nullptr ->
        In (EvSetEvent (m_frameReadyEvent (self w))) (Shutdown_events (self w)))) /\
    (m_sharedPtr (self w) = nullptr \/ m_connected (self w) = false ->
       region w' = region w /\
       forall e, In e (Shutdown_events (self w)) -> is_announcement e = false) /\
    Shutdown w' = Ok tt w'.
Proof.
  intros Hp.
  eexists. split; [apply Shutdown_run; exact Hp|]. norm.
  split; [reflexivity|].
  split; [intros Hnz; apply drop_lookup_here; exact Hnz|].
  split; [intros h; apply Shutdown_handles_closed|].
  split; [intros h o; apply Shutdown_handles_Some|].
  split; [intros p s; apply drop_lookup_Some|].
  split; [reflexivity|].
  split; [intros e Hin Hw; apply (Shutdown_events_waits _ _ Hin Hw)|].
  split.
  { intros Hptr Hc. pose proof (announces_shutdown_true _ Hptr Hc) as Ha.
    split; [| split].
    - unfold Shutdown_region. rewrite Ha. reflexivity.
    - unfold Shutdown_events. rewrite Ha. apply in_or_app. left. left. reflexivity.
    - intros Hfr. unfold Shutdown_events, unless_null. rewrite Ha.
      destruct (Z.eqb_spec (m_frameReadyEvent (self w)) nullptr); [contradiction|].
      apply in_or_app. left. right. left. reflexivity. }
  split.
  { intros Hoff. pose proof (announces_shutdown_false _ Hoff) as Ha. split.
    - unfold Shutdown_region. rewrite Ha. reflexivity.
    - intros e. apply Shutdown_events_quiet. exact Ha. }
  apply (Shutdown_twice w Hp). apply Shutdown_run. exact Hp.
Qed.

Lemma pointer_valid_mapped_world : pointer_valid mapped_world.
Proof.
  intros _. eexists. vm_compute. reflexivity.
Qed.

Lemma Shutdown_releases_everything_witness :
  (exists w',
     Shutdown connected_world = Ok tt w' /\
     self w' = cleared (self connected_world) /\
     fh_shutdown (frame_header (region w')) = 1 /\
     Shutdown w' = Ok tt w') /\
  (exists w',
     Shutdown mapped_world = Ok tt w' /\
     m_sharedPtr (self mapped_world) <> nullptr /\
     views w' !! m_sharedPtr (self mapped_world) = None /\
     region w' = region mapped_world /\
     Shutdown w' = Ok tt w') /\
  (exists w',
     Shutdown (fresh_world zero_region) = Ok tt w' /\
     region w' = zero_region /\ log w' = []).
Proof.
  assert (Hptr : m_sharedPtr (self mapped_world) <> nullptr)
    by (vm_compute; discriminate).
  split; [| split].
  - destruct (Shutdown_releases_everything connected_world)
      as (w' & Hrun & Hself & _ & _ & _ & _ & _ & _ & Hflag & _ & Hagain).
    { destruct connected_world_Connected as [_ _ Hv _ _ _]. intros _. exact Hv. }
    destruct Hflag as (Hset & _); [vm_compute; discriminate | vm_compute; reflexivity |].
    exists w'. split; [exact Hrun |]. split; [exact Hself |].
    split; [exact Hset | exact Hagain].
  - destruct (Shutdown_releases_everything mapped_world pointer_valid_mapped_world)
      as (w' & Hrun & _ & Hview & _ & _ & _ & _ & _ & _ & Hquiet & Hagain).
    destruct Hquiet as (Hregion & _); [right; vm_compute; reflexivity |].
    exists w'. split; [exact Hrun |]. split; [exact Hptr |].
    split; [exact (Hview Hptr) |]. split; [exact Hregion | exact Hagain].
  - destruct (Shutdown_releases_everything (fresh_world zero_region))
      as (w' & Hrun & _ & _ & _ & _ & _ & Hlog & _ & _ & Hquiet & _).
    { intros H. exfalso. apply H. reflexivity. }
    destruct Hquiet as (Hregion & _); [left; reflexivity |].
    exists w'. split; [exact Hrun |]. split; [exact Hregion | exact Hlog].
Defined.

(** * The shutdown flag over runs *)

Lemma run_op_disconnected o w w' :
  pointer_valid w -> m_connected (self w) = false ->
  run_op o w = Ok tt w' ->
  pointer_valid w' /\ region w' = region w.
Proof.
  intros Hp Hc Hrun.
  destruct o as [width height codec env
                | data data_size width height row_pitch ts idr fmt signal_ok
                | out t res | ]; cbn [run_op] in Hrun; unfold bind in Hrun.
  - pose proof (Initialize_post width height codec env w) as Hpost.
    destruct (Initialize width height codec env w) as [b w1|]; [| discriminate].
    injection Hrun as <-. destruct Hpost as (Hp' & _ & _ & Hreg & _). auto.
  - pose proof (SendFrame_post w data data_size width height row_pitch ts
                  idr fmt signal_ok Hp) as Hpost.
    destruct (SendFrame _ _ _ _ _ _ _ _ _ w) as [b w1|]; [| discriminate].
    injection Hrun as <-. destruct Hpost as (Hs & _ & Hv & Hreg).
    split; [eapply pointer_valid_same; eauto | auto].
  - pose proof (ReceivePacket_post w out t res Hp) as Hpost.
    destruct (ReceivePacket out t res w) as [b w1|]; [| discriminate].
    injection Hrun as <-. destruct Hpost as (Hs & _ & Hv & Hreg).
    split; [eapply pointer_valid_same; eauto | auto].
  - pose proof (Shutdown_post w Hp) as Hpost. rewrite Hrun in Hpost.
    destruct Hpost as (Hp' & _ & Hreg). auto.
Qed.

Lemma disconnected_run_region w ops w' :
  disconnected_run w ops w' ->
  pointer_valid w -> m_connected (self w) = false ->
  region w' = region w /\ m_connected (self w') = false.
Proof.
  induction 1 as [w | w o w1 ops w2 Hrun Hc1 _ IH]; intros Hp Hc.
  - auto.
  - destruct (run_op_disconnected o w w1 Hp Hc Hrun) as [Hp1 Hreg1].
    destruct (IH Hp1 Hc1) as [Hreg2 Hc2]. split; [congruence | exact Hc2].
Qed.

(** C6, as stated, fails.  [Shutdown] sets the flag; the encoder has not
    released the region yet, so a second [Initialize] attaches to it again,
    and the next [SendFrame] stores [shutdown = 0]. *)
Lemma shutdown_flag_cleared_after_reconnect :
  post (run (firstn 2 reconnect_and_send) (fresh_world zero_region))
       (fun _ w => fh_shutdown (frame_header (region w)) = 1) /\
  post (run reconnect_and_send (fresh_world zero_region))
       (fun _ w => fh_shutdown (frame_header (region w)) = 0).
Proof. split; vm_compute; reflexivity. Qed.

(** C6, amended.  Once [Shutdown] has set the shutdown flag, the client is
    disconnected, and for as long as it stays disconnected (no later
    [Initialize] succeeds) no operation writes to the shared region: the flag
    stays set, and a [SendFrame] in that period is refused before its header
    write. *)
Theorem shutdown_flag_stays_set w0 w1 ops w2 :
  reachable w0 ->
  announces_shutdown (self w0) = true ->
  Shutdown w0 = Ok tt w1 ->
  disconnected_run w1 ops w2 ->
  fh_shutdown (frame_header (region w1)) = 1 /\
  m_connected (self w1) = false /\
  region w2 = region w1 /\
  fh_shutdown (frame_header (region w2)) = 1 /\
  (forall data data_size width height row_pitch ts idr fmt signal_ok,
     SendFrame data data_size width height row_pitch ts idr fmt signal_ok w2 = Ok false w2).
Proof.
  intros Hr Ha Hrun Hops.
  pose proof (reachable_pointer_valid w0 Hr) as Hp.
  rewrite (Shutdown_run w0 Hp) in Hrun. injection Hrun as <-.
  assert (Hflag : fh_shutdown (frame_header (region
            (mkWorld (cleared (self w0)) (Shutdown_handles (self w0) (handles w0))
               (drop (m_sharedPtr (self w0)) (views w0)) (next_id w0)
               (Shutdown_region (self w0) (region w0))
               (log w0 ++ Shutdown_events (self w0))))) = 1).
  { norm. unfold Shutdown_region. rewrite Ha. reflexivity. }
  destruct (disconnected_run_region _ _ _ Hops) as [Hreg Hc2].
  { unfold pointer_valid. norm. intros H. exfalso. apply H. reflexivity. }
  { reflexivity. }
  split; [exact Hflag|]. split; [reflexivity|]. split; [exact Hreg|].
  split; [rewrite Hreg; exact Hflag|].
  intros. apply SendFrame_refused. left. exact Hc2.
Qed.

Lemma refused_send_disconnected_run w data data_size width height row_pitch ts idr fmt ok :
  m_connected (self w) = false ->
  disconnected_run w [OpSendFrame data data_size width height row_pitch ts idr fmt ok] w.
Proof.
  intros Hc. eapply dr_cons; [| exact Hc | apply dr_nil].
  cbn [run_op]. unfold bind. rewrite SendFrame_refused by (left; exact Hc). reflexivity.
Qed.

Lemma Shutdown_disconnects w :
  reachable w -> exists w', Shutdown w = Ok tt w' /\ m_connected (self w') = false.
Proof.
  intros Hr. pose proof (Shutdown_post w (reachable_pointer_valid w Hr)) as Hpost.
  destruct (Shutdown w) as [[] w'|]; [| contradiction].
  exists w'. split; [reflexivity | apply Hpost].
Qed.

Lemma shutdown_flag_stays_set_witness :
  exists w1,
    Shutdown connected_world = Ok tt w1 /\
    fh_shutdown (frame_header (region w1)) = 1 /\
    SendFrame (fun _ => x2a) 8 2 1 8 1000 true RGBA true w1 = Ok false w1.
Proof.
  destruct (Shutdown_disconnects connected_world connected_world_reachable)
    as (w1 & Hrun & Hc).
  destruct (shutdown_flag_stays_set connected_world w1
              [OpSendFrame (fun _ => x2a) 8 2 1 8 1000 true RGBA true] w1
              connected_world_reachable connected_world_announces Hrun
              (refused_send_disconnected_run w1 _ _ _ _ _ _ _ _ _ Hc))
    as (Hflag & _ & _ & _ & Hsend).
  exists w1. split; [exact Hrun |]. split; [exact Hflag | apply Hsend].
Defined.

(** * The connected flag and the members it vouches for *)

Lemma Connected_same w w' :
  self w' = self w -> handles w' = handles w -> views w' = views w ->
  Connected w -> Connected w'.
Proof. intros Hs Hh Hv [? ? ? ? ? ?]. constructor; rewrite ?Hs, ?Hh, ?Hv; assumption. Qed.

Lemma connected_invariant_same w w' :
  self w' = self w -> handles w' = handles w -> views w' = views w ->
  connected_invariant w -> connected_invariant w'.
Proof.
  intros Hs Hh Hv [Hp Hc]. split.
  - eapply pointer_valid_same; eauto.
  - rewrite Hs. intros Hconn. destruct (Hc Hconn) as [HC Hnn].
    split; [eapply Connected_same; eauto | exact Hnn].
Qed.

Lemma run_op_connected_invariant o w w' :
  (is_Initialize o = true -> m_connected (self w) = false) ->
  connected_invariant w ->
  run_op o w = Ok tt w' ->
  connected_invariant w'.
Proof.
  intros Hguard [Hp Hinv] Hrun.
  destruct o as [width height codec env
                | data data_size width height row_pitch ts idr fmt signal_ok
                | out t res | ]; cbn [run_op] in Hrun; unfold bind in Hrun.
  - pose proof (Initialize_post width height codec env w) as Hpost.
    destruct (Initialize width height codec env w) as [b w1|]; [| discriminate].
    injection Hrun as <-.
    destruct Hpost as (Hp' & Htrue & Hfalse & _). split; [exact (Hp' Hp)|].
    intros Hconn. destruct b.
    + destruct (Htrue eq_refl) as (HC & Hsm & Hfr & Hpr & Her).
      split; [exact HC|]. destruct HC. repeat split; assumption.
    + rewrite (Hfalse eq_refl (Hguard eq_refl)) in Hconn. discriminate.
  - pose proof (SendFrame_post w data data_size width height row_pitch ts
                  idr fmt signal_ok Hp) as Hpost.
    destruct (SendFrame _ _ _ _ _ _ _ _ _ w) as [b w1|]; [| discriminate].
    injection Hrun as <-. destruct Hpost as (Hs & Hh & Hv & _).
    eapply connected_invariant_same; eauto. split; assumption.
  - pose proof (ReceivePacket_post w out t res Hp) as Hpost.
    destruct (ReceivePacket out t res w) as [b w1|]; [| discriminate].
    injection Hrun as <-. destruct Hpost as (Hs & Hh & Hv & _).
    eapply connected_invariant_same; eauto. split; assumption.
  - pose proof (Shutdown_post w Hp) as Hpost. rewrite Hrun in Hpost.
    destruct Hpost as (Hp' & Hc & _). split; [exact Hp'|].
    rewrite Hc. discriminate.
Qed.

Lemma protocol_reachable_invariant w : protocol_reachable w -> connected_invariant w.
Proof.
  induction 1 as [hs vs n r l | w o w' _ IH Hguard Hrun].
  - split.
    + unfold pointer_valid. cbn. intros H. exfalso. apply H. reflexivity.
    + cbn. discriminate.
  - eapply run_op_connected_invariant; eauto.
Qed.

Lemma SendFrame_no_null_dereference w data data_size width height row_pitch ts idr fmt ok :
  SendFrame data data_size width height row_pitch ts idr fmt ok w
    <> Crash NullPointerDereference.
Proof.
  destruct (m_connected (self w)) eqn:Hc.
  2:{ rewrite SendFrame_refused by auto. discriminate. }
  destruct (Z.eq_dec (m_sharedPtr (self w)) nullptr) as [Hnull|Hnz].
  { rewrite SendFrame_refused by auto. discriminate. }
  destruct (Z_lt_le_dec FRAME_BUFFER_SIZE data_size) as [Hbig|Hfit].
  { rewrite SendFrame_oversize by assumption. discriminate. }
  destruct (views w !! m_sharedPtr (self w)) eqn:Hv.
  { rewrite SendFrame_run by eauto. discriminate. }
  unfold SendFrame. unfold bind at 1, this at 1. rewrite Hc.
  destruct (Z.eqb_spec (m_sharedPtr (self w)) nullptr) as [E|_]; [contradiction|].
  cbn [negb orb].
  destruct (Z.ltb_spec FRAME_BUFFER_SIZE data_size) as [E|_]; [lia|].
  unfold bind at 1, store_frame_header at 1. unfold bind at 1, deref at 1.
  destruct (Z.eqb_spec (m_sharedPtr (self w)) nullptr) as [E|_]; [contradiction|].
  rewrite Hv. discriminate.
Qed.

Lemma ReceivePacket_no_null_dereference w out t res :
  ReceivePacket out t res w <> Crash NullPointerDereference.
Proof.
  destruct (m_connected (self w)) eqn:Hc.
  2:{ rewrite ReceivePacket_refused by auto. discriminate. }
  destruct (Z.eq_dec (m_sharedPtr (self w)) nullptr) as [Hnull|Hnz].
  { rewrite ReceivePacket_refused by auto. discriminate. }
  destruct (views w !! m_sharedPtr (self w)) eqn:Hv.
  { rewrite ReceivePacket_run by eauto. cbv zeta.
    destruct (negb _); [discriminate|]. destruct (_ <? _); discriminate. }
  unfold ReceivePacket. unfold bind at 1, this at 1. rewrite Hc.
  destruct (Z.eqb_spec (m_sharedPtr (self w)) nullptr) as [E|_]; [contradiction|].
  cbn [negb orb].
  step_by WaitForSingleObject_run.
  destruct (negb _); [discriminate|].
  unfold bind at 1, load_packet_header at 1. unfold bind at 1, deref at 1. norm.
  destruct (Z.eqb_spec (m_sharedPtr (self w)) nullptr) as [E|_]; [contradiction|].
  rewrite Hv. discriminate.
Qed.

(** C10, as stated, fails.  [Initialize] on a connected client whose new
    view cannot be mapped closes the new section handle, leaves both
    [m_sharedMemory] and [m_sharedPtr] null, and returns without touching the
    connected flag. *)
Lemma connected_flag_survives_failed_reinitialize :
  post (run [OpInitialize 1920 1080 "h264" env_attach;
             OpInitialize 1920 1080 "h264" env_map_fails]
          (fresh_world zero_region))
       (fun _ w => IsConnected (self w) = true /\
                   m_sharedPtr (self w) = nullptr /\
                   m_sharedMemory (self w) = nullptr).
Proof. vm_compute. repeat split. Qed.

(** C10, amended.  In every run in which [Initialize] is only invoked on a
    client that is not connected, whenever [IsConnected] is true the view
    pointer, the section handle and the three event handles are non-null
    (and the pointer is a mapped view, the events open events).  In every
    state whatever, [SendFrame] and [ReceivePacket] test the pointer before
    using it and never dereference a null region pointer. *)
Theorem connected_members_are_valid w :
  (protocol_reachable w -> IsConnected (self w) = true ->
   members_non_null (self w) /\ Connected w) /\
  (forall data data_size width height row_pitch ts idr fmt ok,
     SendFrame data data_size width height row_pitch ts idr fmt ok w
       <> Crash NullPointerDereference) /\
  (forall out t res, ReceivePacket out t res w <> Crash NullPointerDereference).
Proof.
  split; [| split].
  - intros Hr Hc. destruct (protocol_reachable_invariant w Hr) as [_ Hinv].
    destruct (Hinv Hc). auto.
  - intros. apply SendFrame_no_null_dereference.
  - intros. apply ReceivePacket_no_null_dereference.
Qed.

Lemma connected_world_protocol_reachable : protocol_reachable connected_world.
Proof.
  eapply proto_op; [apply (proto_new ∅ ∅ 1%positive zero_region []) | |].
  - intros _. reflexivity.
  - exact connected_world_run.
Qed.

Lemma connected_members_are_valid_witness :
  members_non_null (self connected_world) /\ Connected connected_world.
Proof.
  apply (proj1 (connected_members_are_valid connected_world)
           connected_world_protocol_reachable).
  vm_compute. reflexivity.
Defined.

(** * Connection setup *)

Lemma append_assoc (a b c : string) : (a +:+ b) +:+ c = a +:+ (b +:+ c).
Proof.
  induction a as [|x a IH]; [reflexivity|].
  change (String x ((a +:+ b) +:+ c) = String x (a +:+ (b +:+ c))).
  rewrite IH. reflexivity.
Qed.

Lemma encoder_cmdline_flat env width height codec :
  encoder_cmdline env width height codec =
    wstring (encoder_path env) +:+ " " +:+ to_wstring width +:+ " "
      +:+ to_wstring height +:+ " " +:+ codec.
Proof. unfold encoder_cmdline. rewrite !append_assoc. reflexivity. Qed.

Lemma encoder_next_to_host env :
  parent_path (encoder_path env) = parent_path (ie_module_path env).
Proof. unfold encoder_path, parent_path at 1, path_append. apply removelast_last. Qed.








(** C7. [Initialize] first tries to open the named region.  If it is absent
    the client looks for [alvr_encoder_arm64.exe] in the directory of the
    host's own binary: without it the call fails and nothing is started;
    with it the client calls [CreateProcessW] on it with the arguments
    [width height codec] (and fails at once if the process cannot be
    created), then polls for the region, sleeping 100 ms before each of at
    most 50 attempts, going on to map the region at the first attempt that
    finds it and failing when none of the 50 does. *)
Theorem Initialize_attaches_or_launches width height codec env w :
  is_uint32 width -> is_uint32 height ->
  let encoder := path_append (parent_path (ie_module_path env)) "alvr_encoder_arm64.exe" in
  let cmd := wstring encoder +:+ " " +:+ to_wstring width +:+ " "
               +:+ to_wstring height +:+ " " +:+ codec in
  let probe := [EvOpenFileMappingW SHARED_MEM_NAME; EvGetModuleFileNameW;
                EvExists (wstring encoder)] in
  let launch := [EvCreateProcessW cmd; EvCloseHandle (Z.pos (Pos.succ (next_id w)))] in
  parent_path encoder = parent_path (ie_module_path env) /\
  (exists b w' rest,
     Initialize width height codec env w = Ok b w' /\
     log w' = log w ++ EvOpenFileMappingW SHARED_MEM_NAME :: rest) /\
  (ie_region_present env = true ->
   exists b w' rest,
     Initialize width height codec env w = Ok b w' /\
     log w' = log w ++ EvOpenFileMappingW SHARED_MEM_NAME
                :: EvMapViewOfFile (Z.pos (next_id w)) :: rest) /\
  (ie_region_present env = false -> ie_encoder_exists env = false ->
   exists w',
     Initialize width height codec env w = Ok false w' /\
     log w' = log w ++ probe /\
     handles w' = handles w) /\
  (ie_region_present env = false -> ie_encoder_exists env = true ->
   ie_process_created env = false ->
   exists w',
     Initialize width height codec env w = Ok false w' /\
     log w' = log w ++ probe ++ [EvCreateProcessW cmd]) /\
  (ie_region_present env = false -> ie_encoder_exists env = true ->
   ie_process_created env = true ->
   (forall j, (j < 50)%nat -> ie_region_appears env j = false) ->
   exists w',
     Initialize width height codec env w = Ok false w' /\
     log w' = log w ++ probe ++ launch ++ poll_events 50) /\
  (forall k,
     ie_region_present env = false -> ie_encoder_exists env = true ->
     ie_process_created env = true ->
     (k < 50)%nat ->
     (forall j, (j < k)%nat -> ie_region_appears env j = false) ->
     ie_region_appears env k = true ->
     exists b w' rest,
       Initialize width height codec env w = Ok b w' /\
       log w' = log w ++ probe ++ launch ++ poll_events (S k)
                  ++ EvMapViewOfFile (Z.pos (Pos.succ (Pos.succ (next_id w)))) :: rest).
Proof.
  intros Hw Hh encoder cmd probe launch.
  assert (Hcmd : launch_cmdline env width height codec = cmd).
  { unfold launch_cmdline.
    rewrite encoder_cmdline_flat, !to_uint32_id by assumption. reflexivity. }
  split; [apply encoder_next_to_host|].
  split.
  { pose proof (Initialize_post width height codec env w) as Hpost.
    destruct (Initialize width height codec env w) as [b w'|]; [| contradiction].
    destruct Hpost as (_ & _ & _ & _ & rest & Hlog). eauto. }
  split.
  { intros Hpresent. rewrite Initialize_attach by assumption.
    match goal with |- context [Initialize_mapped env ?w1] =>
      pose proof (Initialize_mapped_post env w1) as Hpost;
      destruct (Initialize_mapped env w1) as [b w'|]
    end.
    2:{ exfalso. apply Hpost. norm. discriminate. }
    destruct Hpost as (_ & _ & _ & _ & rest & Hlog); [norm; discriminate|].
    norm in Hlog. exists b, w', rest. split; [reflexivity|].
    rewrite Hlog, <- app_assoc. reflexivity. }
  split.
  { intros Habsent Hmissing. rewrite Initialize_no_encoder by assumption.
    eexists. repeat split. }
  split.
  { intros Habsent Hexists Hfailed. rewrite Initialize_launch_failed by assumption.
    eexists. split; [reflexivity|]. norm. rewrite Hcmd. reflexivity. }
  split.
  { intros Habsent Hexists Hcreated Hnever.
    rewrite Initialize_poll_exhausted by assumption.
    eexists. split; [reflexivity|]. norm. unfold launch_events.
    rewrite Hcmd. reflexivity. }
  intros k Habsent Hexists Hcreated Hk Hbefore Hhit.
  rewrite (Initialize_poll_hit _ _ _ _ _ k) by assumption.
  match goal with |- context [Initialize_mapped env ?w1] =>
    pose proof (Initialize_mapped_post env w1) as Hpost;
    destruct (Initialize_mapped env w1) as [b w'|]
  end.
  2:{ exfalso. apply Hpost. norm. discriminate. }
  destruct Hpost as (_ & _ & _ & _ & rest & Hlog); [norm; discriminate|].
  norm in Hlog. exists b, w', rest. split; [reflexivity|].
  unfold launch_events in Hlog.
  rewrite Hlog, Hcmd, <- !app_assoc. reflexivity.
Qed.

Lemma Initialize_attaches_or_launches_witness :
  (exists w',
     Initialize 1920 1080 "h264" env_no_encoder (fresh_world zero_region) = Ok false w' /\
     log w' = [EvOpenFileMappingW "ALVR_ARM64_ENCODER"; EvGetModuleFileNameW;
               EvExists "C:\ALVR\bin\alvr_encoder_arm64.exe"]) /\
  (exists b w' rest,
     Initialize 1920 1080 "h264" env_ready_timeout (fresh_world zero_region) = Ok b w' /\
     log w' = [EvOpenFileMappingW "ALVR_ARM64_ENCODER"; EvGetModuleFileNameW;
               EvExists "C:\ALVR\bin\alvr_encoder_arm64.exe";
               EvCreateProcessW "C:\ALVR\bin\alvr_encoder_arm64.exe 1920 1080 h264";
               EvCloseHandle 2;
               EvSleep 100; EvOpenFileMappingW "ALVR_ARM64_ENCODER";
               EvSleep 100; EvOpenFileMappingW "ALVR_ARM64_ENCODER";
               EvSleep 100; EvOpenFileMappingW "ALVR_ARM64_ENCODER";
               EvSleep 100; EvOpenFileMappingW "ALVR_ARM64_ENCODER";
               EvMapViewOfFile 3] ++ rest).
Proof.
  assert (H32 : is_uint32 1920 /\ is_uint32 1080) by (unfold is_uint32; lia).
  destruct H32 as [Hw Hh].
  split.
  - destruct (Initialize_attaches_or_launches 1920 1080 "h264" env_no_encoder
                (fresh_world zero_region) Hw Hh)
      as (_ & _ & _ & Hmissing & _).
    destruct (Hmissing eq_refl eq_refl) as (w' & Hrun & Hlog & _).
    exists w'. split; [exact Hrun | exact Hlog].
  - destruct (Initialize_attaches_or_launches 1920 1080 "h264" env_ready_timeout
                (fresh_world zero_region) Hw Hh)
      as (_ & _ & _ & _ & _ & _ & Hfound).
    destruct (Hfound 3%nat eq_refl eq_refl eq_refl) as (b & w' & rest & Hrun & Hlog).
    + lia.
    + intros j Hj. destruct j as [|[|[|j]]]; try reflexivity. lia.
    + reflexivity.
    + exists b, w', rest. split; [exact Hrun | exact Hlog].
Defined.

(** * The shared-region layout *)

(** Without the pragma the frame header would be padded to 32 bytes. *)
Lemma FrameHeader_natural_alignment_pads :
  Layout.sizeof 8 Layout.FrameHeader_members = 32.
Proof. reflexivity. Qed.

(** C9. Under [#pragma pack(push, 1)] the members lie back to back in
    declaration order: [FrameHeader] is width, height (4 bytes each),
    timestamp_ns (8), insert_idr, pixel_format (1 each), row_pitch, data_size
    (4 each), shutdown (1) and 3 padding bytes, 30 bytes in all;
    [PacketHeader] is size (4), timestamp_ns (8), is_idr (1) and 3 padding
    bytes, 16 bytes in all; the region is the two headers followed by a frame
    buffer of 4096 * 2160 * 4 bytes and a packet buffer of 4 MiB.  The pixel
    formats are numbered RGBA 0, NV12 1, P010 2. *)
Theorem shared_region_layout :
  Layout.offsets Layout.pack 0 Layout.FrameHeader_members =
    [("width", 0, 4); ("height", 4, 4); ("timestamp_ns", 8, 8);
     ("insert_idr", 16, 1); ("pixel_format", 17, 1); ("row_pitch", 18, 4);
     ("data_size", 22, 4); ("shutdown", 26, 1); ("_padding", 27, 3)] /\
  Layout.sizeof Layout.pack Layout.FrameHeader_members = 30 /\
  Layout.offsets Layout.pack 0 Layout.PacketHeader_members =
    [("size", 0, 4); ("timestamp_ns", 4, 8); ("is_idr", 12, 1); ("_padding", 13, 3)] /\
  Layout.sizeof Layout.pack Layout.PacketHeader_members = 16 /\
  Layout.offsets Layout.pack 0 (Layout.SharedMemoryLayout_members Layout.pack) =
    [("frame_header", 0, 30); ("packet_header", 30, 16);
     ("frame_buffer", 46, 4096 * 2160 * 4);
     ("packet_buffer", 46 + 4096 * 2160 * 4, 4 * 1024 * 1024)] /\
  Layout.sizeof Layout.pack (Layout.SharedMemoryLayout_members Layout.pack) =
    30 + 16 + FRAME_BUFFER_SIZE + PACKET_BUFFER_SIZE /\
  FRAME_BUFFER_SIZE = 4096 * 2160 * 4 /\
  PACKET_BUFFER_SIZE = 4 * 2 ^ 20 /\
  PixelFormat_to_uint8 RGBA = 0 /\
  PixelFormat_to_uint8 NV12 = 1 /\
  PixelFormat_to_uint8 P010 = 2.
Proof. repeat split. Qed.

(** * Exact effect of the mapping phase *)

Ltac unfold_worlds :=
  lazy beta iota zeta delta
    [after_Shutdown ready_wait_logged log_event events_opened after_OpenEventW
     after_MapViewOfFile after_map_failure
     self handles views next_id region log
     with_self with_handles with_views with_region
     ie_region_present ie_module_path ie_encoder_exists ie_process_created
     ie_region_appears ie_view_mapped ie_frame_event_present
     ie_packet_event_present ie_encoder_event_present ie_ready_wait].

Lemma Initialize_mapped_run env w :
  Initialize_mapped env w =
    if is_section (handles w !! m_sharedMemory (self w)) && ie_view_mapped env then
      if all_events_present env then
        if ie_ready_wait env =? WAIT_OBJECT_0
        then Ok true (with_self (set_connected true) (ready_wait_logged (events_opened env w)))
        else Ok false (after_Shutdown (ready_wait_logged (events_opened env w)))
      else Ok false (after_Shutdown (events_opened env w))
    else Ok false (after_map_failure w).
Proof.
  unfold Initialize_mapped.
  destruct w as [[sm ptr fr pr er proc wd ht cd conn] hs vs n r l].
  destruct env as [rp mp ee pc ra vm fe pe re rw].
  unfold all_events_present.
  cbn [ie_view_mapped ie_frame_event_present ie_packet_event_present
       ie_encoder_event_present ie_ready_wait].
  step. step_by MapViewOfFile_run. cbv zeta. norm.
  destruct (is_section (hs !! sm) && vm); norm.
  - step.
    step_by OpenEventW_run. step.
    step_by OpenEventW_run. step.
    step_by OpenEventW_run. step. step.
    destruct fe, pe, re; norm.
    2-8: step_by Shutdown_run; [| view_is_mapped].
    2-8: unfold_worlds; reflexivity.
    step_by WaitForEncoderReady_run. cbv zeta. norm.
    rewrite lookup_insert_eq. cbn [wait_value].
    destruct (rw =? WAIT_OBJECT_0); norm.
    + step. unfold ret. unfold_worlds. norm.
      rewrite <- !app_assoc. reflexivity.
    + step_by Shutdown_run; [| view_is_mapped].
      unfold ret. unfold_worlds. norm.
      rewrite <- !app_assoc. reflexivity.
  - step. step. step_by CloseHandle_run. step.
    unfold ret, after_map_failure; norm. rewrite <- !app_assoc. reflexivity.
Qed.


Ltac Initialize_cases width height codec env w :=
  let Hpresent := fresh "Hpresent" in
  let Hexists := fresh "Hexists" in
  let Hcreated := fresh "Hcreated" in
  let Hnever := fresh "Hnever" in
  let k := fresh "k" in
  let Hk := fresh "Hk" in
  let Hbefore := fresh "Hbefore" in
  let Hhit := fresh "Hhit" in
  destruct (ie_region_present env) eqn:Hpresent;
  [ rewrite (Initialize_attach width height codec env w Hpresent)
  | destruct (ie_encoder_exists env) eqn:Hexists;
    [ destruct (ie_process_created env) eqn:Hcreated;
      [ destruct (first_hit_or_never (ie_region_appears env) 0 50)
          as [Hnever | (k & Hk & Hbefore & Hhit)];
        [ rewrite (Initialize_poll_exhausted width height codec env w Hpresent Hexists Hcreated)
            by (intros; apply Hnever; lia)
        | rewrite (Initialize_poll_hit width height codec env w k Hpresent Hexists Hcreated Hk)
            by (try assumption; intros; apply Hbefore; lia) ]
      | rewrite (Initialize_launch_failed width height codec env w Hpresent Hexists Hcreated) ]
    | rewrite (Initialize_no_encoder width height codec env w Hpresent Hexists) ] ].

Lemma Shutdown_after w : pointer_valid w -> Shutdown w = Ok tt (after_Shutdown w).
Proof. apply Shutdown_run. Qed.

Lemma pointer_valid_null w : m_sharedPtr (self w) = nullptr -> pointer_valid w.
Proof. unfold pointer_valid. intros -> H. exfalso. apply H. reflexivity. Qed.

Lemma pointer_valid_after_Shutdown w : pointer_valid (after_Shutdown w).
Proof. apply pointer_valid_null. reflexivity. Qed.

Lemma pointer_valid_events_opened env w : pointer_valid (events_opened env w).
Proof.
  unfold pointer_valid. destruct w as [c hs vs n r l].
  destruct env as [rp mp ee pc ra vm fe pe re rw].
  destruct fe, pe, re; unfold_worlds; norm; intros _; rewrite lookup_insert_eq; eauto.
Qed.

(** * The whole public interface *)

Lemma holds_no_channel_cleared c : holds_no_channel (cleared c).
Proof. repeat split. Qed.

Lemma disconnected_invariant_after_Shutdown w : disconnected_invariant (after_Shutdown w).
Proof. split; [apply pointer_valid_after_Shutdown | intros _; apply holds_no_channel_cleared]. Qed.

Lemma Initialize_mapped_disconnected_invariant env w :
  pointer_valid w ->
  (m_connected (self w) = false ->
   m_frameReadyEvent (self w) = nullptr /\ m_packetReadyEvent (self w) = nullptr /\
   m_encoderReadyEvent (self w) = nullptr) ->
  post (Initialize_mapped env w) (fun _ w' => disconnected_invariant w').
Proof.
  intros Hp Hev. rewrite Initialize_mapped_run.
  destruct (_ && _); [destruct (all_events_present env); [destruct (_ =? _)|]|]; cbn [post].
  - split.
    + pose proof (pointer_valid_events_opened env w) as H. exact H.
    + destruct w as [c hs vs n r l]. unfold_worlds. norm. discriminate.
  - apply disconnected_invariant_after_Shutdown.
  - apply disconnected_invariant_after_Shutdown.
  - split; [apply pointer_valid_null; reflexivity|].
    unfold after_map_failure. norm. intros Hc.
    destruct (Hev Hc) as (Hf & Hpk & He). repeat split; assumption.
Qed.

Lemma Initialize_disconnected_invariant width height codec env w :
  disconnected_invariant w ->
  post (Initialize width height codec env w) (fun _ w' => disconnected_invariant w').
Proof.
  intros [Hp Hd].
  assert (Hev : forall c, m_connected c = m_connected (self w) ->
                 m_frameReadyEvent c = m_frameReadyEvent (self w) ->
                 m_packetReadyEvent c = m_packetReadyEvent (self w) ->
                 m_encoderReadyEvent c = m_encoderReadyEvent (self w) ->
                 m_connected c = false ->
                 m_frameReadyEvent c = nullptr /\ m_packetReadyEvent c = nullptr /\
                 m_encoderReadyEvent c = nullptr).
  { intros c Hc -> -> -> Hoff. rewrite Hc in Hoff.
    destruct (Hd Hoff) as (_ & _ & ? & ? & ?). auto. }
  assert (Hfail : forall c hs' n' l',
             m_sharedPtr c = m_sharedPtr (self w) ->
             m_sharedMemory c = nullptr ->
             m_connected c = m_connected (self w) ->
             m_frameReadyEvent c = m_frameReadyEvent (self w) ->
             m_packetReadyEvent c = m_packetReadyEvent (self w) ->
             m_encoderReadyEvent c = m_encoderReadyEvent (self w) ->
             disconnected_invariant (mkWorld c hs' (views w) n' (region w) l')).
  { intros c hs' n' l' Hptr Hsm Hc Hf Hpk He. split.
    - unfold pointer_valid. norm. rewrite Hptr. exact Hp.
    - norm. intros Hoff.
      destruct (Hev c Hc Hf Hpk He Hoff) as (? & ? & ?).
      rewrite Hc in Hoff. destruct (Hd Hoff) as (? & _).
      repeat split; try assumption. congruence. }
  Initialize_cases width height codec env w.
  - apply Initialize_mapped_disconnected_invariant.
    + unfold pointer_valid. norm. exact Hp.
    + norm. apply Hev; reflexivity.
  - cbn [post]. apply Hfail; reflexivity.
  - apply Initialize_mapped_disconnected_invariant.
    + unfold pointer_valid. norm. exact Hp.
    + norm. apply Hev; reflexivity.
  - cbn [post]. apply Hfail; reflexivity.
  - cbn [post]. apply Hfail; reflexivity.
Qed.

Lemma disconnected_invariant_same w w' :
  self w' = self w -> views w' = views w ->
  disconnected_invariant w -> disconnected_invariant w'.
Proof.
  intros Hs Hv [Hp Hd]. split.
  - eapply pointer_valid_same; eauto.
  - rewrite Hs. exact Hd.
Qed.

Lemma run_op_disconnected_invariant o w :
  disconnected_invariant w ->
  post (run_op o w) (fun _ w' => disconnected_invariant w').
Proof.
  intros Hinv. pose proof Hinv as [Hp Hd].
  destruct o as [width height codec env
                | data data_size width height row_pitch ts idr fmt signal_ok
                | out t res | ]; cbn [run_op].
  - apply post_bind. eapply post_weaken; [apply Initialize_disconnected_invariant; exact Hinv|].
    intros b w' H. exact H.
  - apply post_bind. eapply post_weaken; [apply SendFrame_post; exact Hp|].
    intros b w' (Hs & _ & Hv & _). cbn [post ret].
    eapply disconnected_invariant_same; eauto.
  - apply post_bind. eapply post_weaken; [apply ReceivePacket_post; exact Hp|].
    intros b w' (Hs & _ & Hv & _). cbn [post ret].
    eapply disconnected_invariant_same; eauto.
  - rewrite (Shutdown_after w Hp). cbn [post].
    apply disconnected_invariant_after_Shutdown.
Qed.

Lemma LaunchEncoderProcess_disconnected_invariant env w :
  disconnected_invariant w ->
  post (LaunchEncoderProcess env w) (fun _ w' => disconnected_invariant w').
Proof.
  intros [Hp Hd]. rewrite LaunchEncoderProcess_run. cbv zeta.
  destruct (negb (ie_encoder_exists env)); [| destruct (negb (ie_process_created env))];
    cbn [post]; (split; [unfold pointer_valid; norm; exact Hp | norm; exact Hd]).
Qed.

Lemma run_public_disconnected_invariant o w :
  disconnected_invariant w ->
  post (run_public o w) (fun _ w' => disconnected_invariant w').
Proof.
  intros Hinv. destruct o as [o | env | t res]; cbn [run_public].
  - apply run_op_disconnected_invariant. exact Hinv.
  - apply post_bind.
    eapply post_weaken; [apply LaunchEncoderProcess_disconnected_invariant; exact Hinv|].
    intros b w' H. exact H.
  - apply post_bind. rewrite WaitForEncoderReady_run. cbv zeta. cbn [post ret].
    eapply disconnected_invariant_same; [| | exact Hinv]; reflexivity.
Qed.

Lemma public_reachable_invariant w : public_reachable w -> disconnected_invariant w.
Proof.
  induction 1 as [hs vs n r l | w o w' _ IH Hrun].
  - split; [apply pointer_valid_null; reflexivity | intros _; repeat split].
  - pose proof (run_public_disconnected_invariant o w IH) as Hpost.
    rewrite Hrun in Hpost. exact Hpost.
Qed.

Lemma reachable_public_reachable w : reachable w -> public_reachable w.
Proof.
  induction 1 as [hs vs n r l | w o w' _ IH Hrun].
  - apply pub_new.
  - eapply (pub_op w (PubOp o)); eauto.
Qed.

(** X1. Whatever sequence of public member functions has been called,
    direct calls of [LaunchEncoderProcess] and [WaitForEncoderReady] included,
    the next call returns normally: no member function ever reads or writes
    through a region pointer that is null or no longer mapped. *)
Theorem public_interface_never_faults w o :
  public_reachable w ->
  exists w', run_public o w = Ok tt w' /\ public_reachable w' /\ pointer_valid w'.
Proof.
  intros Hr.
  pose proof (run_public_disconnected_invariant o w (public_reachable_invariant w Hr)) as Hpost.
  destruct (run_public o w) as [[] w'|] eqn:Hrun; [| contradiction].
  exists w'. split; [reflexivity|]. split; [eapply pub_op; eauto | apply Hpost].
Qed.

Lemma public_interface_never_faults_witness :
  exists w',
    run_public (PubOp (OpSendFrame (fun _ => x2a) 8 2 1 8 1000 true RGBA true))
      (fresh_world zero_region) = Ok tt w' /\
    public_reachable w' /\ pointer_valid w'.
Proof.
  apply (public_interface_never_faults (fresh_world zero_region)).
  apply pub_new.
Defined.

(** X2. A client whose connected flag is off holds no view, no section
    handle and no event handle, in every state the public member functions
    can lead to: a failed [Initialize] and a [Shutdown] leave none of them
    behind (the handle of a started encoder process is the only thing a
    disconnected client can still hold). *)
Theorem disconnected_client_holds_no_channel w :
  public_reachable w ->
  IsConnected (self w) = false ->
  holds_no_channel (self w) /\
  (forall h, In h (channel_handles (self w)) -> h = nullptr).
Proof.
  intros Hr Hoff. destruct (public_reachable_invariant w Hr) as [_ Hd].
  pose proof (Hd Hoff) as Hnone. split; [exact Hnone|].
  destruct Hnone as (_ & Hsm & Hf & Hpk & He).
  unfold channel_handles. cbn [In].
  intros h [<- | [<- | [<- | [<- | []]]]]; assumption.
Qed.

Lemma stalled_world_run :
  run_public (PubOp (OpInitialize 1920 1080 "h264" env_never_appears))
    (fresh_world zero_region) = Ok tt stalled_world.
Proof.
  cbn [run_public run_op]. unfold bind, stalled_world.
  rewrite Initialize_poll_exhausted by reflexivity. reflexivity.
Qed.

Lemma stalled_world_public_reachable : public_reachable stalled_world.
Proof.
  eapply pub_op; [apply (pub_new ∅ ∅ 1%positive zero_region []) |].
  exact stalled_world_run.
Qed.

Lemma disconnected_client_holds_no_channel_witness :
  m_encoderProcess (self stalled_world) = 1 /\
  holds_no_channel (self stalled_world).
Proof.
  split; [vm_compute; reflexivity|].
  apply (disconnected_client_holds_no_channel stalled_world stalled_world_public_reachable).
  vm_compute. reflexivity.
Defined.

(** X3. On a client that is not connected, before [Initialize], after a
    failed one or after [Shutdown], [WaitForEncoderReady] returns false at
    once: it performs no wait and changes nothing. *)
Theorem WaitForEncoderReady_disconnected w timeout_ms wait_result :
  public_reachable w ->
  IsConnected (self w) = false ->
  WaitForEncoderReady timeout_ms wait_result w = Ok false w.
Proof.
  intros Hr Hoff. destruct (public_reachable_invariant w Hr) as [_ Hd].
  destruct (Hd Hoff) as (_ & _ & _ & _ & He).
  rewrite WaitForEncoderReady_run. cbv zeta. unfold unless_null. rewrite He.
  cbn [Z.eqb nullptr negb andb]. rewrite app_nil_r. destruct w; reflexivity.
Qed.

Lemma WaitForEncoderReady_disconnected_witness :
  WaitForEncoderReady 5000 WAIT_OBJECT_0 (fresh_world zero_region)
    = Ok false (fresh_world zero_region).
Proof.
  apply (WaitForEncoderReady_disconnected (fresh_world zero_region)).
  - apply pub_new.
  - reflexivity.
Defined.

(** * Handles and views across a connection attempt *)

Ltac unfold_teardown :=
  lazy beta iota zeta delta
    [after_Shutdown ready_wait_logged log_event events_opened after_OpenEventW
     after_MapViewOfFile after_map_failure
     self handles views next_id region log
     with_self with_handles with_views with_region
     ie_region_present ie_module_path ie_encoder_exists ie_process_created
     ie_region_appears ie_view_mapped ie_frame_event_present
     ie_packet_event_present ie_encoder_event_present ie_ready_wait
     Shutdown_handles cleared launched_handles configured
     m_sharedMemory m_sharedPtr m_frameReadyEvent m_packetReadyEvent
     m_encoderReadyEvent m_encoderProcess m_width m_height m_codec m_connected
     set_sharedMemory set_sharedPtr set_frameReadyEvent set_packetReadyEvent
     set_encoderReadyEvent set_encoderProcess set_width set_height set_codec
     set_connected all_events_present andb negb orb].

(** Lookups in a table built from deletions and insertions: every
    comparison of keys that arithmetic settles is settled at once, the
    others are split on. *)
Ltac settle_key :=
  match goal with
  | |- context [decide (?a = ?b)] =>
      first [ rewrite (decide_True (P := (a = b))) by lia
            | rewrite (decide_False (P := (a = b))) by lia ]
  end.

Ltac split_key :=
  match goal with
  | |- context [decide (?a = ?b)] =>
      destruct (decide (a = b)); [subst |]; lazy beta iota
  end.

Ltac lookup_cases :=
  repeat first [rewrite lookup_delete | rewrite lookup_insert];
  repeat first [settle_key | split_key].

Lemma drop_null {X} (m : gmap Z X) : drop nullptr m = m.
Proof. reflexivity. Qed.

Lemma drop_pos {X} p (m : gmap Z X) : drop (Z.pos p) m = delete (Z.pos p) m.
Proof. reflexivity. Qed.

Lemma drop_nonnull {X} k (m : gmap Z X) : k <> nullptr -> drop k m = delete k m.
Proof. intros H. unfold drop. destruct (Z.eqb_spec k nullptr); [contradiction | reflexivity]. Qed.

Ltac settle_drops :=
  repeat first [ rewrite drop_null | rewrite drop_pos
               | match goal with
                 | H : ?k <> nullptr |- context [drop ?k _] => rewrite (drop_nonnull k) by exact H
                 end ].

Lemma ids_fresh_handles w k :
  ids_fresh w -> (next_id w <= k)%positive -> handles w !! Z.pos k = None.
Proof. intros H Hk. apply (H k Hk). Qed.

Lemma ids_fresh_views w k :
  ids_fresh w -> (next_id w <= k)%positive -> views w !! Z.pos k = None.
Proof. intros H Hk. apply (H k Hk). Qed.

Lemma pointer_valid_ready env w :
  pointer_valid (with_self (set_connected true) (ready_wait_logged (events_opened env w))).
Proof. exact (pointer_valid_events_opened env w). Qed.

Lemma pointer_valid_after_map_failure w : pointer_valid (after_map_failure w).
Proof. apply pointer_valid_null. reflexivity. Qed.

Lemma Initialize_mapped_pointer_valid env w :
  post (Initialize_mapped env w) (fun _ w1 => pointer_valid w1).
Proof.
  rewrite Initialize_mapped_run.
  destruct (_ && _); [destruct (all_events_present env); [destruct (_ =? _)|]|]; cbn [post].
  - apply pointer_valid_ready.
  - apply pointer_valid_after_Shutdown.
  - apply pointer_valid_after_Shutdown.
  - apply pointer_valid_after_map_failure.
Qed.

Lemma Initialize_mapped_released env w :
  ids_fresh w ->
  m_sharedMemory (self w) <> nullptr ->
  m_sharedPtr (self w) = nullptr ->
  m_frameReadyEvent (self w) = nullptr ->
  m_packetReadyEvent (self w) = nullptr ->
  m_encoderReadyEvent (self w) = nullptr ->
  post (Initialize_mapped env w)
    (fun _ w1 =>
       handles (after_Shutdown w1)
         = drop (m_encoderProcess (self w)) (delete (m_sharedMemory (self w)) (handles w)) /\
       views (after_Shutdown w1) = views w /\
       (next_id w <= next_id w1)%positive).
Proof.
  intros Hfresh Hsm Hptr Hf Hpk He. rewrite Initialize_mapped_run.
  destruct w as [[sm ptr fr pr er proc wd ht cd conn] hs vs n r l].
  cbn [self m_sharedMemory m_sharedPtr m_frameReadyEvent m_packetReadyEvent
       m_encoderReadyEvent] in Hsm, Hptr, Hf, Hpk, He. subst ptr fr pr er.
  assert (Hh : forall k, (n <= k)%positive -> hs !! Z.pos k = None)
    by (intros k Hk; apply (ids_fresh_handles _ k Hfresh Hk)).
  assert (Hv : forall k, (n <= k)%positive -> vs !! Z.pos k = None)
    by (intros k Hk; apply (ids_fresh_views _ k Hfresh Hk)).
  destruct env as [rp mp ee pc ra vm fe pe re rw].
  cbn [self handles m_sharedMemory ie_view_mapped ie_ready_wait].
  destruct (is_section (hs !! sm) && vm);
    [destruct fe, pe, re; cbn [all_events_present ie_frame_event_present
       ie_packet_event_present ie_encoder_event_present andb];
     [destruct (rw =? WAIT_OBJECT_0)|..]|];
    cbn [post].
  all: unfold_teardown; settle_drops.
  all: split; [| split; [| lia]].
  all: try (f_equal; apply map_eq; intros i; lookup_cases).
  all: try (apply map_eq; intros i; lookup_cases).
  all: try reflexivity.
  all: try (symmetry; first [apply Hh | apply Hv]; lia).
  all: try (first [apply Hh | apply Hv]; lia).
Qed.

Lemma post_and {A} (o : Outcome A) (Q Q' : A -> World -> Prop) :
  post o Q -> post o Q' -> post o (fun a w => Q a w /\ Q' a w).
Proof. destruct o; simpl; auto. Qed.

Lemma holds_nothing_cleared c : holds_nothing (cleared c).
Proof. repeat split. Qed.

(** What the mapping phase followed by [Shutdown] leaves, for a client that
    entered it holding only the section and possibly a process. *)
Lemma Initialize_mapped_then_Shutdown env w :
  ids_fresh w ->
  m_sharedMemory (self w) <> nullptr ->
  m_sharedPtr (self w) = nullptr ->
  m_frameReadyEvent (self w) = nullptr ->
  m_packetReadyEvent (self w) = nullptr ->
  m_encoderReadyEvent (self w) = nullptr ->
  exists b w1,
    Initialize_mapped env w = Ok b w1 /\
    Shutdown w1 = Ok tt (after_Shutdown w1) /\
    handles (after_Shutdown w1)
      = drop (m_encoderProcess (self w)) (delete (m_sharedMemory (self w)) (handles w)) /\
    views (after_Shutdown w1) = views w /\
    (next_id w <= next_id w1)%positive.
Proof.
  intros Hfresh Hsm Hptr Hf Hpk He.
  pose proof (post_and _ _ _ (Initialize_mapped_pointer_valid env w)
                (Initialize_mapped_released env w Hfresh Hsm Hptr Hf Hpk He)) as Hpost.
  destruct (Initialize_mapped env w) as [b w1|]; [| contradiction].
  destruct Hpost as (Hp & Hh & Hv & Hn).
  exists b, w1. split; [reflexivity|]. split; [apply Shutdown_after; exact Hp|].
  auto.
Qed.

Lemma Initialize_then_Shutdown width height codec env w :
  ids_fresh w -> holds_nothing (self w) ->
  exists b w1,
    Initialize width height codec env w = Ok b w1 /\
    Shutdown w1 = Ok tt (after_Shutdown w1) /\
    handles (after_Shutdown w1) = handles w /\
    views (after_Shutdown w1) = views w /\
    (next_id w <= next_id w1)%positive.
Proof.
  intros Hfresh ((Hptr & Hsm & Hf & Hpk & He) & Hproc).
  destruct w as [[sm ptr fr pr er proc wd ht cd conn] hs vs n r l].
  cbn [self m_sharedMemory m_sharedPtr m_frameReadyEvent m_packetReadyEvent
       m_encoderReadyEvent m_encoderProcess] in Hsm, Hptr, Hf, Hpk, He, Hproc.
  subst sm ptr fr pr er proc.
  assert (Hh : forall k, (n <= k)%positive -> hs !! Z.pos k = None)
    by (intros k Hk; apply (ids_fresh_handles _ k Hfresh Hk)).
  assert (Hv : forall k, (n <= k)%positive -> vs !! Z.pos k = None)
    by (intros k Hk; apply (ids_fresh_views _ k Hfresh Hk)).
  Initialize_cases width height codec env
    (mkWorld (mkClient nullptr nullptr nullptr nullptr nullptr nullptr wd ht cd conn)
       hs vs n r l).
  - match goal with |- context [Initialize_mapped env ?w1] =>
      destruct (Initialize_mapped_then_Shutdown env w1) as (b & w2 & Hrun & Hsd & Hhs & Hvs & Hn)
    end; try reflexivity.
    { intros k Hk. cbn [next_id handles views] in *. split.
      - rewrite lookup_insert_ne by lia. apply Hh. lia.
      - apply Hv. lia. }
    { discriminate. }
    exists b, w2. split; [exact Hrun|]. split; [exact Hsd|].
    rewrite Hhs, Hvs. cbn [next_id] in Hn.
    split; [| split; [reflexivity | cbn [next_id]; lia]].
    unfold_teardown. settle_drops. apply delete_insert_id. apply Hh. lia.
  - eexists _, _. split; [reflexivity|].
    split; [apply Shutdown_after, pointer_valid_null; reflexivity|].
    unfold_teardown. settle_drops. cbn [launch_events].
    split; [| split; [reflexivity | lia]].
    apply map_eq; intros i; lookup_cases; try reflexivity;
      symmetry; apply Hh; lia.
  - match goal with |- context [Initialize_mapped env ?w1] =>
      destruct (Initialize_mapped_then_Shutdown env w1) as (b & w2 & Hrun & Hsd & Hhs & Hvs & Hn)
    end; try reflexivity.
    { intros k' Hk'. cbn [next_id handles views] in *. split.
      - unfold launched_handles. cbn [next_id handles]. lookup_cases. apply Hh. lia.
      - apply Hv. lia. }
    { discriminate. }
    exists b, w2. split; [exact Hrun|]. split; [exact Hsd|].
    rewrite Hhs, Hvs. cbn [next_id] in Hn.
    split; [| split; [reflexivity | cbn [next_id]; lia]].
    unfold_teardown. settle_drops.
    apply map_eq; intros i; lookup_cases; try reflexivity;
      symmetry; apply Hh; lia.
  - eexists _, _. split; [reflexivity|].
    split; [apply Shutdown_after, pointer_valid_null; reflexivity|].
    unfold_teardown. settle_drops. split; [| split; [reflexivity | lia]]. reflexivity.
  - eexists _, _. split; [reflexivity|].
    split; [apply Shutdown_after, pointer_valid_null; reflexivity|].
    unfold_teardown. settle_drops. split; [| split; [reflexivity | lia]]. reflexivity.
Qed.

(** X4. A connection attempt followed by [Shutdown] (or by the destructor,
    which calls it) gives back everything it took.  For a client that holds
    nothing, in a process whose unused handle values are free, [Initialize]
    followed by [Shutdown] leaves exactly the handles and views that were
    open before, whatever happened in between: attach or launch, success or
    failure at any step.  The client again holds nothing, so the cycle can be
    repeated. *)
Theorem Initialize_then_Shutdown_restores_handles width height codec env w :
  ids_fresh w -> holds_nothing (self w) ->
  exists b w1 w2,
    Initialize width height codec env w = Ok b w1 /\
    EncoderIpcClient_destructor w1 = Ok tt w2 /\
    Shutdown w1 = Ok tt w2 /\
    handles w2 = handles w /\ views w2 = views w /\
    holds_nothing (self w2) /\ IsConnected (self w2) = false /\ ids_fresh w2.
Proof.
  intros Hfresh Hnone.
  destruct (Initialize_then_Shutdown width height codec env w Hfresh Hnone)
    as (b & w1 & Hrun & Hsd & Hhs & Hvs & Hn).
  exists b, w1, (after_Shutdown w1).
  split; [exact Hrun|]. split; [exact Hsd|]. split; [exact Hsd|].
  split; [exact Hhs|]. split; [exact Hvs|].
  split; [apply holds_nothing_cleared|]. split; [reflexivity|].
  intros k Hk. rewrite Hhs, Hvs. apply Hfresh.
  cbn [next_id after_Shutdown] in Hk. lia.
Qed.

Lemma ids_fresh_fresh_world r : ids_fresh (fresh_world r).
Proof. intros k _. split; apply lookup_empty. Qed.

Lemma Initialize_then_Shutdown_restores_handles_witness :
  exists b w1 w2,
    Initialize 1920 1080 "h264" env_ready_timeout (fresh_world zero_region) = Ok b w1 /\
    Shutdown w1 = Ok tt w2 /\
    handles w2 = ∅ /\ views w2 = ∅.
Proof.
  destruct (Initialize_then_Shutdown_restores_handles 1920 1080 "h264" env_ready_timeout
              (fresh_world zero_region) (ids_fresh_fresh_world zero_region))
    as (b & w1 & w2 & Hrun & _ & Hsd & Hhs & Hvs & _).
  - repeat split.
  - exists b, w1, w2. repeat split; assumption.
Defined.


(** * What is left open *)

Lemma drop_lookup_ne {X} k (m : gmap Z X) j : k <> j -> drop k m !! j = m !! j.
Proof.
  intros H. unfold drop. destruct (k =? nullptr); [reflexivity|].
  apply lookup_delete_ne. exact H.
Qed.

Lemma Shutdown_handles_other c hs h :
  ~ In h (held_handles c) -> Shutdown_handles c hs !! h = hs !! h.
Proof.
  unfold held_handles, Shutdown_handles. cbn [In]. intros H.
  rewrite !drop_lookup_ne by (intros E; apply H; rewrite E; tauto).
  reflexivity.
Qed.

Lemma open_handle_not_fresh w h o k :
  ids_fresh w -> handles w !! h = Some o -> (next_id w <= k)%positive -> h <> Z.pos k.
Proof.
  intros Hfresh Hopen Hk ->. rewrite (ids_fresh_handles w k Hfresh Hk) in Hopen. discriminate.
Qed.

Lemma mapped_view_not_fresh w p s k :
  ids_fresh w -> views w !! p = Some s -> (next_id w <= k)%positive -> p <> Z.pos k.
Proof.
  intros Hfresh Hopen Hk ->. rewrite (ids_fresh_views w k Hfresh Hk) in Hopen. discriminate.
Qed.

(** X5. [LaunchEncoderProcess] stores the handle of the process it starts
    in [m_encoderProcess] without closing the handle stored there before.  If
    the client already held an open process handle, that handle stays open,
    no member refers to it any more, and a later [Shutdown] does not close
    it. *)
Theorem LaunchEncoderProcess_orphans_previous_process env w o :
  ids_fresh w -> pointer_valid w ->
  ie_encoder_exists env = true -> ie_process_created env = true ->
  handles w !! m_encoderProcess (self w) = Some o ->
  ~ In (m_encoderProcess (self w)) (channel_handles (self w)) ->
  exists w1 w2,
    LaunchEncoderProcess env w = Ok true w1 /\
    ~ In (m_encoderProcess (self w)) (held_handles (self w1)) /\
    handles w1 !! m_encoderProcess (self w) = Some o /\
    Shutdown w1 = Ok tt w2 /\
    holds_nothing (self w2) /\
    handles w2 !! m_encoderProcess (self w) = Some o.
Proof.
  intros Hfresh Hp Hexists Hcreated Hopen Hother.
  pose proof (open_handle_not_fresh w _ o (next_id w) Hfresh Hopen) as Hne0.
  pose proof (open_handle_not_fresh w _ o (Pos.succ (next_id w)) Hfresh Hopen) as Hne1.
  assert (H0 : m_encoderProcess (self w) <> Z.pos (next_id w)) by (apply Hne0; lia).
  assert (H1 : m_encoderProcess (self w) <> Z.pos (Pos.succ (next_id w))) by (apply Hne1; lia).
  rewrite LaunchEncoderProcess_run. cbv zeta. rewrite Hexists, Hcreated. cbn [negb].
  assert (Hheld : ~ In (m_encoderProcess (self w))
                    (held_handles (set_encoderProcess (Z.pos (next_id w)) (self w)))).
  { unfold held_handles, channel_handles in *. cbn [In] in *. norm.
    intros [E | [E | [E | [E | [E | []]]]]]; try (apply Hother; tauto).
    apply H0. symmetry. exact E. }
  assert (Hstill : delete (Z.pos (Pos.succ (next_id w)))
                     (<[Z.pos (Pos.succ (next_id w)) := KThread]>
                        (<[Z.pos (next_id w) :=
                             KProcess (encoder_cmdline env (m_width (self w))
                                         (m_height (self w)) (m_codec (self w)))]>
                           (handles w))) !! m_encoderProcess (self w) = Some o).
  { rewrite lookup_delete_ne by congruence.
    rewrite !lookup_insert_ne by congruence. exact Hopen. }
  eexists _, _. split; [reflexivity|]. norm.
  split; [exact Hheld|]. split; [exact Hstill|].
  split; [apply Shutdown_after; unfold pointer_valid; norm; exact Hp|].
  split; [apply holds_nothing_cleared|].
  unfold after_Shutdown. norm.
  rewrite Shutdown_handles_other by exact Hheld. exact Hstill.
Qed.

Lemma ids_fresh_stalled_world : ids_fresh stalled_world.
Proof.
  intros k Hk.
  change (next_id stalled_world) with 3%positive in Hk.
  change (handles stalled_world) with
    (launched_handles env_never_appears 1920 1080 "h264" (fresh_world zero_region)).
  change (views stalled_world) with (∅ : gmap Z HANDLE).
  split; [| apply lookup_empty].
  unfold launched_handles. cbn [next_id handles fresh_world].
  lookup_cases. apply lookup_empty.
Qed.

Lemma LaunchEncoderProcess_orphans_previous_process_witness :
  exists w1 w2,
    LaunchEncoderProcess env_launches stalled_world = Ok true w1 /\
    Shutdown w1 = Ok tt w2 /\
    holds_nothing (self w2) /\
    is_Some (handles w2 !! 1).
Proof.
  destruct (LaunchEncoderProcess_orphans_previous_process env_launches stalled_world
              (KProcess (launch_cmdline env_never_appears 1920 1080 "h264")))
    as (w1 & w2 & Hrun & _ & _ & Hsd & Hnone & Hopen).
  - exact ids_fresh_stalled_world.
  - apply pointer_valid_null. vm_compute. reflexivity.
  - reflexivity.
  - reflexivity.
  - vm_compute. reflexivity.
  - vm_compute. intros [H | [H | [H | [H | []]]]]; discriminate.
  - exists w1, w2. split; [exact Hrun|]. split; [exact Hsd|]. split; [exact Hnone|].
    eexists. exact Hopen.
Defined.


Lemma all_events_present_true env :
  all_events_present env = true ->
  ie_frame_event_present env = true /\ ie_packet_event_present env = true /\
  ie_encoder_event_present env = true.
Proof.
  unfold all_events_present.
  destruct (ie_frame_event_present env), (ie_packet_event_present env),
    (ie_encoder_event_present env); intros H; try discriminate H; auto.
Qed.

(** The world in which a client that attached at once and found everything
    in place returns from [Initialize]. *)
Lemma Initialize_attach_connects width height codec env w :
  env_connects env ->
  Initialize width height codec env w =
    Ok true
       (mkWorld
          (set_connected true
             (set_encoderReadyEvent (Z.pos (Pos.succ (Pos.succ (Pos.succ (Pos.succ (next_id w))))))
                (set_packetReadyEvent (Z.pos (Pos.succ (Pos.succ (Pos.succ (next_id w)))))
                   (set_frameReadyEvent (Z.pos (Pos.succ (Pos.succ (next_id w))))
                      (set_sharedPtr (Z.pos (Pos.succ (next_id w)))
                         (set_sharedMemory (Z.pos (next_id w))
                            (configured width height codec (self w))))))))
          (<[Z.pos (Pos.succ (Pos.succ (Pos.succ (Pos.succ (next_id w))))) :=
               KEvent ENCODER_READY_EVENT]>
             (<[Z.pos (Pos.succ (Pos.succ (Pos.succ (next_id w)))) := KEvent PACKET_READY_EVENT]>
                (<[Z.pos (Pos.succ (Pos.succ (next_id w))) := KEvent FRAME_READY_EVENT]>
                   (<[Z.pos (next_id w) := KSection SHARED_MEM_NAME]> (handles w)))))
          (<[Z.pos (Pos.succ (next_id w)) := Z.pos (next_id w)]> (views w))
          (Pos.succ (Pos.succ (Pos.succ (Pos.succ (Pos.succ (next_id w))))))
          (region w)
          (log w ++ [EvOpenFileMappingW SHARED_MEM_NAME;
                     EvMapViewOfFile (Z.pos (next_id w));
                     EvOpenEventW FRAME_READY_EVENT;
                     EvOpenEventW PACKET_READY_EVENT;
                     EvOpenEventW ENCODER_READY_EVENT;
                     EvWaitForSingleObject
                       (Z.pos (Pos.succ (Pos.succ (Pos.succ (Pos.succ (next_id w))))))
                       default_ready_timeout_ms])).
Proof.
  intros (Hpresent & Hmap & Hall & Hwait).
  destruct (all_events_present_true env Hall) as (Hf & Hpk & He).
  rewrite (Initialize_attach width height codec env w Hpresent).
  rewrite Initialize_mapped_run. cbn [self handles m_sharedMemory set_sharedMemory].
  rewrite lookup_insert_eq, Hmap, Hall, Hwait. cbn [is_section andb Z.eqb WAIT_OBJECT_0].
  destruct w as [c hs vs n r l].
  destruct env as [rp mp ee pc ra vm fe pe re rw].
  cbn [ie_frame_event_present ie_packet_event_present ie_encoder_event_present] in Hf, Hpk, He.
  subst fe pe re.
  unfold_teardown. rewrite <- !app_assoc. reflexivity.
Qed.

(** X6. [Initialize] does not release the channel of a client that is
    already connected before it connects again.  Called on a connected
    client, with the region and the events in place and the readiness wait
    answered, it succeeds and connects again with a new view and new handles;
    the old view stays mapped and the old section and event handles stay
    open, no member refers to them any more, and a later [Shutdown] releases
    the new ones only. *)
Theorem Initialize_on_connected_client_orphans_channel width height codec env w :
  Connected w -> ids_fresh w -> env_connects env ->
  ~ In (m_encoderProcess (self w)) (channel_handles (self w)) ->
  exists w1 w2,
    Initialize width height codec env w = Ok true w1 /\
    Connected w1 /\
    m_sharedPtr (self w1) <> m_sharedPtr (self w) /\
    (forall h, In h (channel_handles (self w)) -> is_Some (handles w !! h) ->
               ~ In h (held_handles (self w1))) /\
    Shutdown w1 = Ok tt w2 /\
    holds_nothing (self w2) /\
    is_Some (views w2 !! m_sharedPtr (self w)) /\
    is_event (handles w2 !! m_frameReadyEvent (self w)) = true /\
    is_event (handles w2 !! m_packetReadyEvent (self w)) = true /\
    is_event (handles w2 !! m_encoderReadyEvent (self w)) = true /\
    (forall h, In h (channel_handles (self w)) -> is_Some (handles w !! h) ->
               handles w2 !! h = handles w !! h).
Proof.
  intros HC Hfresh Henv Hproc.
  pose proof (Initialize_attach_connects width height codec env w Henv) as Hrun.
  pose proof (Initialize_success_Connected _ _ _ _ _ _ Hrun) as HC1.
  pose proof HC as [Hc Hnz [s Hview] Hf Hp He].
  assert (Hnew : forall h, is_Some (handles w !! h) ->
                   forall k, (next_id w <= k)%positive -> h <> Z.pos k).
  { intros h [o Ho] k Hk. eapply open_handle_not_fresh; eauto. }
  assert (Hheld : forall h, In h (channel_handles (self w)) -> is_Some (handles w !! h) ->
                    ~ In h (held_handles
                              (set_connected true
                                 (set_encoderReadyEvent (Z.pos (Pos.succ (Pos.succ (Pos.succ (Pos.succ (next_id w))))))
                                    (set_packetReadyEvent (Z.pos (Pos.succ (Pos.succ (Pos.succ (next_id w)))))
                                       (set_frameReadyEvent (Z.pos (Pos.succ (Pos.succ (next_id w))))
                                          (set_sharedPtr (Z.pos (Pos.succ (next_id w)))
                                             (set_sharedMemory (Z.pos (next_id w))
                                                (configured width height codec (self w)))))))))).
  { intros h Hin Hopen. unfold held_handles, configured. norm. cbn [In].
    intros [E | [E | [E | [E | [E | []]]]]].
    - apply (Hnew h Hopen (next_id w)); [lia | auto].
    - apply (Hnew h Hopen (Pos.succ (Pos.succ (next_id w)))); [lia | auto].
    - apply (Hnew h Hopen (Pos.succ (Pos.succ (Pos.succ (next_id w))))); [lia | auto].
    - apply (Hnew h Hopen (Pos.succ (Pos.succ (Pos.succ (Pos.succ (next_id w)))))); [lia | auto].
    - apply Hproc. rewrite E. exact Hin. }
  assert (Hkept : forall h, In h (channel_handles (self w)) -> is_Some (handles w !! h) ->
            Shutdown_handles
              (set_connected true
                 (set_encoderReadyEvent (Z.pos (Pos.succ (Pos.succ (Pos.succ (Pos.succ (next_id w))))))
                    (set_packetReadyEvent (Z.pos (Pos.succ (Pos.succ (Pos.succ (next_id w)))))
                       (set_frameReadyEvent (Z.pos (Pos.succ (Pos.succ (next_id w))))
                          (set_sharedPtr (Z.pos (Pos.succ (next_id w)))
                             (set_sharedMemory (Z.pos (next_id w))
                                (configured width height codec (self w))))))))
              (<[Z.pos (Pos.succ (Pos.succ (Pos.succ (Pos.succ (next_id w))))) :=
                   KEvent ENCODER_READY_EVENT]>
                 (<[Z.pos (Pos.succ (Pos.succ (Pos.succ (next_id w)))) := KEvent PACKET_READY_EVENT]>
                    (<[Z.pos (Pos.succ (Pos.succ (next_id w))) := KEvent FRAME_READY_EVENT]>
                       (<[Z.pos (next_id w) := KSection SHARED_MEM_NAME]> (handles w))))) !! h
            = handles w !! h).
  { intros h Hin Hopen. rewrite Shutdown_handles_other by (apply Hheld; assumption).
    rewrite !lookup_insert_ne; [reflexivity | | | |];
      intros E; symmetry in E; revert E; apply (Hnew h Hopen); lia. }
  assert (Hev : forall h, is_event (handles w !! h) = true -> is_Some (handles w !! h)).
  { intros h. destruct (handles w !! h); [eauto | discriminate]. }
  eexists _, _. split; [exact Hrun|]. split; [exact HC1|]. norm.
  split.
  { intros E. symmetry in E. revert E.
    apply (mapped_view_not_fresh w _ s (Pos.succ (next_id w)) Hfresh Hview). lia. }
  split; [exact Hheld|].
  split; [apply Shutdown_after; destruct HC1; unfold pointer_valid; auto|].
  split; [apply holds_nothing_cleared|].
  unfold after_Shutdown. norm. unfold channel_handles in Hkept. cbn [In] in Hkept.
  split.
  { rewrite drop_pos, lookup_delete_ne, lookup_insert_ne, Hview; eauto;
      intros E; symmetry in E; revert E;
      apply (mapped_view_not_fresh w _ s (Pos.succ (next_id w)) Hfresh Hview); lia. }
  split; [rewrite Hkept by auto; exact Hf|].
  split; [rewrite Hkept by auto; exact Hp|].
  split; [rewrite Hkept by auto; exact He|].
  exact Hkept.
Qed.


Lemma env_attach_connects : env_connects env_attach.
Proof. repeat split. Qed.

Lemma connected_world_eq :
  Initialize 1920 1080 "h264" env_attach (fresh_world zero_region) = Ok true connected_world.
Proof.
  unfold connected_world.
  rewrite (Initialize_attach_connects 1920 1080 "h264" env_attach (fresh_world zero_region)
             env_attach_connects).
  reflexivity.
Qed.

Lemma Initialize_attach_connects_fresh width height codec env w w' :
  env_connects env -> ids_fresh w ->
  Initialize width height codec env w = Ok true w' -> ids_fresh w'.
Proof.
  intros Henv Hfresh Hrun.
  rewrite (Initialize_attach_connects width height codec env w Henv) in Hrun.
  injection Hrun as <-. intros k Hk. cbn [next_id handles views] in *. split.
  - rewrite !lookup_insert_ne by lia. apply Hfresh. lia.
  - rewrite lookup_insert_ne by lia. apply Hfresh. lia.
Qed.

Lemma ids_fresh_connected_world : ids_fresh connected_world.
Proof.
  exact (Initialize_attach_connects_fresh _ _ _ _ _ _ env_attach_connects
           (ids_fresh_fresh_world zero_region) connected_world_eq).
Qed.

Lemma Initialize_on_connected_client_orphans_channel_witness :
  exists w1 w2,
    Initialize 1920 1080 "h264" env_attach connected_world = Ok true w1 /\
    Shutdown w1 = Ok tt w2 /\
    holds_nothing (self w2) /\
    is_Some (views w2 !! m_sharedPtr (self connected_world)) /\
    is_event (handles w2 !! m_frameReadyEvent (self connected_world)) = true.
Proof.
  destruct (Initialize_on_connected_client_orphans_channel 1920 1080 "h264" env_attach
              connected_world connected_world_Connected ids_fresh_connected_world
              env_attach_connects)
    as (w1 & w2 & Hrun & _ & _ & _ & Hsd & Hnone & Hview & Hfr & _).
  - vm_compute. intros [H | [H | [H | [H | []]]]]; discriminate.
  - exists w1, w2. split; [exact Hrun|]. split; [exact Hsd|]. split; [exact Hnone|].
    split; [exact Hview | exact Hfr].
Defined.

(** * What a successful [Initialize] leaves behind *)

Lemma Initialize_mapped_success_wiring env w w' name k :
  Initialize_mapped env w = Ok true w' ->
  m_sharedMemory (self w) = Z.pos k -> (k < next_id w)%positive ->
  handles w !! Z.pos k = Some (KSection name) ->
  m_sharedMemory (self w') = Z.pos k /\
  handles w' !! m_sharedMemory (self w') = Some (KSection name) /\
  views w' !! m_sharedPtr (self w') = Some (m_sharedMemory (self w')) /\
  handles w' !! m_frameReadyEvent (self w') = Some (KEvent FRAME_READY_EVENT) /\
  handles w' !! m_packetReadyEvent (self w') = Some (KEvent PACKET_READY_EVENT) /\
  handles w' !! m_encoderReadyEvent (self w') = Some (KEvent ENCODER_READY_EVENT) /\
  NoDup [m_sharedMemory (self w'); m_frameReadyEvent (self w');
         m_packetReadyEvent (self w'); m_encoderReadyEvent (self w')] /\
  m_width (self w') = m_width (self w) /\ m_height (self w') = m_height (self w) /\
  m_codec (self w') = m_codec (self w) /\
  m_encoderProcess (self w') = m_encoderProcess (self w) /\
  region w' = region w /\
  log w' = log w ++ [EvMapViewOfFile (Z.pos k);
                     EvOpenEventW FRAME_READY_EVENT;
                     EvOpenEventW PACKET_READY_EVENT;
                     EvOpenEventW ENCODER_READY_EVENT;
                     EvWaitForSingleObject (m_encoderReadyEvent (self w'))
                       default_ready_timeout_ms].
Proof.
  intros Hrun Hsm Hk Hsec. rewrite Initialize_mapped_run in Hrun.
  destruct (_ && _); [| discriminate].
  destruct (all_events_present env) eqn:Hall; [| discriminate].
  destruct (_ =? _); [| discriminate].
  injection Hrun as <-.
  destruct (all_events_present_true env Hall) as (Hf & Hpk & He).
  destruct w as [[sm ptr fr pr er proc wd ht cd conn] hs vs n r l].
  destruct env as [rp mp ee pc ra vm fe pe re rw].
  cbn [ie_frame_event_present ie_packet_event_present ie_encoder_event_present] in Hf, Hpk, He.
  cbn [self m_sharedMemory next_id handles] in Hsm, Hk, Hsec.
  subst fe pe re sm.
  unfold_teardown.
  split; [reflexivity|].
  split; [lookup_cases; exact Hsec|].
  split; [lookup_cases; reflexivity|].
  split; [lookup_cases; reflexivity|].
  split; [lookup_cases; reflexivity|].
  split; [lookup_cases; reflexivity|].
  split.
  { repeat (apply NoDup_cons; split;
              [intros Hin; rewrite ?elem_of_cons, elem_of_nil in Hin; lia|]).
    apply NoDup_nil. exact I. }
  repeat (split; [reflexivity|]).
  rewrite <- !app_assoc. reflexivity.
Qed.

Lemma log_ends_with_wait (l : list Event) a b c d e :
  exists before, l ++ [a; b; c; d; e] = before ++ [e].
Proof. exists (l ++ [a; b; c; d]). rewrite <- app_assoc. reflexivity. Qed.

(** X7. After a successful [Initialize] every member refers to the kernel
    object it is named after: [m_sharedMemory] to the section
    ALVR_ARM64_ENCODER, [m_sharedPtr] to a view of that section, and the
    three event members to the frame-ready, packet-ready and encoder-ready
    events respectively, all four handles distinct.  The requested width,
    height and codec are recorded, the shared region has not been written,
    and the last thing the call did is the 5000 ms wait on the encoder-ready
    event. *)
Theorem Initialize_success_wiring width height codec env w w' :
  Initialize width height codec env w = Ok true w' ->
  handles w' !! m_sharedMemory (self w') = Some (KSection SHARED_MEM_NAME) /\
  views w' !! m_sharedPtr (self w') = Some (m_sharedMemory (self w')) /\
  handles w' !! m_frameReadyEvent (self w') = Some (KEvent FRAME_READY_EVENT) /\
  handles w' !! m_packetReadyEvent (self w') = Some (KEvent PACKET_READY_EVENT) /\
  handles w' !! m_encoderReadyEvent (self w') = Some (KEvent ENCODER_READY_EVENT) /\
  NoDup [m_sharedMemory (self w'); m_frameReadyEvent (self w');
         m_packetReadyEvent (self w'); m_encoderReadyEvent (self w')] /\
  m_width (self w') = to_uint32 width /\ m_height (self w') = to_uint32 height /\
  m_codec (self w') = codec /\
  IsConnected (self w') = true /\
  region w' = region w /\
  exists before,
    log w' = before ++ [EvWaitForSingleObject (m_encoderReadyEvent (self w'))
                          default_ready_timeout_ms].
Proof.
  intros Hrun.
  pose proof (Initialize_success_Connected _ _ _ _ _ _ Hrun) as [Hc _ _ _ _ _].
  revert Hrun.
  Initialize_cases width height codec env w; intros Hrun; try discriminate Hrun.
  - eapply Initialize_mapped_success_wiring in Hrun;
      [| reflexivity | cbn [next_id]; lia | cbn [handles]; apply lookup_insert_eq].
    destruct Hrun as (_ & Hsm & Hv & Hf & Hpk & He & Hnd & Hw & Hh & Hcd & _ & Hr & Hl).
    split; [exact Hsm|]. split; [exact Hv|]. split; [exact Hf|].
    split; [exact Hpk|]. split; [exact He|]. split; [exact Hnd|].
    split; [exact Hw|]. split; [exact Hh|]. split; [exact Hcd|].
    split; [exact Hc|]. split; [exact Hr|].
    rewrite Hl. cbn [log]. apply log_ends_with_wait.
  - eapply Initialize_mapped_success_wiring in Hrun;
      [| reflexivity | cbn [next_id]; lia | cbn [handles]; apply lookup_insert_eq].
    destruct Hrun as (_ & Hsm & Hv & Hf & Hpk & He & Hnd & Hw & Hh & Hcd & _ & Hr & Hl).
    split; [exact Hsm|]. split; [exact Hv|]. split; [exact Hf|].
    split; [exact Hpk|]. split; [exact He|]. split; [exact Hnd|].
    split; [exact Hw|]. split; [exact Hh|]. split; [exact Hcd|].
    split; [exact Hc|]. split; [exact Hr|].
    rewrite Hl. cbn [log]. apply log_ends_with_wait.
Qed.

Lemma Initialize_success_wiring_witness :
  handles connected_world !! m_frameReadyEvent (self connected_world)
    = Some (KEvent FRAME_READY_EVENT) /\
  views connected_world !! m_sharedPtr (self connected_world)
    = Some (m_sharedMemory (self connected_world)).
Proof.
  destruct (Initialize_success_wiring 1920 1080 "h264" env_attach (fresh_world zero_region)
              connected_world connected_world_eq)
    as (_ & Hv & Hf & _).
  split; assumption.
Defined.


(** * [VideoEncoderSW]: setting up the out-of-process encoder *)

Lemma seq_Done {A B} (c : VideoEncoderSW.SW A) (k : A -> VideoEncoderSW.SW B) s a s' :
  c s = VideoEncoderSW.Done a s' -> VideoEncoderSW.seq c k s = k a s'.
Proof. unfold VideoEncoderSW.seq. intros ->. reflexivity. Qed.

Lemma ensures_weaken {A} (r : VideoEncoderSW.Result A) (Q Q' : A -> VideoEncoderSW.State -> Prop) :
  VideoEncoderSW.ensures r Q -> (forall a s, Q a s -> Q' a s) -> VideoEncoderSW.ensures r Q'.
Proof. destruct r; simpl; auto. Qed.

Ltac sw_norm :=
  cbn [VideoEncoderSW.object VideoEncoderSW.process VideoEncoderSW.calls
       VideoEncoderSW.m_codecContext VideoEncoderSW.m_transferredFrame
       VideoEncoderSW.m_encoderFrame VideoEncoderSW.m_scalerContext
       VideoEncoderSW.m_stagingTex VideoEncoderSW.m_stagingTexDesc
       VideoEncoderSW.m_stagingTexMap VideoEncoderSW.m_codec
       VideoEncoderSW.m_refreshRate VideoEncoderSW.m_renderWidth
       VideoEncoderSW.m_renderHeight VideoEncoderSW.m_bitrateInMBits
       VideoEncoderSW.m_arm64Encoder VideoEncoderSW.m_useArm64Encoder
       VideoEncoderSW.set_codecContext VideoEncoderSW.set_transferredFrame
       VideoEncoderSW.set_encoderFrame VideoEncoderSW.set_scalerContext
       VideoEncoderSW.set_stagingTex VideoEncoderSW.set_stagingTexDesc
       VideoEncoderSW.set_stagingTexMap VideoEncoderSW.set_arm64Encoder
       VideoEncoderSW.set_useArm64Encoder negb andb orb].

Ltac sw_step := erewrite seq_Done; [| reflexivity]; sw_norm.

Lemma client_Ok {A} (c : M A) s a w :
  c (VideoEncoderSW.process s) = Ok a w ->
  VideoEncoderSW.client c s
    = VideoEncoderSW.Done a (VideoEncoderSW.mkState (VideoEncoderSW.object s) w
                               (VideoEncoderSW.calls s)).
Proof. unfold VideoEncoderSW.client. intros ->. reflexivity. Qed.

Lemma TryInitArm64Encoder_not_arm64 arch codec env s :
  arch <> VideoEncoderSW.PROCESSOR_ARCHITECTURE_ARM64 ->
  VideoEncoderSW.TryInitArm64Encoder arch codec env s
    = VideoEncoderSW.Done false
        (VideoEncoderSW.mkState (VideoEncoderSW.object s) (VideoEncoderSW.process s)
           (VideoEncoderSW.calls s ++ [VideoEncoderSW.GetNativeSystemInfo])).
Proof.
  intros Harch. unfold VideoEncoderSW.TryInitArm64Encoder. sw_step.
  destruct (Z.eqb_spec arch VideoEncoderSW.PROCESSOR_ARCHITECTURE_ARM64); [contradiction|].
  reflexivity.
Qed.

(** The process as the new client finds it. *)
Lemma TryInitArm64Encoder_arm64 codec env s b w1 :
  VideoEncoderSW.m_arm64Encoder (VideoEncoderSW.object s) = false ->
  Initialize (VideoEncoderSW.m_renderWidth (VideoEncoderSW.object s))
    (VideoEncoderSW.m_renderHeight (VideoEncoderSW.object s)) codec env
    (with_self (fun _ => new_client) (VideoEncoderSW.process s)) = Ok b w1 ->
  pointer_valid w1 ->
  VideoEncoderSW.TryInitArm64Encoder VideoEncoderSW.PROCESSOR_ARCHITECTURE_ARM64 codec env s
    = VideoEncoderSW.Done b
        (VideoEncoderSW.mkState
           (if b then VideoEncoderSW.set_useArm64Encoder true
                        (VideoEncoderSW.set_arm64Encoder true (VideoEncoderSW.object s))
            else VideoEncoderSW.object s)
           (if b then w1 else after_Shutdown w1)
           (VideoEncoderSW.calls s ++ [VideoEncoderSW.GetNativeSystemInfo])).
Proof.
  intros Habsent Hrun Hp. unfold VideoEncoderSW.TryInitArm64Encoder. sw_step.
  cbn [Z.eqb VideoEncoderSW.PROCESSOR_ARCHITECTURE_ARM64 Pos.eqb negb].
  unfold VideoEncoderSW.make_unique_arm64Encoder.
  destruct s as [o w cs]. sw_norm. cbn [VideoEncoderSW.object] in Habsent.
  unfold VideoEncoderSW.seq at 1. unfold VideoEncoderSW.seq at 1.
  unfold VideoEncoderSW.me at 1. sw_norm. rewrite Habsent.
  unfold VideoEncoderSW.seq at 1. unfold VideoEncoderSW.pure at 1.
  unfold VideoEncoderSW.seq at 1. unfold VideoEncoderSW.client at 1.
  cbn [VideoEncoderSW.process assign].
  unfold VideoEncoderSW.update at 1. sw_norm.
  unfold VideoEncoderSW.seq at 1. unfold VideoEncoderSW.me at 1. sw_norm.
  unfold VideoEncoderSW.seq at 1. unfold VideoEncoderSW.client at 1. sw_norm.
  cbn [VideoEncoderSW.process VideoEncoderSW.object] in Hrun. rewrite Hrun.
  destruct b.
  - reflexivity.
  - unfold VideoEncoderSW.reset_arm64Encoder.
    unfold VideoEncoderSW.seq at 1. unfold VideoEncoderSW.seq at 1.
    unfold VideoEncoderSW.me at 1. sw_norm.
    unfold VideoEncoderSW.seq at 1. unfold VideoEncoderSW.client at 1. sw_norm.
    unfold EncoderIpcClient_destructor. rewrite (Shutdown_after w1 Hp).
    unfold VideoEncoderSW.update, VideoEncoderSW.pure. sw_norm.
    destruct o. cbn in Habsent. subst. reflexivity.
Qed.


Lemma pointer_valid_new_client w : pointer_valid (with_self (fun _ => new_client) w).
Proof. apply pointer_valid_null. reflexivity. Qed.

Lemma Initialize_returns width height codec env w :
  pointer_valid w ->
  exists b w1, Initialize width height codec env w = Ok b w1 /\ pointer_valid w1 /\
               (b = true -> Connected w1) /\
               (m_connected (self w) = false -> b = false -> m_connected (self w1) = false).
Proof.
  intros Hp. pose proof (Initialize_post width height codec env w) as Hpost.
  destruct (Initialize width height codec env w) as [b w1|]; [| contradiction].
  destruct Hpost as (Hp1 & Htrue & Hfalse & _).
  exists b, w1. split; [reflexivity|]. split; [auto|].
  split; [intros Hb; apply (Htrue Hb) | auto].
Qed.

Lemma new_state_stalls :
  VideoEncoderSW.TryInitArm64Encoder VideoEncoderSW.PROCESSOR_ARCHITECTURE_ARM64
    "h264" env_never_appears VideoEncoderSW.new_state
  = VideoEncoderSW.Done false
      (VideoEncoderSW.mkState (VideoEncoderSW.object VideoEncoderSW.new_state)
         (after_Shutdown stalled_world) [VideoEncoderSW.GetNativeSystemInfo]).
Proof.
  apply (TryInitArm64Encoder_arm64 "h264" env_never_appears VideoEncoderSW.new_state
           false stalled_world eq_refl).
  - unfold stalled_world.
    change (with_self (fun _ => new_client) (VideoEncoderSW.process VideoEncoderSW.new_state))
      with (fresh_world zero_region).
    change (VideoEncoderSW.m_renderWidth (VideoEncoderSW.object VideoEncoderSW.new_state))
      with 1920.
    change (VideoEncoderSW.m_renderHeight (VideoEncoderSW.object VideoEncoderSW.new_state))
      with 1080.
    rewrite Initialize_poll_exhausted by reflexivity. reflexivity.
  - apply pointer_valid_null. vm_compute. reflexivity.
Qed.

(** * [VideoEncoderSW]: sending a frame through the client *)

Lemma SendFrame_true w data data_size width height row_pitch ts idr fmt signal_ok w' :
  pointer_valid w ->
  SendFrame data data_size width height row_pitch ts idr fmt signal_ok w = Ok true w' ->
  m_connected (self w) = true /\ m_sharedPtr (self w) <> nullptr /\
  data_size <= FRAME_BUFFER_SIZE /\ signal_ok = true /\
  is_event (handles w !! m_frameReadyEvent (self w)) = true /\
  w' = mkWorld (self w) (handles w) (views w) (next_id w)
         (mkShared
            (sent_header (frame_header (region w)) data_size width height row_pitch ts idr fmt)
            (packet_header (region w))
            (memcpy (frame_buffer (region w)) data data_size)
            (packet_buffer (region w)))
         (log w ++ SendFrame_events (m_frameReadyEvent (self w))
                     data_size width height row_pitch ts idr fmt).
Proof.
  intros Hp Hrun.
  destruct (m_connected (self w)) eqn:Hc.
  2:{ rewrite SendFrame_refused in Hrun by auto. discriminate. }
  destruct (Z.eq_dec (m_sharedPtr (self w)) nullptr) as [Hnull|Hnz].
  { rewrite SendFrame_refused in Hrun by auto. discriminate. }
  destruct (Z_lt_le_dec FRAME_BUFFER_SIZE data_size) as [Hbig|Hfit].
  { rewrite SendFrame_oversize in Hrun by assumption. discriminate. }
  rewrite SendFrame_run in Hrun by auto.
  destruct (is_event (handles w !! m_frameReadyEvent (self w))); [| discriminate].
  injection Hrun as -> <-. auto 10.
Qed.

Lemma ReceivePacket_true w out t res out' w' :
  pointer_valid w ->
  ReceivePacket out t res w = Ok (true, out') w' ->
  out' = received_packet (region w) /\
  ph_size (packet_header (region w)) <= PACKET_BUFFER_SIZE /\
  w' = log_event [EvWaitForSingleObject (m_packetReadyEvent (self w)) t;
                  EvLoadPacketHeader PH_size;
                  EvCopyFromPacketBuffer (ph_size (packet_header (region w)));
                  EvLoadPacketHeader PH_timestamp_ns;
                  EvLoadPacketHeader PH_is_idr] w.
Proof.
  intros Hp Hrun.
  destruct (m_connected (self w)) eqn:Hc.
  2:{ rewrite ReceivePacket_refused in Hrun by auto. discriminate. }
  destruct (Z.eq_dec (m_sharedPtr (self w)) nullptr) as [Hnull|Hnz].
  { rewrite ReceivePacket_refused in Hrun by auto. discriminate. }
  rewrite ReceivePacket_run in Hrun by auto. cbv zeta in Hrun.
  destruct (negb _); [discriminate|].
  destruct (Z.ltb_spec PACKET_BUFFER_SIZE (ph_size (packet_header (region w))));
    [discriminate|].
  injection Hrun as <- <-. auto.
Qed.

Lemma ReceivePacket_false w out t res out' w' :
  pointer_valid w ->
  ReceivePacket out t res w = Ok (false, out') w' ->
  out' = out /\ self w' = self w /\ handles w' = handles w /\ views w' = views w /\
  region w' = region w.
Proof.
  intros Hp Hrun.
  destruct (m_connected (self w)) eqn:Hc.
  2:{ rewrite ReceivePacket_refused in Hrun by auto. injection Hrun as <- <-. auto. }
  destruct (Z.eq_dec (m_sharedPtr (self w)) nullptr) as [Hnull|Hnz].
  { rewrite ReceivePacket_refused in Hrun by auto. injection Hrun as <- <-. auto. }
  rewrite ReceivePacket_run in Hrun by auto. cbv zeta in Hrun.
  destruct (negb _); [injection Hrun as <- <-; auto|].
  destruct (_ <? _); [injection Hrun as <- <-; auto | discriminate].
Qed.

Lemma state_eta s :
  VideoEncoderSW.mkState (VideoEncoderSW.object s) (VideoEncoderSW.process s)
    (VideoEncoderSW.calls s) = s.
Proof. destruct s; reflexivity. Qed.

(** No usable client: nothing happens. *)
Lemma TransmitViaArm64_unusable data size ts idr env s :
  VideoEncoderSW.m_arm64Encoder (VideoEncoderSW.object s) = false \/
  IsConnected (self (VideoEncoderSW.process s)) = false ->
  VideoEncoderSW.TransmitViaArm64 data size ts idr env s = VideoEncoderSW.Done false s.
Proof.
  intros H. unfold VideoEncoderSW.TransmitViaArm64.
  unfold VideoEncoderSW.seq at 1. unfold VideoEncoderSW.me at 1.
  destruct (VideoEncoderSW.m_arm64Encoder (VideoEncoderSW.object s)) eqn:Hown;
    cbn [negb].
  - destruct H as [H|H]; [discriminate|].
    unfold VideoEncoderSW.seq at 1. unfold VideoEncoderSW.seq at 1.
    unfold VideoEncoderSW.client at 1, this at 1. rewrite H.
    unfold VideoEncoderSW.pure. cbn [negb]. rewrite state_eta. reflexivity.
  - reflexivity.
Qed.

(** A usable client: the frame goes to [SendFrame], and the packet, if the
    frame was sent, comes from [ReceivePacket]. *)
Lemma TransmitViaArm64_usable data size ts idr env s :
  VideoEncoderSW.m_arm64Encoder (VideoEncoderSW.object s) = true ->
  IsConnected (self (VideoEncoderSW.process s)) = true ->
  let o := VideoEncoderSW.object s in
  VideoEncoderSW.TransmitViaArm64 data size ts idr env s =
    match SendFrame data size
            (VideoEncoderSW.Width (VideoEncoderSW.m_stagingTexDesc o))
            (VideoEncoderSW.Height (VideoEncoderSW.m_stagingTexDesc o))
            (VideoEncoderSW.RowPitch (VideoEncoderSW.m_stagingTexMap o)) ts idr
            (VideoEncoderSW.select_format (VideoEncoderSW.te_settings env))
            (VideoEncoderSW.te_signal_ok env) (VideoEncoderSW.process s) with
    | Crash f => VideoEncoderSW.Faulted f
    | Ok false w1 =>
        VideoEncoderSW.Done false (VideoEncoderSW.mkState o w1 (VideoEncoderSW.calls s))
    | Ok true w1 =>
        match ReceivePacket
                (mkPacketOut [] (VideoEncoderSW.te_pts env) (VideoEncoderSW.te_isIdr env))
                default_receive_timeout_ms (VideoEncoderSW.te_packet_wait env) w1 with
        | Crash f => VideoEncoderSW.Faulted f
        | Ok (false, _) w2 =>
            VideoEncoderSW.Done false (VideoEncoderSW.mkState o w2 (VideoEncoderSW.calls s))
        | Ok (true, packet) w2 =>
            VideoEncoderSW.Done true
              (VideoEncoderSW.mkState o w2
                 (VideoEncoderSW.calls s ++
                    [VideoEncoderSW.ParseFrameNals (VideoEncoderSW.m_codec o)
                       (packet_data packet) (Z.of_nat (length (packet_data packet)))
                       (timestamp_ns packet) (is_idr packet)]))
        end
    end.
Proof.
  intros Hown Hconn. cbv zeta. unfold VideoEncoderSW.TransmitViaArm64.
  unfold VideoEncoderSW.seq at 1. unfold VideoEncoderSW.me at 1. rewrite Hown.
  cbn [negb].
  unfold VideoEncoderSW.seq at 1. unfold VideoEncoderSW.seq at 1.
  unfold VideoEncoderSW.client at 1, this at 1. rewrite Hconn.
  unfold VideoEncoderSW.pure at 1. cbn [negb]. cbv zeta.
  unfold VideoEncoderSW.seq at 1. unfold VideoEncoderSW.client at 1. sw_norm.
  destruct (SendFrame _ _ _ _ _ _ _ _ _ (VideoEncoderSW.process s)) as [[] w1|];
    [| reflexivity | reflexivity].
  cbn [negb].
  unfold VideoEncoderSW.seq at 1. unfold VideoEncoderSW.client at 1. sw_norm.
  destruct (ReceivePacket _ _ _ w1) as [[[] packet] w2|]; reflexivity.
Qed.


Lemma received_packet_at_most_capacity r :
  ph_size (packet_header r) <= PACKET_BUFFER_SIZE ->
  Z.of_nat (length (packet_data (received_packet r))) <= PACKET_BUFFER_SIZE.
Proof.
  intros H. unfold received_packet. cbn [packet_data]. rewrite bytes_of_length.
  assert (0 <= PACKET_BUFFER_SIZE) by (vm_compute; discriminate). lia.
Qed.

Lemma TransmitViaArm64_effect data size ts idr env s :
  (VideoEncoderSW.m_arm64Encoder (VideoEncoderSW.object s) = true ->
   pointer_valid (VideoEncoderSW.process s)) ->
  exists b s',
    VideoEncoderSW.TransmitViaArm64 data size ts idr env s = VideoEncoderSW.Done b s' /\
    VideoEncoderSW.object s' = VideoEncoderSW.object s /\
    self (VideoEncoderSW.process s') = self (VideoEncoderSW.process s) /\
    handles (VideoEncoderSW.process s') = handles (VideoEncoderSW.process s) /\
    views (VideoEncoderSW.process s') = views (VideoEncoderSW.process s) /\
    (b = false -> VideoEncoderSW.calls s' = VideoEncoderSW.calls s) /\
    (b = true ->
     let packet := received_packet (region (VideoEncoderSW.process s')) in
     VideoEncoderSW.calls s'
       = VideoEncoderSW.calls s ++
           [VideoEncoderSW.ParseFrameNals (VideoEncoderSW.m_codec (VideoEncoderSW.object s))
              (packet_data packet) (Z.of_nat (length (packet_data packet)))
              (timestamp_ns packet) (is_idr packet)] /\
     Z.of_nat (length (packet_data packet)) <= PACKET_BUFFER_SIZE).
Proof.
  intros Hvalid.
  destruct (VideoEncoderSW.m_arm64Encoder (VideoEncoderSW.object s)) eqn:Hown.
  2:{ exists false, s. split; [apply TransmitViaArm64_unusable; auto|].
      do 4 (split; [reflexivity|]). split; [reflexivity | discriminate]. }
  destruct (IsConnected (self (VideoEncoderSW.process s))) eqn:Hconn.
  2:{ exists false, s. split; [apply TransmitViaArm64_unusable; auto|].
      do 4 (split; [reflexivity|]). split; [reflexivity | discriminate]. }
  pose proof (Hvalid eq_refl) as Hp.
  rewrite (TransmitViaArm64_usable data size ts idr env s Hown Hconn). cbv zeta.
  match goal with |- context [SendFrame ?d ?n ?w ?h ?rp ?t ?i ?f ?ok ?wd] =>
    pose proof (SendFrame_post wd d n w h rp t i f ok Hp) as Hpost;
    destruct (SendFrame d n w h rp t i f ok wd) as [sent w1|] eqn:Hsend; [| contradiction]
  end.
  destruct Hpost as (Hs1 & Hh1 & Hv1 & _).
  destruct sent.
  2:{ eexists false, _. split; [reflexivity|]. sw_norm.
      do 4 (split; [first [reflexivity | assumption]|]).
      split; [reflexivity | discriminate]. }
  assert (Hp1 : pointer_valid w1) by (eapply pointer_valid_same; eauto).
  match goal with |- context [ReceivePacket ?out ?t ?res w1] =>
    pose proof (ReceivePacket_post w1 out t res Hp1) as Hpost;
    destruct (ReceivePacket out t res w1) as [[received packet] w2|] eqn:Hrecv;
      [| contradiction]
  end.
  destruct Hpost as (Hs2 & Hh2 & Hv2 & Hr2).
  destruct received.
  - apply ReceivePacket_true in Hrecv as (Hpacket & Hsize & _); [| exact Hp1].
    eexists true, _. split; [reflexivity|]. sw_norm.
    split; [reflexivity|]. split; [congruence|]. split; [congruence|].
    split; [congruence|]. split; [discriminate|].
    intros _. cbv zeta. rewrite Hr2, <- Hpacket.
    split; [reflexivity|].
    rewrite Hpacket. apply received_packet_at_most_capacity. exact Hsize.
  - eexists false, _. split; [reflexivity|]. sw_norm.
    split; [reflexivity|]. split; [congruence|]. split; [congruence|].
    split; [congruence|]. split; [reflexivity | discriminate].
Qed.

(** X10. [TransmitViaArm64] hands a packet to the NAL parser exactly when
    it returns true, and then exactly once: with the codec of the object, a
    length that is the length of the buffer and at most [PACKET_BUFFER_SIZE],
    and the bytes, timestamp and IDR flag that [ReceivePacket] read from the
    packet slot, never the indeterminate initial values of its locals.  When
    it returns false the parser has not been called.  Either way the object
    and the client's members, handles and views are as before. *)
Theorem TransmitViaArm64_parser_call data size ts idr env s :
  (VideoEncoderSW.m_arm64Encoder (VideoEncoderSW.object s) = true ->
   pointer_valid (VideoEncoderSW.process s)) ->
  exists b s',
    VideoEncoderSW.TransmitViaArm64 data size ts idr env s = VideoEncoderSW.Done b s' /\
    VideoEncoderSW.object s' = VideoEncoderSW.object s /\
    self (VideoEncoderSW.process s') = self (VideoEncoderSW.process s) /\
    handles (VideoEncoderSW.process s') = handles (VideoEncoderSW.process s) /\
    views (VideoEncoderSW.process s') = views (VideoEncoderSW.process s) /\
    (b = false -> VideoEncoderSW.calls s' = VideoEncoderSW.calls s) /\
    (b = true ->
     let packet := received_packet (region (VideoEncoderSW.process s')) in
     VideoEncoderSW.calls s'
       = VideoEncoderSW.calls s ++
           [VideoEncoderSW.ParseFrameNals (VideoEncoderSW.m_codec (VideoEncoderSW.object s))
              (packet_data packet) (Z.of_nat (length (packet_data packet)))
              (timestamp_ns packet) (is_idr packet)] /\
     Z.of_nat (length (packet_data packet)) <= PACKET_BUFFER_SIZE).
Proof. apply TransmitViaArm64_effect. Qed.


Lemma streaming_state_Connected : Connected (VideoEncoderSW.process VideoEncoderSW.streaming_state).
Proof. apply Connected_with_region. exact connected_world_Connected. Qed.

Lemma streaming_state_transmits :
  VideoEncoderSW.ensures
    (VideoEncoderSW.TransmitViaArm64 (fun _ => x2a) 8 1000 true VideoEncoderSW.env_sdr
       VideoEncoderSW.streaming_state)
    (fun b s' =>
       b = true /\
       VideoEncoderSW.calls s'
         = [VideoEncoderSW.ParseFrameNals VideoEncoderSW.ALVR_CODEC_H264
              [x0a; x0b; x0c] 3 1000 true]).
Proof. vm_compute. split; reflexivity. Qed.

Lemma TransmitViaArm64_parser_call_witness :
  exists s',
    VideoEncoderSW.TransmitViaArm64 (fun _ => x2a) 8 1000 true VideoEncoderSW.env_sdr
      VideoEncoderSW.streaming_state = VideoEncoderSW.Done true s' /\
    VideoEncoderSW.calls s'
      = [VideoEncoderSW.ParseFrameNals VideoEncoderSW.ALVR_CODEC_H264
           [x0a; x0b; x0c] 3 1000 true].
Proof.
  destruct (TransmitViaArm64_parser_call (fun _ => x2a) 8 1000 true VideoEncoderSW.env_sdr
              VideoEncoderSW.streaming_state)
    as (b & s' & Hrun & _).
  - intros _. destruct streaming_state_Connected. unfold pointer_valid. auto.
  - pose proof streaming_state_transmits as H. rewrite Hrun in H. destruct H as [-> Hcalls].
    exists s'. split; [exact Hrun | exact Hcalls].
Defined.

(** X11. With a connected client and a frame that fits the frame buffer,
    [TransmitViaArm64] always publishes the frame, whether or not a packet
    comes back: the header carries the width and height of the staging
    texture, its row pitch, the target timestamp, the IDR request and the
    size, with [shutdown] cleared; the pixel format byte is 0 (RGBA) without
    HDR, 1 (NV12) with HDR and 2 (P010) with HDR and the 10-bit encoder; the
    payload is in the frame buffer.  It returns true exactly when the
    frame-ready event could be raised, the wait for the packet (1000 ms)
    succeeded and the packet header announces no more than
    [PACKET_BUFFER_SIZE] bytes. *)
Theorem TransmitViaArm64_publishes_frame data size ts idr env s :
  VideoEncoderSW.m_arm64Encoder (VideoEncoderSW.object s) = true ->
  Connected (VideoEncoderSW.process s) ->
  let desc := VideoEncoderSW.m_stagingTexDesc (VideoEncoderSW.object s) in
  let pitch := VideoEncoderSW.RowPitch (VideoEncoderSW.m_stagingTexMap (VideoEncoderSW.object s)) in
  is_uint32 size -> is_uint32 (VideoEncoderSW.Width desc) ->
  is_uint32 (VideoEncoderSW.Height desc) -> is_uint32 pitch -> is_uint64 ts ->
  size <= FRAME_BUFFER_SIZE ->
  exists s',
    VideoEncoderSW.TransmitViaArm64 data size ts idr env s
      = VideoEncoderSW.Done
          (VideoEncoderSW.te_signal_ok env
           && (VideoEncoderSW.te_packet_wait env =? WAIT_OBJECT_0)
           && (ph_size (packet_header (region (VideoEncoderSW.process s')))
               <=? PACKET_BUFFER_SIZE)) s' /\
    frame_header (region (VideoEncoderSW.process s'))
      = mkFrameHeader (VideoEncoderSW.Width desc) (VideoEncoderSW.Height desc) ts
          (if idr then 1 else 0)
          (VideoEncoderSW.pixel_format_code (VideoEncoderSW.te_settings env))
          pitch size 0
          (fh_padding (frame_header (region (VideoEncoderSW.process s)))) /\
    (forall i, 0 <= i < size ->
               frame_buffer (region (VideoEncoderSW.process s')) i = data i) /\
    packet_header (region (VideoEncoderSW.process s'))
      = packet_header (region (VideoEncoderSW.process s)) /\
    packet_buffer (region (VideoEncoderSW.process s'))
      = packet_buffer (region (VideoEncoderSW.process s)) /\
    Connected (VideoEncoderSW.process s').
Proof.
  intros Hown HC desc pitch Hsize Hw Hh Hpitch Hts Hfit.
  assert (HC' : forall r l,
             Connected (mkWorld (self (VideoEncoderSW.process s))
                          (handles (VideoEncoderSW.process s))
                          (views (VideoEncoderSW.process s))
                          (next_id (VideoEncoderSW.process s)) r l)).
  { intros r l. eapply Connected_same; [| | | exact HC]; reflexivity. }
  pose proof HC as [Hc Hnz Hv Hf Hp He].
  rewrite (TransmitViaArm64_usable data size ts idr env s Hown Hc). cbv zeta. fold desc pitch.
  rewrite SendFrame_run by assumption. rewrite Hf.
  assert (Hhdr : sent_header (frame_header (region (VideoEncoderSW.process s))) size
                   (VideoEncoderSW.Width desc) (VideoEncoderSW.Height desc) pitch ts idr
                   (VideoEncoderSW.select_format (VideoEncoderSW.te_settings env))
                 = mkFrameHeader (VideoEncoderSW.Width desc) (VideoEncoderSW.Height desc) ts
                     (if idr then 1 else 0)
                     (VideoEncoderSW.pixel_format_code (VideoEncoderSW.te_settings env))
                     pitch size 0
                     (fh_padding (frame_header (region (VideoEncoderSW.process s))))).
  { unfold sent_header. rewrite !to_uint32_id, to_uint64_id by assumption.
    unfold VideoEncoderSW.select_format, VideoEncoderSW.pixel_format_code.
    destruct (VideoEncoderSW.te_settings env) as [[] []]; reflexivity. }
  assert (Hcopy : forall i, 0 <= i < size ->
            memcpy (frame_buffer (region (VideoEncoderSW.process s))) data size i = data i).
  { intros i Hi. unfold memcpy.
    destruct (Z.leb_spec 0 i); [| lia]. destruct (Z.ltb_spec i size); [| lia]. reflexivity. }
  destruct (VideoEncoderSW.te_signal_ok env).
  2:{ eexists. split; [reflexivity|]. sw_norm. norm.
      split; [exact Hhdr|]. split; [exact Hcopy|]. split; [reflexivity|].
      split; [reflexivity|]. apply HC'. }
  rewrite ReceivePacket_run by assumption. cbv zeta. norm.
  unfold is_event in Hp. unfold wait_value.
  destruct (handles (VideoEncoderSW.process s) !! m_packetReadyEvent (self (VideoEncoderSW.process s)))
    as [[]|]; try discriminate.
  destruct (VideoEncoderSW.te_packet_wait env =? WAIT_OBJECT_0); cbn [negb andb].
  2:{ eexists. split; [reflexivity|]. sw_norm. norm.
      split; [exact Hhdr|]. split; [exact Hcopy|]. split; [reflexivity|].
      split; [reflexivity|]. apply HC'. }
  destruct (Z.ltb_spec PACKET_BUFFER_SIZE
              (ph_size (packet_header (region (VideoEncoderSW.process s))))) as [Hbig|Hok].
  - match goal with |- exists s', VideoEncoderSW.Done _ ?st = _ /\ _ => exists st end.
    sw_norm. unfold log_event. norm.
    destruct (Z.leb_spec (ph_size (packet_header (region (VideoEncoderSW.process s))))
                PACKET_BUFFER_SIZE); [lia|].
    split; [reflexivity|].
    split; [exact Hhdr|]. split; [exact Hcopy|]. split; [reflexivity|].
    split; [reflexivity|]. apply HC'.
  - match goal with |- exists s', VideoEncoderSW.Done _ ?st = _ /\ _ => exists st end.
    sw_norm. unfold log_event. norm.
    destruct (Z.leb_spec (ph_size (packet_header (region (VideoEncoderSW.process s))))
                PACKET_BUFFER_SIZE); [| lia].
    split; [reflexivity|].
    split; [exact Hhdr|]. split; [exact Hcopy|]. split; [reflexivity|].
    split; [reflexivity|]. apply HC'.
Qed.

Lemma TransmitViaArm64_publishes_frame_witness :
  exists s',
    VideoEncoderSW.TransmitViaArm64 (fun _ => x2a) 8 1000 true VideoEncoderSW.env_sdr
      VideoEncoderSW.streaming_state = VideoEncoderSW.Done true s' /\
    fh_pixel_format (frame_header (region (VideoEncoderSW.process s'))) = 0 /\
    fh_data_size (frame_header (region (VideoEncoderSW.process s'))) = 8 /\
    frame_buffer (region (VideoEncoderSW.process s')) 7 = x2a.
Proof.
  destruct (TransmitViaArm64_publishes_frame (fun _ => x2a) 8 1000 true VideoEncoderSW.env_sdr
              VideoEncoderSW.streaming_state eq_refl streaming_state_Connected)
    as (s' & Hrun & Hhdr & Hcopy & Hph & _);
    [ vm_compute; split; [discriminate | reflexivity]
    | vm_compute; split; [discriminate | reflexivity]
    | vm_compute; split; [discriminate | reflexivity]
    | vm_compute; split; [discriminate | reflexivity]
    | unfold is_uint64; lia
    | vm_compute; discriminate | ].
  exists s'. rewrite Hph in Hrun. rewrite Hhdr.
  split; [exact Hrun|]. split; [reflexivity|]. split; [reflexivity|].
  apply Hcopy. lia.
Defined.


(** * [VideoEncoderSW]: a frame on the out-of-process path *)

Lemma TransmitViaArm64_oversize data size ts idr env s :
  FRAME_BUFFER_SIZE < size ->
  VideoEncoderSW.TransmitViaArm64 data size ts idr env s = VideoEncoderSW.Done false s.
Proof.
  intros Hbig.
  destruct (VideoEncoderSW.m_arm64Encoder (VideoEncoderSW.object s)) eqn:Hown.
  2:{ apply TransmitViaArm64_unusable. auto. }
  destruct (IsConnected (self (VideoEncoderSW.process s))) eqn:Hconn.
  2:{ apply TransmitViaArm64_unusable. auto. }
  rewrite (TransmitViaArm64_usable data size ts idr env s Hown Hconn). cbv zeta.
  rewrite SendFrame_oversize by exact Hbig. rewrite state_eta. reflexivity.
Qed.

Lemma seq_assoc {A B C} (c : VideoEncoderSW.SW A) (k1 : A -> VideoEncoderSW.SW B)
    (k2 : B -> VideoEncoderSW.SW C) s :
  VideoEncoderSW.seq (VideoEncoderSW.seq c k1) k2 s
    = VideoEncoderSW.seq c (fun a => VideoEncoderSW.seq (k1 a) k2) s.
Proof. unfold VideoEncoderSW.seq. destruct (c s); reflexivity. Qed.

Ltac sw_go := repeat rewrite seq_assoc; erewrite seq_Done; [| reflexivity]; sw_norm.

Lemma Transmit_out_of_process in_process pTexture pt ts idr d3d env s :
  VideoEncoderSW.m_useArm64Encoder (VideoEncoderSW.object s) = true ->
  let o1 := VideoEncoderSW.staged pTexture d3d (VideoEncoderSW.object s) in
  let cs1 := VideoEncoderSW.calls s
             ++ VideoEncoderSW.staging_calls pTexture (VideoEncoderSW.object s) in
  let o2 := VideoEncoderSW.set_stagingTexMap (VideoEncoderSW.d3d_mapped d3d) o1 in
  VideoEncoderSW.Transmit in_process pTexture pt ts idr d3d env s =
    if VideoEncoderSW.staging_fails d3d (VideoEncoderSW.object s) then
      VideoEncoderSW.Done tt (VideoEncoderSW.mkState o1 (VideoEncoderSW.process s) cs1)
    else if VideoEncoderSW.FAILED (VideoEncoderSW.d3d_map d3d) then
      VideoEncoderSW.Done tt
        (VideoEncoderSW.mkState o1 (VideoEncoderSW.process s)
           (cs1 ++ [VideoEncoderSW.CopyResource; VideoEncoderSW.Map]))
    else
      match VideoEncoderSW.TransmitViaArm64
              (VideoEncoderSW.pData (VideoEncoderSW.d3d_mapped d3d))
              (VideoEncoderSW.frame_data_size (VideoEncoderSW.te_settings env) o2)
              ts idr env
              (VideoEncoderSW.mkState o2 (VideoEncoderSW.process s)
                 (cs1 ++ [VideoEncoderSW.CopyResource; VideoEncoderSW.Map])) with
      | VideoEncoderSW.Done _ s2 =>
          VideoEncoderSW.Done tt
            (VideoEncoderSW.mkState (VideoEncoderSW.object s2) (VideoEncoderSW.process s2)
               (VideoEncoderSW.calls s2 ++ [VideoEncoderSW.Unmap]))
      | VideoEncoderSW.Faulted f => VideoEncoderSW.Faulted f
      end.
Proof.
  intros Huse. cbv zeta. destruct s as [o w cs]. sw_norm.
  cbn [VideoEncoderSW.object] in Huse.
  unfold VideoEncoderSW.Transmit. sw_step. rewrite Huse.
  unfold VideoEncoderSW.staging_fails, VideoEncoderSW.staged, VideoEncoderSW.staging_calls.
  destruct (VideoEncoderSW.m_stagingTex o) eqn:Htex; cbn [negb andb].
  - sw_go. rewrite app_nil_r.
    unfold VideoEncoderSW.CopyTexture. sw_go. sw_go.
    destruct (VideoEncoderSW.FAILED (VideoEncoderSW.d3d_map d3d)) eqn:Hmap.
    + sw_go. sw_go. rewrite Hmap.
      unfold VideoEncoderSW.pure. rewrite <- app_assoc. reflexivity.
    + sw_go. sw_go. rewrite Hmap. sw_go. rewrite <- app_assoc. cbn [app].
      repeat rewrite seq_assoc. unfold VideoEncoderSW.seq at 1.
      destruct (VideoEncoderSW.TransmitViaArm64 _ _ _ _ _ _) as [b s2|]; [| reflexivity].
      destruct s2. reflexivity.
  - unfold VideoEncoderSW.SetupStagingTexture.
    sw_go. sw_go. sw_go. sw_go. sw_go. sw_go. sw_go.
    fold (VideoEncoderSW.staged_desc pTexture).
    destruct (VideoEncoderSW.FAILED (VideoEncoderSW.d3d_create d3d)); cbn [negb].
    + unfold VideoEncoderSW.pure. rewrite <- app_assoc. reflexivity.
    + unfold VideoEncoderSW.CopyTexture. sw_go. sw_go.
      destruct (VideoEncoderSW.FAILED (VideoEncoderSW.d3d_map d3d)) eqn:Hmap.
      * sw_go. sw_go. rewrite Hmap.
        unfold VideoEncoderSW.pure. rewrite <- !app_assoc. reflexivity.
      * sw_go. sw_go. rewrite Hmap. sw_go. rewrite <- !app_assoc. cbn [app].
        repeat rewrite seq_assoc. unfold VideoEncoderSW.seq at 1.
        destruct (VideoEncoderSW.TransmitViaArm64 _ _ _ _ _ _) as [b s2|]; [| reflexivity].
        destruct s2. reflexivity.
Qed.


(** X12. On the out-of-process path [Transmit] never runs the in-process
    encoder, and it pairs [Map] with [Unmap].  If the staging texture cannot
    be created it stops there; if the texture cannot be mapped it stops after
    [CopyResource] and [Map], without [Unmap]; otherwise it maps, offers the
    frame to the client, lets at most one packet reach the NAL parser and
    calls [Unmap] exactly once at the end, whatever the client did.  A frame
    whose size exceeds [FRAME_BUFFER_SIZE] is dropped without touching the
    process, and still unmapped. *)
Theorem Transmit_maps_and_unmaps in_process pTexture pt ts idr d3d env s :
  VideoEncoderSW.m_useArm64Encoder (VideoEncoderSW.object s) = true ->
  (VideoEncoderSW.m_arm64Encoder (VideoEncoderSW.object s) = true ->
   pointer_valid (VideoEncoderSW.process s)) ->
  let o := VideoEncoderSW.object s in
  let before := VideoEncoderSW.calls s ++ VideoEncoderSW.staging_calls pTexture o in
  exists s',
    VideoEncoderSW.Transmit in_process pTexture pt ts idr d3d env s
      = VideoEncoderSW.Done tt s' /\
    (VideoEncoderSW.staging_fails d3d o = true ->
     VideoEncoderSW.calls s' = before /\
     VideoEncoderSW.process s' = VideoEncoderSW.process s /\
     VideoEncoderSW.m_stagingTex (VideoEncoderSW.object s') = false) /\
    (VideoEncoderSW.staging_fails d3d o = false ->
     VideoEncoderSW.FAILED (VideoEncoderSW.d3d_map d3d) = true ->
     VideoEncoderSW.calls s' = before ++ [VideoEncoderSW.CopyResource; VideoEncoderSW.Map] /\
     VideoEncoderSW.process s' = VideoEncoderSW.process s) /\
    (VideoEncoderSW.staging_fails d3d o = false ->
     VideoEncoderSW.FAILED (VideoEncoderSW.d3d_map d3d) = false ->
     VideoEncoderSW.m_stagingTex (VideoEncoderSW.object s') = true /\
     VideoEncoderSW.m_stagingTexMap (VideoEncoderSW.object s') = VideoEncoderSW.d3d_mapped d3d /\
     exists parsed,
       VideoEncoderSW.calls s'
         = before ++ [VideoEncoderSW.CopyResource; VideoEncoderSW.Map]
             ++ parsed ++ [VideoEncoderSW.Unmap] /\
       (length parsed <= 1)%nat /\
       Forall (fun c => VideoEncoderSW.is_ParseFrameNals c = true) parsed /\
       (FRAME_BUFFER_SIZE
          < VideoEncoderSW.frame_data_size (VideoEncoderSW.te_settings env)
              (VideoEncoderSW.object s') ->
        parsed = [] /\ VideoEncoderSW.process s' = VideoEncoderSW.process s)).
Proof.
  intros Huse Hvalid o before.
  rewrite (Transmit_out_of_process in_process pTexture pt ts idr d3d env s Huse). cbv zeta.
  fold o. fold before.
  destruct (VideoEncoderSW.staging_fails d3d o) eqn:Hstage.
  { eexists. split; [reflexivity|]. sw_norm.
    split; [| split; [discriminate | discriminate]].
    intros _. split; [reflexivity|]. split; [reflexivity|].
    unfold VideoEncoderSW.staging_fails, VideoEncoderSW.staged in *.
    destruct (VideoEncoderSW.m_stagingTex o); [discriminate|].
    cbn [negb andb] in Hstage. rewrite Hstage. reflexivity. }
  assert (Htex : VideoEncoderSW.m_stagingTex (VideoEncoderSW.staged pTexture d3d o) = true).
  { unfold VideoEncoderSW.staging_fails, VideoEncoderSW.staged in *.
    destruct (VideoEncoderSW.m_stagingTex o) eqn:E; [exact E|].
    cbn [negb andb] in Hstage. rewrite Hstage. reflexivity. }
  destruct (VideoEncoderSW.FAILED (VideoEncoderSW.d3d_map d3d)) eqn:Hmap.
  { eexists. split; [reflexivity|]. sw_norm.
    split; [discriminate|]. split; [| discriminate].
    intros _ _. split; reflexivity. }
  match goal with |- context [VideoEncoderSW.TransmitViaArm64 ?d ?n ?t ?i ?e ?st] =>
    destruct (TransmitViaArm64_effect d n t i e st)
      as (b & s2 & Hrun & Hobj & _ & _ & _ & Hfalse & Htrue);
      [ sw_norm; unfold VideoEncoderSW.staged;
        destruct (VideoEncoderSW.m_stagingTex o); exact Hvalid
      | pose proof (TransmitViaArm64_oversize d n t i e st) as Hdrop ]
  end.
  rewrite Hrun. eexists. split; [reflexivity|]. sw_norm.
  split; [discriminate|]. split; [discriminate|].
  intros _ _. rewrite Hobj. sw_norm.
  split; [exact Htex|]. split; [reflexivity|].
  exists (if b
          then [VideoEncoderSW.ParseFrameNals (VideoEncoderSW.m_codec (VideoEncoderSW.object s2))
                  (packet_data (received_packet (region (VideoEncoderSW.process s2))))
                  (Z.of_nat (length (packet_data
                                       (received_packet (region (VideoEncoderSW.process s2))))))
                  (timestamp_ns (received_packet (region (VideoEncoderSW.process s2))))
                  (is_idr (received_packet (region (VideoEncoderSW.process s2))))]
          else []).
  split.
  { destruct b.
    - destruct (Htrue eq_refl) as (Hcalls & _). rewrite Hcalls. sw_norm.
      rewrite Hobj. sw_norm. rewrite <- !app_assoc. reflexivity.
    - rewrite (Hfalse eq_refl). sw_norm. rewrite <- !app_assoc. reflexivity. }
  split; [destruct b; cbn; lia|].
  split; [destruct b; repeat constructor|].
  intros Hbig. rewrite (Hdrop Hbig) in Hrun. injection Hrun as <- <-.
  split; reflexivity.
Qed.

Lemma Transmit_maps_and_unmaps_witness :
  exists s',
    VideoEncoderSW.Transmit (VideoEncoderSW.pure tt)
      (VideoEncoderSW.m_stagingTexDesc (VideoEncoderSW.object VideoEncoderSW.streaming_state))
      0 1000 true
      (VideoEncoderSW.mkD3DEnv VideoEncoderSW.S_OK VideoEncoderSW.E_FAIL
         VideoEncoderSW.blank_mapping)
      VideoEncoderSW.env_sdr VideoEncoderSW.streaming_state = VideoEncoderSW.Done tt s' /\
    VideoEncoderSW.calls s' = [VideoEncoderSW.CopyResource; VideoEncoderSW.Map] /\
    VideoEncoderSW.process s' = VideoEncoderSW.process VideoEncoderSW.streaming_state.
Proof.
  destruct (Transmit_maps_and_unmaps (VideoEncoderSW.pure tt)
              (VideoEncoderSW.m_stagingTexDesc (VideoEncoderSW.object VideoEncoderSW.streaming_state))
              0 1000 true
              (VideoEncoderSW.mkD3DEnv VideoEncoderSW.S_OK VideoEncoderSW.E_FAIL
                 VideoEncoderSW.blank_mapping)
              VideoEncoderSW.env_sdr VideoEncoderSW.streaming_state eq_refl)
    as (s' & Hrun & _ & Hmapfail & _).
  - intros _. destruct streaming_state_Connected. unfold pointer_valid. auto.
  - destruct (Hmapfail eq_refl eq_refl) as (Hcalls & Hproc).
    exists s'. split; [exact Hrun|]. split; [exact Hcalls | exact Hproc].
Defined.


(** * [VideoEncoderSW]: shutting down *)

Lemma client_Shutdown s :
  pointer_valid (VideoEncoderSW.process s) ->
  VideoEncoderSW.client Shutdown s
    = VideoEncoderSW.Done tt
        (VideoEncoderSW.mkState (VideoEncoderSW.object s)
           (after_Shutdown (VideoEncoderSW.process s)) (VideoEncoderSW.calls s)).
Proof. intros Hp. apply client_Ok. apply Shutdown_after. exact Hp. Qed.

Lemma Shutdown_after_Shutdown w : Shutdown (after_Shutdown w) = Ok tt (after_Shutdown w).
Proof.
  rewrite Shutdown_after by apply pointer_valid_after_Shutdown.
  unfold after_Shutdown at 1.
  unfold Shutdown_handles, Shutdown_region, Shutdown_events, announces_shutdown,
    drop, unless_null.
  cbn [self handles views next_id region log after_Shutdown cleared
       m_sharedMemory m_sharedPtr m_frameReadyEvent m_packetReadyEvent
       m_encoderReadyEvent m_encoderProcess m_width m_height m_codec m_connected
       Z.eqb nullptr negb andb app].
  rewrite app_nil_r. reflexivity.
Qed.

Lemma release_client s :
  VideoEncoderSW.m_arm64Encoder (VideoEncoderSW.object s) = true ->
  pointer_valid (VideoEncoderSW.process s) ->
  VideoEncoderSW.seq (VideoEncoderSW.client Shutdown)
    (fun _ => VideoEncoderSW.seq VideoEncoderSW.reset_arm64Encoder
                (fun _ => VideoEncoderSW.update (VideoEncoderSW.set_useArm64Encoder false))) s
  = VideoEncoderSW.Done tt
      (VideoEncoderSW.mkState
         (VideoEncoderSW.set_useArm64Encoder false
            (VideoEncoderSW.set_arm64Encoder false (VideoEncoderSW.object s)))
         (after_Shutdown (VideoEncoderSW.process s)) (VideoEncoderSW.calls s)).
Proof.
  intros Hown Hp.
  erewrite seq_Done; [| apply client_Shutdown; exact Hp].
  unfold VideoEncoderSW.reset_arm64Encoder. sw_go. rewrite Hown.
  erewrite seq_assoc. erewrite seq_Done;
    [| apply client_Ok; unfold EncoderIpcClient_destructor; sw_norm;
       apply Shutdown_after_Shutdown].
  sw_go. reflexivity.
Qed.

Lemma free_block (p : Z) (c : VideoEncoderSW.Call)
    (set : Z -> VideoEncoderSW.Members -> VideoEncoderSW.Members) s :
  (p = nullptr -> set nullptr (VideoEncoderSW.object s) = VideoEncoderSW.object s) ->
  (if negb (p =? nullptr)
   then VideoEncoderSW.seq (VideoEncoderSW.call c) (fun _ => VideoEncoderSW.update (set nullptr))
   else VideoEncoderSW.pure tt) s
  = VideoEncoderSW.Done tt
      (VideoEncoderSW.mkState (set nullptr (VideoEncoderSW.object s)) (VideoEncoderSW.process s)
         (VideoEncoderSW.calls s ++ (if p =? nullptr then [] else [c]))).
Proof.
  intros Hset. destruct (Z.eqb_spec p nullptr) as [E|E]; cbn [negb].
  - rewrite (Hset E), app_nil_r. unfold VideoEncoderSW.pure. rewrite state_eta. reflexivity.
  - reflexivity.
Qed.

Lemma VideoEncoderSW_Shutdown_run s :
  (VideoEncoderSW.m_arm64Encoder (VideoEncoderSW.object s) = true ->
   pointer_valid (VideoEncoderSW.process s)) ->
  VideoEncoderSW.Shutdown s
    = VideoEncoderSW.Done tt
        (VideoEncoderSW.mkState (VideoEncoderSW.released (VideoEncoderSW.object s))
           (if VideoEncoderSW.m_arm64Encoder (VideoEncoderSW.object s)
            then after_Shutdown (VideoEncoderSW.process s)
            else VideoEncoderSW.process s)
           (VideoEncoderSW.calls s ++ VideoEncoderSW.frees (VideoEncoderSW.object s))).
Proof.
  intros Hvalid. unfold VideoEncoderSW.Shutdown.
  destruct s as [[cc tf ef sc tex desc mp cd rr rw rh br own use] w cs].
  sw_norm. sw_step.
  assert (Hfirst :
    (if own
     then VideoEncoderSW.seq (VideoEncoderSW.client Shutdown)
            (fun _ => VideoEncoderSW.seq VideoEncoderSW.reset_arm64Encoder
                        (fun _ => VideoEncoderSW.update
                                    (VideoEncoderSW.set_useArm64Encoder false)))
     else VideoEncoderSW.pure tt)
      (VideoEncoderSW.mkState
         (VideoEncoderSW.mkMembers cc tf ef sc tex desc mp cd rr rw rh br own use) w cs)
    = VideoEncoderSW.Done tt
        (VideoEncoderSW.mkState
           (VideoEncoderSW.mkMembers cc tf ef sc tex desc mp cd rr rw rh br false
              (if own then false else use))
           (if own then after_Shutdown w else w) cs)).
  { destruct own.
    - rewrite release_client; [reflexivity | reflexivity | apply Hvalid; reflexivity].
    - reflexivity. }
  erewrite seq_Done; [| exact Hfirst]. sw_step.
  erewrite seq_Done; [| apply (free_block tf _ VideoEncoderSW.set_transferredFrame);
                        sw_norm; intros ->; reflexivity].
  sw_norm. sw_step.
  erewrite seq_Done; [| apply (free_block ef _ VideoEncoderSW.set_encoderFrame);
                        sw_norm; intros ->; reflexivity].
  sw_norm. sw_step.
  erewrite seq_Done; [| apply (free_block cc _ VideoEncoderSW.set_codecContext);
                        sw_norm; intros ->; reflexivity].
  sw_norm. sw_step.
  rewrite (free_block sc _ VideoEncoderSW.set_scalerContext)
    by (sw_norm; intros ->; reflexivity).
  sw_norm. unfold VideoEncoderSW.released, VideoEncoderSW.frees. sw_norm.
  rewrite <- !app_assoc. reflexivity.
Qed.

(** X13. [VideoEncoderSW::Shutdown] leaves no client and no FFmpeg object
    behind: [m_arm64Encoder] is null and the four FFmpeg pointers are null,
    each freed once if it was set.  If the encoder owned a client, the
    client's [Shutdown] has run and [m_useArm64Encoder] is cleared; the
    second [Shutdown] that the destructor runs when the pointer is reset
    finds nothing to release and makes no system call.  A second
    [VideoEncoderSW::Shutdown] changes nothing. *)
Theorem VideoEncoderSW_Shutdown_releases s :
  (VideoEncoderSW.m_arm64Encoder (VideoEncoderSW.object s) = true ->
   pointer_valid (VideoEncoderSW.process s)) ->
  exists s',
    VideoEncoderSW.Shutdown s = VideoEncoderSW.Done tt s' /\
    VideoEncoderSW.m_arm64Encoder (VideoEncoderSW.object s') = false /\
    VideoEncoderSW.m_transferredFrame (VideoEncoderSW.object s') = nullptr /\
    VideoEncoderSW.m_encoderFrame (VideoEncoderSW.object s') = nullptr /\
    VideoEncoderSW.m_codecContext (VideoEncoderSW.object s') = nullptr /\
    VideoEncoderSW.m_scalerContext (VideoEncoderSW.object s') = nullptr /\
    VideoEncoderSW.calls s'
      = VideoEncoderSW.calls s ++ VideoEncoderSW.frees (VideoEncoderSW.object s) /\
    (VideoEncoderSW.m_arm64Encoder (VideoEncoderSW.object s) = true ->
     VideoEncoderSW.m_useArm64Encoder (VideoEncoderSW.object s') = false /\
     holds_nothing (self (VideoEncoderSW.process s')) /\
     IsConnected (self (VideoEncoderSW.process s')) = false /\
     log (VideoEncoderSW.process s')
       = log (VideoEncoderSW.process s)
           ++ Shutdown_events (self (VideoEncoderSW.process s))) /\
    (VideoEncoderSW.m_arm64Encoder (VideoEncoderSW.object s) = false ->
     VideoEncoderSW.process s' = VideoEncoderSW.process s) /\
    VideoEncoderSW.Shutdown s' = VideoEncoderSW.Done tt s'.
Proof.
  intros Hvalid. eexists. split; [apply VideoEncoderSW_Shutdown_run; exact Hvalid|].
  sw_norm. unfold VideoEncoderSW.released. sw_norm.
  do 5 (split; [reflexivity|]). split; [reflexivity|].
  split.
  { intros Hown. rewrite Hown. split; [reflexivity|].
    split; [apply holds_nothing_cleared|]. split; reflexivity. }
  split; [intros Hown; rewrite Hown; reflexivity|].
  rewrite VideoEncoderSW_Shutdown_run by (sw_norm; discriminate).
  sw_norm. unfold VideoEncoderSW.frees. sw_norm. cbn [Z.eqb nullptr app].
  rewrite app_nil_r. reflexivity.
Qed.

Lemma VideoEncoderSW_Shutdown_releases_witness :
  exists s',
    VideoEncoderSW.Shutdown VideoEncoderSW.streaming_state = VideoEncoderSW.Done tt s' /\
    VideoEncoderSW.m_arm64Encoder (VideoEncoderSW.object s') = false /\
    VideoEncoderSW.m_useArm64Encoder (VideoEncoderSW.object s') = false /\
    holds_nothing (self (VideoEncoderSW.process s')) /\
    VideoEncoderSW.Shutdown s' = VideoEncoderSW.Done tt s'.
Proof.
  destruct (VideoEncoderSW_Shutdown_releases VideoEncoderSW.streaming_state)
    as (s' & Hrun & Hown & _ & _ & _ & _ & _ & Howned & _ & Hagain).
  - intros _. destruct streaming_state_Connected. unfold pointer_valid. auto.
  - destruct (Howned eq_refl) as (Huse & Hnone & _).
    exists s'. split; [exact Hrun|]. split; [exact Hown|]. split; [exact Huse|].
    split; [exact Hnone | exact Hagain].
Defined.


(** * [VideoEncoderSW]: what holds on the out-of-process path *)

Lemma TryInitArm64Encoder_arm64_owned codec env s b w1 :
  VideoEncoderSW.m_arm64Encoder (VideoEncoderSW.object s) = true ->
  pointer_valid (VideoEncoderSW.process s) ->
  Initialize (VideoEncoderSW.m_renderWidth (VideoEncoderSW.object s))
    (VideoEncoderSW.m_renderHeight (VideoEncoderSW.object s)) codec env
    (with_self (fun _ => new_client) (after_Shutdown (VideoEncoderSW.process s))) = Ok b w1 ->
  pointer_valid w1 ->
  VideoEncoderSW.TryInitArm64Encoder VideoEncoderSW.PROCESSOR_ARCHITECTURE_ARM64 codec env s
    = VideoEncoderSW.Done b
        (VideoEncoderSW.mkState
           (if b then VideoEncoderSW.set_useArm64Encoder true (VideoEncoderSW.object s)
            else VideoEncoderSW.set_arm64Encoder false (VideoEncoderSW.object s))
           (if b then w1 else after_Shutdown w1)
           (VideoEncoderSW.calls s ++ [VideoEncoderSW.GetNativeSystemInfo])).
Proof.
  intros Hown Hp Hrun Hp1. unfold VideoEncoderSW.TryInitArm64Encoder. sw_step.
  cbn [Z.eqb VideoEncoderSW.PROCESSOR_ARCHITECTURE_ARM64 Pos.eqb negb].
  unfold VideoEncoderSW.make_unique_arm64Encoder.
  destruct s as [[cc tf ef sc tex desc mp cd rr rw rh br own use] w cs].
  cbn [VideoEncoderSW.object VideoEncoderSW.m_arm64Encoder VideoEncoderSW.process
       VideoEncoderSW.m_renderWidth VideoEncoderSW.m_renderHeight] in *.
  subst own. sw_go.
  repeat rewrite seq_assoc.
  erewrite seq_Done; [| apply client_Ok; unfold EncoderIpcClient_destructor; sw_norm;
                        apply Shutdown_after; exact Hp].
  sw_go. sw_go. sw_go.
  repeat rewrite seq_assoc.
  erewrite seq_Done; [| apply client_Ok; sw_norm; exact Hrun].
  destruct b.
  - sw_go. reflexivity.
  - unfold VideoEncoderSW.reset_arm64Encoder. sw_go.
    repeat rewrite seq_assoc.
    erewrite seq_Done; [| apply client_Ok; unfold EncoderIpcClient_destructor; sw_norm;
                          apply Shutdown_after; exact Hp1].
    sw_go. reflexivity.
Qed.

Lemma parser_call_ok_other (c : VideoEncoderSW.Call) :
  VideoEncoderSW.is_ParseFrameNals c = false -> VideoEncoderSW.parser_call_ok c.
Proof. destruct c; intros H; try discriminate H; exact I. Qed.

Lemma invariant_update o' extra o w cs :
  VideoEncoderSW.m_arm64Encoder o' = VideoEncoderSW.m_arm64Encoder o ->
  VideoEncoderSW.m_useArm64Encoder o' = VideoEncoderSW.m_useArm64Encoder o ->
  VideoEncoderSW.m_codec o' = VideoEncoderSW.m_codec o ->
  Forall VideoEncoderSW.parser_call_ok extra ->
  VideoEncoderSW.invariant (VideoEncoderSW.mkState o w cs) ->
  VideoEncoderSW.invariant (VideoEncoderSW.mkState o' w (cs ++ extra)).
Proof.
  intros Hown Huse Hcodec Hextra (Hconn & Hcd & Hcalls).
  unfold VideoEncoderSW.invariant in *. sw_norm.
  cbn [VideoEncoderSW.object VideoEncoderSW.process VideoEncoderSW.calls] in *.
  rewrite Hown, Huse, Hcodec.
  split; [exact Hconn|]. split; [exact Hcd|].
  apply Forall_app. split; assumption.
Qed.

Lemma TryInitArm64Encoder_invariant arch codec env s :
  VideoEncoderSW.invariant s ->
  VideoEncoderSW.ensures (VideoEncoderSW.TryInitArm64Encoder arch codec env s)
    (fun _ s' => VideoEncoderSW.invariant s').
Proof.
  intros Hinv. pose proof Hinv as (Hconn & Hcd & Hcalls).
  assert (Hsys : Forall VideoEncoderSW.parser_call_ok [VideoEncoderSW.GetNativeSystemInfo])
    by (repeat constructor).
  destruct (Z.eq_dec arch VideoEncoderSW.PROCESSOR_ARCHITECTURE_ARM64) as [-> | Harch].
  2:{ rewrite TryInitArm64Encoder_not_arm64 by exact Harch. cbn [VideoEncoderSW.ensures].
      destruct s as [o w cs]. apply (invariant_update o _ o); auto. }
  destruct (VideoEncoderSW.m_arm64Encoder (VideoEncoderSW.object s)) eqn:Hown.
  - destruct (Hconn eq_refl) as (HC & Huse).
    assert (Hp : pointer_valid (VideoEncoderSW.process s))
      by (destruct HC; unfold pointer_valid; auto).
    destruct (Initialize_returns
                (VideoEncoderSW.m_renderWidth (VideoEncoderSW.object s))
                (VideoEncoderSW.m_renderHeight (VideoEncoderSW.object s)) codec env
                (with_self (fun _ => new_client) (after_Shutdown (VideoEncoderSW.process s)))
                (pointer_valid_new_client _)) as (b & w1 & Hrun & Hp1 & Htrue & _).
    rewrite (TryInitArm64Encoder_arm64_owned codec env s b w1 Hown Hp Hrun Hp1).
    cbn [VideoEncoderSW.ensures]. unfold VideoEncoderSW.invariant. sw_norm.
    destruct s as [[cc tf ef sc tex desc mp cd rr rw rh br own use] w cs].
    cbn [VideoEncoderSW.object VideoEncoderSW.calls VideoEncoderSW.m_codec] in *.
    destruct b; sw_norm.
    + split; [intros _; split; [apply Htrue; reflexivity | reflexivity]|].
      split; [exact Hcd|]. apply Forall_app. split; assumption.
    + split; [discriminate|].
      split; [exact Hcd|]. apply Forall_app. split; assumption.
  - destruct (Initialize_returns
                (VideoEncoderSW.m_renderWidth (VideoEncoderSW.object s))
                (VideoEncoderSW.m_renderHeight (VideoEncoderSW.object s)) codec env
                (with_self (fun _ => new_client) (VideoEncoderSW.process s))
                (pointer_valid_new_client _)) as (b & w1 & Hrun & Hp1 & Htrue & _).
    rewrite (TryInitArm64Encoder_arm64 codec env s b w1 Hown Hrun Hp1).
    cbn [VideoEncoderSW.ensures]. unfold VideoEncoderSW.invariant. sw_norm.
    destruct s as [[cc tf ef sc tex desc mp cd rr rw rh br own use] w cs].
    cbn [VideoEncoderSW.object VideoEncoderSW.calls VideoEncoderSW.m_codec
         VideoEncoderSW.m_arm64Encoder] in *.
    destruct b; sw_norm.
    + split; [intros _; split; [apply Htrue; reflexivity | reflexivity]|].
      split; [exact Hcd|]. apply Forall_app. split; assumption.
    + subst own. split; [discriminate|].
      split; [exact Hcd|]. apply Forall_app. split; assumption.
Qed.

Lemma invariant_pointer_valid s :
  VideoEncoderSW.invariant s ->
  VideoEncoderSW.m_arm64Encoder (VideoEncoderSW.object s) = true ->
  pointer_valid (VideoEncoderSW.process s).
Proof.
  intros (Hconn & _) Hown. destruct (Hconn Hown) as ([_ Hnz Hv _ _ _] & _).
  unfold pointer_valid. auto.
Qed.

Lemma TransmitViaArm64_invariant data size ts idr env s :
  VideoEncoderSW.invariant s ->
  VideoEncoderSW.ensures (VideoEncoderSW.TransmitViaArm64 data size ts idr env s)
    (fun _ s' => VideoEncoderSW.invariant s' /\
                 VideoEncoderSW.object s' = VideoEncoderSW.object s).
Proof.
  intros Hinv. pose proof Hinv as (Hconn & Hcd & Hcalls).
  destruct (TransmitViaArm64_effect data size ts idr env s (invariant_pointer_valid s Hinv))
    as (b & s' & Hrun & Hobj & Hself & Hh & Hv & Hfalse & Htrue).
  rewrite Hrun. cbn [VideoEncoderSW.ensures]. split; [| exact Hobj].
  unfold VideoEncoderSW.invariant. rewrite Hobj.
  split; [| split; [exact Hcd|]].
  - intros Hown. destruct (Hconn Hown) as (HC & Huse). split; [| exact Huse].
    eapply Connected_same; eauto.
  - destruct b.
    + destruct (Htrue eq_refl) as (-> & Hlen). apply Forall_app. split; [exact Hcalls|].
      constructor; [| constructor]. cbn [VideoEncoderSW.parser_call_ok].
      split; [exact Hcd|]. split; [reflexivity | exact Hlen].
    + rewrite (Hfalse eq_refl). exact Hcalls.
Qed.

Lemma staged_keeps pTexture d3d o :
  VideoEncoderSW.m_arm64Encoder (VideoEncoderSW.staged pTexture d3d o)
    = VideoEncoderSW.m_arm64Encoder o /\
  VideoEncoderSW.m_useArm64Encoder (VideoEncoderSW.staged pTexture d3d o)
    = VideoEncoderSW.m_useArm64Encoder o /\
  VideoEncoderSW.m_codec (VideoEncoderSW.staged pTexture d3d o) = VideoEncoderSW.m_codec o.
Proof.
  unfold VideoEncoderSW.staged. destruct (VideoEncoderSW.m_stagingTex o); repeat split.
Qed.

Lemma staging_calls_ok pTexture o :
  Forall VideoEncoderSW.parser_call_ok (VideoEncoderSW.staging_calls pTexture o).
Proof.
  unfold VideoEncoderSW.staging_calls.
  destruct (VideoEncoderSW.m_stagingTex o); repeat constructor.
Qed.

Lemma Transmit_invariant in_process pTexture pt ts idr d3d env s :
  VideoEncoderSW.m_useArm64Encoder (VideoEncoderSW.object s) = true ->
  VideoEncoderSW.invariant s ->
  VideoEncoderSW.ensures (VideoEncoderSW.Transmit in_process pTexture pt ts idr d3d env s)
    (fun _ s' => VideoEncoderSW.invariant s').
Proof.
  intros Huse Hinv.
  rewrite (Transmit_out_of_process in_process pTexture pt ts idr d3d env s Huse). cbv zeta.
  destruct (staged_keeps pTexture d3d (VideoEncoderSW.object s)) as (Hown1 & Huse1 & Hcd1).
  pose proof (staging_calls_ok pTexture (VideoEncoderSW.object s)) as Hstaging.
  destruct s as [o w cs]. sw_norm. cbn [VideoEncoderSW.object] in *.
  destruct (VideoEncoderSW.staging_fails d3d o).
  { cbn [VideoEncoderSW.ensures]. apply (invariant_update _ _ o); assumption. }
  assert (Hmapped : VideoEncoderSW.invariant
            (VideoEncoderSW.mkState (VideoEncoderSW.staged pTexture d3d o) w
               ((cs ++ VideoEncoderSW.staging_calls pTexture o)
                  ++ [VideoEncoderSW.CopyResource; VideoEncoderSW.Map]))).
  { apply (invariant_update _ _ (VideoEncoderSW.staged pTexture d3d o));
      [reflexivity | reflexivity | reflexivity | repeat constructor |].
    apply (invariant_update _ _ o); assumption. }
  destruct (VideoEncoderSW.FAILED (VideoEncoderSW.d3d_map d3d)).
  { cbn [VideoEncoderSW.ensures]. exact Hmapped. }
  match goal with |- context [VideoEncoderSW.TransmitViaArm64 ?d ?n ?t ?i ?e ?st] =>
    pose proof (TransmitViaArm64_invariant d n t i e st) as Hpost
  end.
  match type of Hpost with ?P -> _ =>
    assert (Hpre : P)
  end.
  { rewrite <- (app_nil_r (_ ++ [VideoEncoderSW.CopyResource; VideoEncoderSW.Map])).
    apply (invariant_update _ _ (VideoEncoderSW.staged pTexture d3d o));
      [reflexivity | reflexivity | reflexivity | constructor | exact Hmapped]. }
  specialize (Hpost Hpre).
  destruct (VideoEncoderSW.TransmitViaArm64 _ _ _ _ _ _) as [b s2|]; [| contradiction].
  cbn [VideoEncoderSW.ensures] in *. destruct Hpost as (Hinv2 & _).
  destruct s2 as [o2 w2 cs2]. sw_norm.
  apply (invariant_update _ _ o2); [reflexivity | reflexivity | reflexivity | | exact Hinv2].
  repeat constructor.
Qed.

Lemma frees_ok o : Forall VideoEncoderSW.parser_call_ok (VideoEncoderSW.frees o).
Proof.
  unfold VideoEncoderSW.frees.
  repeat (apply Forall_app; split);
    match goal with |- Forall _ (if ?c then _ else _) => destruct c end;
    repeat constructor.
Qed.

Lemma VideoEncoderSW_Shutdown_invariant s :
  VideoEncoderSW.invariant s ->
  VideoEncoderSW.ensures (VideoEncoderSW.Shutdown s) (fun _ s' => VideoEncoderSW.invariant s').
Proof.
  intros Hinv. pose proof Hinv as (Hconn & Hcd & Hcalls).
  rewrite VideoEncoderSW_Shutdown_run by (apply invariant_pointer_valid; exact Hinv).
  cbn [VideoEncoderSW.ensures]. unfold VideoEncoderSW.invariant, VideoEncoderSW.released.
  sw_norm. split; [discriminate|]. split; [exact Hcd|].
  apply Forall_app. split; [exact Hcalls | apply frees_ok].
Qed.

Lemma run_op_invariant o s :
  VideoEncoderSW.invariant s ->
  VideoEncoderSW.ensures (VideoEncoderSW.run_op o s) (fun _ s' => VideoEncoderSW.invariant s').
Proof.
  intros Hinv. destruct o as [arch codec env | data size ts idr env |];
    cbn [VideoEncoderSW.run_op].
  - pose proof (TryInitArm64Encoder_invariant arch codec env s Hinv) as H.
    unfold VideoEncoderSW.seq.
    destruct (VideoEncoderSW.TryInitArm64Encoder arch codec env s); [exact H | contradiction].
  - pose proof (TransmitViaArm64_invariant data size ts idr env s Hinv) as H.
    unfold VideoEncoderSW.seq.
    destruct (VideoEncoderSW.TransmitViaArm64 data size ts idr env s);
      [apply H | contradiction].
  - apply VideoEncoderSW_Shutdown_invariant. exact Hinv.
Qed.

Lemma reachable_invariant s : VideoEncoderSW.reachable s -> VideoEncoderSW.invariant s.
Proof.
  induction 1 as [rr rw rh desc mp w | s o s' _ IH Hrun
                 | s ip tex pt ts idr d3d env s' _ IH Huse Hrun].
  - unfold VideoEncoderSW.invariant. sw_norm.
    split; [discriminate|]. split; [reflexivity | constructor].
  - pose proof (run_op_invariant o s IH) as H. rewrite Hrun in H. exact H.
  - pose proof (Transmit_invariant ip tex pt ts idr d3d env s Huse IH) as H.
    rewrite Hrun in H. exact H.
Qed.


(** X14. On the out-of-process path the encoder never makes the client
    fault: in every state reached from a newly constructed encoder by
    [TryInitArm64Encoder], [TransmitViaArm64], [Shutdown] and out-of-process
    [Transmit] calls in any order, each of these calls returns. *)
Theorem out_of_process_encoder_never_faults s :
  VideoEncoderSW.reachable s ->
  (forall o, exists s', VideoEncoderSW.run_op o s = VideoEncoderSW.Done tt s' /\
                        VideoEncoderSW.reachable s') /\
  (forall in_process pTexture pt ts idr d3d env,
     VideoEncoderSW.m_useArm64Encoder (VideoEncoderSW.object s) = true ->
     exists s', VideoEncoderSW.Transmit in_process pTexture pt ts idr d3d env s
                  = VideoEncoderSW.Done tt s' /\
                VideoEncoderSW.reachable s').
Proof.
  intros Hr. pose proof (reachable_invariant s Hr) as Hinv. split.
  - intros o. pose proof (run_op_invariant o s Hinv) as H.
    destruct (VideoEncoderSW.run_op o s) as [[] s'|] eqn:Hrun; [| contradiction].
    exists s'. split; [reflexivity|]. eapply VideoEncoderSW.reach_op; eauto.
  - intros ip tex pt ts idr d3d env Huse.
    pose proof (Transmit_invariant ip tex pt ts idr d3d env s Huse Hinv) as H.
    destruct (VideoEncoderSW.Transmit ip tex pt ts idr d3d env s) as [[] s'|] eqn:Hrun;
      [| contradiction].
    exists s'. split; [reflexivity|]. eapply VideoEncoderSW.reach_Transmit; eauto.
Qed.

Lemma new_state_reachable : VideoEncoderSW.reachable VideoEncoderSW.new_state.
Proof. apply VideoEncoderSW.reach_new. Qed.

Lemma out_of_process_encoder_never_faults_witness :
  exists s',
    VideoEncoderSW.run_op
      (VideoEncoderSW.OpTransmitViaArm64 (fun _ => x2a) 8 1000 true VideoEncoderSW.env_sdr)
      VideoEncoderSW.new_state = VideoEncoderSW.Done tt s' /\
    VideoEncoderSW.reachable s'.
Proof.
  apply (proj1 (out_of_process_encoder_never_faults VideoEncoderSW.new_state
                  new_state_reachable)).
Defined.

Lemma pointer_valid_connected_world : pointer_valid connected_world.
Proof. destruct connected_world_Connected. unfold pointer_valid. auto. Qed.

Lemma attached_state_is :
  VideoEncoderSW.attached_state
  = VideoEncoderSW.mkState
      (VideoEncoderSW.set_useArm64Encoder true
         (VideoEncoderSW.set_arm64Encoder true
            (VideoEncoderSW.object VideoEncoderSW.new_state)))
      connected_world [VideoEncoderSW.GetNativeSystemInfo].
Proof.
  unfold VideoEncoderSW.attached_state.
  rewrite (TryInitArm64Encoder_arm64 "h264" env_attach VideoEncoderSW.new_state
             true connected_world eq_refl connected_world_eq
             pointer_valid_connected_world).
  reflexivity.
Qed.

Lemma attached_state_eq :
  VideoEncoderSW.TryInitArm64Encoder VideoEncoderSW.PROCESSOR_ARCHITECTURE_ARM64
    "h264" env_attach VideoEncoderSW.new_state
  = VideoEncoderSW.Done true VideoEncoderSW.attached_state.
Proof.
  rewrite attached_state_is.
  apply (TryInitArm64Encoder_arm64 "h264" env_attach VideoEncoderSW.new_state
           true connected_world eq_refl connected_world_eq pointer_valid_connected_world).
Qed.

Lemma attached_state_reachable : VideoEncoderSW.reachable VideoEncoderSW.attached_state.
Proof.
  eapply (VideoEncoderSW.reach_op _
            (VideoEncoderSW.OpTryInitArm64Encoder
               VideoEncoderSW.PROCESSOR_ARCHITECTURE_ARM64 "h264" env_attach));
    [exact new_state_reachable|].
  cbn [VideoEncoderSW.run_op]. unfold VideoEncoderSW.seq.
  rewrite attached_state_eq. reflexivity.
Qed.

Lemma attached_state_owns :
  VideoEncoderSW.m_arm64Encoder (VideoEncoderSW.object VideoEncoderSW.attached_state) = true.
Proof. rewrite attached_state_is. reflexivity. Qed.

(** X15. Whenever the encoder owns a client, that client is connected:
    its region pointer is a mapped view, its three events are open, and
    [m_useArm64Encoder] is set.  A client whose [Initialize] failed is
    destroyed at once, so the test [!m_arm64Encoder->IsConnected()] in
    [TransmitViaArm64] never is what refuses a frame. *)
Theorem owned_client_is_connected s :
  VideoEncoderSW.reachable s ->
  VideoEncoderSW.m_arm64Encoder (VideoEncoderSW.object s) = true ->
  Connected (VideoEncoderSW.process s) /\
  IsConnected (self (VideoEncoderSW.process s)) = true /\
  VideoEncoderSW.m_useArm64Encoder (VideoEncoderSW.object s) = true.
Proof.
  intros Hr Hown. destruct (reachable_invariant s Hr) as (Hconn & _).
  destruct (Hconn Hown) as (HC & Huse). split; [exact HC|].
  split; [destruct HC; assumption | exact Huse].
Qed.

Lemma owned_client_is_connected_witness :
  Connected (VideoEncoderSW.process VideoEncoderSW.attached_state) /\
  VideoEncoderSW.m_useArm64Encoder (VideoEncoderSW.object VideoEncoderSW.attached_state) = true.
Proof.
  destruct (owned_client_is_connected VideoEncoderSW.attached_state
              attached_state_reachable attached_state_owns) as (HC & _ & Huse).
  split; assumption.
Defined.

(** X16. Every call of the NAL parser made on the out-of-process path is
    well formed: the codec is the one the encoder was constructed with
    (H.264: nothing ever assigns [m_codec]), the length passed is the length
    of the buffer, and it is at most [PACKET_BUFFER_SIZE]. *)
Theorem parser_calls_well_formed s :
  VideoEncoderSW.reachable s ->
  VideoEncoderSW.m_codec (VideoEncoderSW.object s) = VideoEncoderSW.ALVR_CODEC_H264 /\
  forall codec buf len pts isIdr,
    In (VideoEncoderSW.ParseFrameNals codec buf len pts isIdr) (VideoEncoderSW.calls s) ->
    codec = VideoEncoderSW.ALVR_CODEC_H264 /\
    len = Z.of_nat (length buf) /\
    len <= PACKET_BUFFER_SIZE.
Proof.
  intros Hr. destruct (reachable_invariant s Hr) as (_ & Hcd & Hcalls).
  split; [exact Hcd|].
  intros codec buf len pts isIdr Hin.
  rewrite Forall_forall in Hcalls.
  apply (Hcalls (VideoEncoderSW.ParseFrameNals codec buf len pts isIdr)).
  apply list_elem_of_In. exact Hin.
Qed.

Lemma streamed_state_reachable :
  exists s',
    VideoEncoderSW.run_op
      (VideoEncoderSW.OpTransmitViaArm64 (fun _ => x2a) 8 1000 true VideoEncoderSW.env_sdr)
      VideoEncoderSW.attached_state = VideoEncoderSW.Done tt s' /\
    VideoEncoderSW.reachable s' /\
    VideoEncoderSW.calls s'
      = [VideoEncoderSW.GetNativeSystemInfo;
         VideoEncoderSW.ParseFrameNals VideoEncoderSW.ALVR_CODEC_H264 [] 0 0 false].
Proof.
  pose proof (run_op_invariant
                (VideoEncoderSW.OpTransmitViaArm64 (fun _ => x2a) 8 1000 true
                   VideoEncoderSW.env_sdr)
                VideoEncoderSW.attached_state
                (reachable_invariant _ attached_state_reachable)) as Hinv.
  destruct (VideoEncoderSW.run_op _ VideoEncoderSW.attached_state) as [[] s'|] eqn:Hrun;
    [| contradiction].
  exists s'. split; [reflexivity|]. split.
  - eapply VideoEncoderSW.reach_op; [exact attached_state_reachable | exact Hrun].
  - assert (Hcalls : VideoEncoderSW.ensures
              (VideoEncoderSW.run_op
                 (VideoEncoderSW.OpTransmitViaArm64 (fun _ => x2a) 8 1000 true
                    VideoEncoderSW.env_sdr) VideoEncoderSW.attached_state)
              (fun _ s => VideoEncoderSW.calls s
                 = [VideoEncoderSW.GetNativeSystemInfo;
                    VideoEncoderSW.ParseFrameNals VideoEncoderSW.ALVR_CODEC_H264 [] 0 0 false]))
      by (vm_compute; reflexivity).
    rewrite Hrun in Hcalls. exact Hcalls.
Qed.

Lemma parser_calls_well_formed_witness :
  exists s',
    VideoEncoderSW.reachable s' /\
    In (VideoEncoderSW.ParseFrameNals VideoEncoderSW.ALVR_CODEC_H264 [] 0 0 false)
       (VideoEncoderSW.calls s') /\
    0 <= PACKET_BUFFER_SIZE.
Proof.
  destruct streamed_state_reachable as (s' & _ & Hr & Hcalls).
  assert (Hin : In (VideoEncoderSW.ParseFrameNals VideoEncoderSW.ALVR_CODEC_H264 [] 0 0 false)
                   (VideoEncoderSW.calls s'))
    by (rewrite Hcalls; right; left; reflexivity).
  exists s'. split; [exact Hr|]. split; [exact Hin|].
  apply (proj2 (parser_calls_well_formed s' Hr) _ _ _ _ _ Hin).
Defined.


(** * Starting the encoder process by hand *)

(** X17. [LaunchEncoderProcess] called on its own succeeds exactly when
    the encoder executable exists next to the host and [CreateProcessW]
    succeeds.  It then holds one new handle, the process handle, which is
    open; the thread handle has been closed again; the command line is made
    of the path and the width, height and codec recorded by the last
    [Initialize], which are 0, 0 and the empty string on a client that was
    never initialised.  When it fails the client and the handle table are
    unchanged.  It never touches the views, the shared region or the
    connected flag. *)
Theorem LaunchEncoderProcess_standalone env w :
  ids_fresh w ->
  exists b w',
    LaunchEncoderProcess env w = Ok b w' /\
    (b = true <-> ie_encoder_exists env = true /\ ie_process_created env = true) /\
    views w' = views w /\ region w' = region w /\
    IsConnected (self w') = IsConnected (self w) /\
    (b = false -> self w' = self w /\ handles w' = handles w) /\
    (b = true ->
     let cmd := wstring (encoder_path env) +:+ " " +:+ to_wstring (m_width (self w))
                  +:+ " " +:+ to_wstring (m_height (self w)) +:+ " " +:+ m_codec (self w) in
     self w' = set_encoderProcess (m_encoderProcess (self w')) (self w) /\
     handles w !! m_encoderProcess (self w') = None /\
     handles w' = <[m_encoderProcess (self w') := KProcess cmd]> (handles w) /\
     exists hThread before,
       log w' = before ++ [EvCreateProcessW cmd; EvCloseHandle hThread] /\
       handles w' !! hThread = None) /\
    (self w = new_client -> b = true ->
     exists h,
       handles w' !! h
         = Some (KProcess (wstring (encoder_path env) +:+ " 0 0 "))).
Proof.
  intros Hfresh.
  pose proof (ids_fresh_handles w (next_id w) Hfresh (Pos.le_refl _)) as H0.
  assert (H1 : handles w !! Z.pos (Pos.succ (next_id w)) = None)
    by (apply (ids_fresh_handles w _ Hfresh); lia).
  rewrite LaunchEncoderProcess_run. cbv zeta.
  destruct (ie_encoder_exists env); cbn [negb].
  2:{ eexists false, _. split; [reflexivity|]. norm.
      split; [split; [discriminate | intros [E _]; discriminate]|].
      do 3 (split; [reflexivity|]). split; [auto|]. split; discriminate. }
  destruct (ie_process_created env); cbn [negb].
  2:{ eexists false, _. split; [reflexivity|]. norm.
      split; [split; [discriminate | intros [_ E]; discriminate]|].
      do 3 (split; [reflexivity|]). split; [auto|]. split; discriminate. }
  eexists true, _. split; [reflexivity|]. norm.
  split; [split; auto|].
  do 3 (split; [reflexivity|]). split; [discriminate|].
  assert (Htable :
    delete (Z.pos (Pos.succ (next_id w)))
      (<[Z.pos (Pos.succ (next_id w)) := KThread]>
         (<[Z.pos (next_id w) :=
              KProcess (encoder_cmdline env (m_width (self w)) (m_height (self w))
                          (m_codec (self w)))]> (handles w)))
    = <[Z.pos (next_id w) :=
          KProcess (encoder_cmdline env (m_width (self w)) (m_height (self w))
                      (m_codec (self w)))]> (handles w)).
  { apply delete_insert_id. rewrite lookup_insert_ne by lia. exact H1. }
  split.
  - intros _. cbv zeta. rewrite <- encoder_cmdline_flat.
    split; [reflexivity|]. split; [exact H0|]. split; [exact Htable|].
    exists (Z.pos (Pos.succ (next_id w))). eexists.
    split; [rewrite app_assoc; reflexivity|].
    apply lookup_delete_eq.
  - intros Hnew _. exists (Z.pos (next_id w)).
    rewrite Htable, lookup_insert_eq, Hnew, encoder_cmdline_flat. reflexivity.
Qed.

Lemma LaunchEncoderProcess_standalone_witness :
  exists w' h,
    LaunchEncoderProcess env_launches (fresh_world zero_region) = Ok true w' /\
    handles w' !! h = Some (KProcess "C:\ALVR\bin\alvr_encoder_arm64.exe 0 0 ").
Proof.
  destruct (LaunchEncoderProcess_standalone env_launches (fresh_world zero_region)
              (ids_fresh_fresh_world zero_region))
    as (b & w' & Hrun & Hiff & _ & _ & _ & _ & _ & Hnew).
  assert (Hb : b = true) by (apply Hiff; split; reflexivity).
  subst b. destruct (Hnew eq_refl eq_refl) as (h & Hh).
  exists w', h. split; [exact Hrun | exact Hh].
Defined.

(** * The size of a frame *)

Lemma to_uint32_small v : 0 <= v < 2 ^ 32 -> to_uint32 v = v.
Proof. intros H. apply Z.mod_small. exact H. Qed.

(** X18. [Transmit] computes the size of the frame in 32-bit arithmetic
    from the row pitch and the height of the staging texture.  As long as
    nothing overflows it is RowPitch * Height without HDR and RowPitch *
    Height + RowPitch * (Height / 2) with HDR (luma plane plus interleaved
    chroma plane).  The frame buffer has no slack for a 4096 x 2160 RGBA
    frame: with the tight pitch of 16384 bytes the size is exactly
    [FRAME_BUFFER_SIZE], and with a larger pitch for which RowPitch * 2160
    is still below 2^32 it exceeds [FRAME_BUFFER_SIZE], so that the frame is
    dropped.  Beyond that bound the product wraps around and the size can be
    small again: a pitch of 1988416 bytes gives the size 11264. *)
Theorem frame_data_size_cases settings o :
  let pitch := VideoEncoderSW.RowPitch (VideoEncoderSW.m_stagingTexMap o) in
  let height := VideoEncoderSW.Height (VideoEncoderSW.m_stagingTexDesc o) in
  0 <= pitch -> 0 <= height ->
  is_uint32 (VideoEncoderSW.frame_data_size settings o) /\
  (VideoEncoderSW.m_enableHdr settings = false -> pitch * height < 2 ^ 32 ->
   VideoEncoderSW.frame_data_size settings o = pitch * height) /\
  (VideoEncoderSW.m_enableHdr settings = true ->
   pitch * height + pitch * (height / 2) < 2 ^ 32 ->
   VideoEncoderSW.frame_data_size settings o = pitch * height + pitch * (height / 2)) /\
  (VideoEncoderSW.m_enableHdr settings = false -> height = 2160 ->
   (pitch = 4096 * 4 -> VideoEncoderSW.frame_data_size settings o = FRAME_BUFFER_SIZE) /\
   (4096 * 4 < pitch -> pitch * 2160 < 2 ^ 32 ->
    FRAME_BUFFER_SIZE < VideoEncoderSW.frame_data_size settings o) /\
   (pitch = 1988416 ->
    2 ^ 32 <= pitch * 2160 /\
    VideoEncoderSW.frame_data_size settings o = 11264 /\
    VideoEncoderSW.frame_data_size settings o <= FRAME_BUFFER_SIZE)).
Proof.
  intros pitch height Hp Hh. unfold VideoEncoderSW.frame_data_size. fold pitch height.
  assert (Hhalf : 0 <= height / 2) by (apply Z.div_pos; lia).
  assert (Hprod : 0 <= pitch * height) by nia.
  assert (Hprod2 : 0 <= pitch * (height / 2)) by nia.
  split; [| split; [| split]].
  - unfold is_uint32, to_uint32.
    destruct (VideoEncoderSW.m_enableHdr settings); apply Z.mod_pos_bound; lia.
  - intros -> Hsmall. apply to_uint32_small. lia.
  - intros -> Hsmall.
    rewrite (to_uint32_small (pitch * height)) by lia.
    rewrite (to_uint32_small (pitch * (height / 2))) by lia.
    apply to_uint32_small. lia.
  - intros -> Hheight. rewrite Hheight in *. split; [| split].
    + intros ->. reflexivity.
    + intros Hwide Hsmall. rewrite to_uint32_small by lia.
      unfold FRAME_BUFFER_SIZE. lia.
    + intros ->. split; [vm_compute; discriminate|].
      split; [reflexivity | vm_compute; discriminate].
Qed.

Lemma frame_data_size_cases_witness :
  VideoEncoderSW.frame_data_size (VideoEncoderSW.mkSettings false false)
    (VideoEncoderSW.object VideoEncoderSW.streaming_state) = 8 /\
  VideoEncoderSW.frame_data_size (VideoEncoderSW.mkSettings true false)
    (VideoEncoderSW.object VideoEncoderSW.streaming_state) = 8.
Proof.
  destruct (frame_data_size_cases (VideoEncoderSW.mkSettings false false)
              (VideoEncoderSW.object VideoEncoderSW.streaming_state))
    as (_ & Hsdr & _); [vm_compute; discriminate | vm_compute; discriminate |].
  destruct (frame_data_size_cases (VideoEncoderSW.mkSettings true false)
              (VideoEncoderSW.object VideoEncoderSW.streaming_state))
    as (_ & _ & Hhdr & _); [vm_compute; discriminate | vm_compute; discriminate |].
  split.
  - apply Hsdr; [reflexivity | vm_compute; reflexivity].
  - apply Hhdr; [reflexivity | vm_compute; reflexivity].
Defined.

(** * Initialising an encoder that already owns a client *)

Lemma ids_fresh_after_Shutdown w : ids_fresh w -> ids_fresh (after_Shutdown w).
Proof.
  intros Hfresh k Hk. unfold after_Shutdown in *. cbn [next_id handles views] in *.
  destruct (Hfresh k Hk) as (Hh & Hv). split.
  - unfold Shutdown_handles. repeat apply drop_lookup_None. exact Hh.
  - apply drop_lookup_None. exact Hv.
Qed.

Lemma ids_fresh_old_client_destroyed s :
  ids_fresh (VideoEncoderSW.process s) -> ids_fresh (VideoEncoderSW.old_client_destroyed s).
Proof.
  intros Hfresh. unfold VideoEncoderSW.old_client_destroyed.
  destruct (VideoEncoderSW.m_arm64Encoder (VideoEncoderSW.object s));
    [apply ids_fresh_after_Shutdown|]; exact Hfresh.
Qed.

Lemma set_arm64Encoder_same o v :
  VideoEncoderSW.m_arm64Encoder o = v -> VideoEncoderSW.set_arm64Encoder v o = o.
Proof. intros <-. destruct o. reflexivity. Qed.

(** [TryInitArm64Encoder] on ARM64, whether or not a client is owned. *)
Lemma TryInitArm64Encoder_arm64_run codec env s b w1 :
  (VideoEncoderSW.m_arm64Encoder (VideoEncoderSW.object s) = true ->
   pointer_valid (VideoEncoderSW.process s)) ->
  Initialize (VideoEncoderSW.m_renderWidth (VideoEncoderSW.object s))
    (VideoEncoderSW.m_renderHeight (VideoEncoderSW.object s)) codec env
    (with_self (fun _ => new_client) (VideoEncoderSW.old_client_destroyed s)) = Ok b w1 ->
  pointer_valid w1 ->
  VideoEncoderSW.TryInitArm64Encoder VideoEncoderSW.PROCESSOR_ARCHITECTURE_ARM64 codec env s
    = VideoEncoderSW.Done b
        (VideoEncoderSW.mkState
           (if b then VideoEncoderSW.set_useArm64Encoder true
                        (VideoEncoderSW.set_arm64Encoder true (VideoEncoderSW.object s))
            else VideoEncoderSW.set_arm64Encoder false (VideoEncoderSW.object s))
           (if b then w1 else after_Shutdown w1)
           (VideoEncoderSW.calls s ++ [VideoEncoderSW.GetNativeSystemInfo])).
Proof.
  intros Hp Hrun Hp1. unfold VideoEncoderSW.old_client_destroyed in Hrun.
  destruct (VideoEncoderSW.m_arm64Encoder (VideoEncoderSW.object s)) eqn:Hown.
  - rewrite (TryInitArm64Encoder_arm64_owned codec env s b w1 Hown (Hp eq_refl) Hrun Hp1).
    rewrite (set_arm64Encoder_same _ true Hown). reflexivity.
  - rewrite (TryInitArm64Encoder_arm64 codec env s b w1 Hown Hrun Hp1).
    rewrite (set_arm64Encoder_same _ false Hown). reflexivity.
Qed.



(** X9. When [TryInitArm64Encoder] fails on ARM64, the encoder owns no
    client and nothing of the attempt is left in the process: the new client
    has been destroyed and holds nothing, and every handle and view its
    [Initialize] opened has been released, the handle of a started encoder
    process included.  The handles and views open afterwards are exactly
    those that were open once a client owned before had been destroyed: for
    an encoder that owned no client, exactly those open before the call; for
    an encoder that owned one, those without the handles that client held,
    which are closed.  On a machine that is not ARM64 the call fails without
    touching the process.  This holds when unused handle values are free and
    the region pointer of an owned client is null or mapped. *)
Theorem TryInitArm64Encoder_failure_releases arch codec env s :
  (VideoEncoderSW.m_arm64Encoder (VideoEncoderSW.object s) = true ->
   pointer_valid (VideoEncoderSW.process s)) ->
  ids_fresh (VideoEncoderSW.process s) ->
  exists b s',
    VideoEncoderSW.TryInitArm64Encoder arch codec env s = VideoEncoderSW.Done b s' /\
    (arch = VideoEncoderSW.PROCESSOR_ARCHITECTURE_ARM64 -> b = false ->
     VideoEncoderSW.m_arm64Encoder (VideoEncoderSW.object s') = false /\
     holds_nothing (self (VideoEncoderSW.process s')) /\
     handles (VideoEncoderSW.process s')
       = handles (VideoEncoderSW.old_client_destroyed s) /\
     views (VideoEncoderSW.process s')
       = views (VideoEncoderSW.old_client_destroyed s)) /\
    (VideoEncoderSW.m_arm64Encoder (VideoEncoderSW.object s) = false -> b = false ->
     handles (VideoEncoderSW.process s') = handles (VideoEncoderSW.process s) /\
     views (VideoEncoderSW.process s') = views (VideoEncoderSW.process s)) /\
    (VideoEncoderSW.m_arm64Encoder (VideoEncoderSW.object s) = true ->
     arch = VideoEncoderSW.PROCESSOR_ARCHITECTURE_ARM64 -> b = false ->
     (forall h, In h (held_handles (self (VideoEncoderSW.process s))) -> h <> nullptr ->
                handles (VideoEncoderSW.process s') !! h = None) /\
     (m_sharedPtr (self (VideoEncoderSW.process s)) <> nullptr ->
      views (VideoEncoderSW.process s') !! m_sharedPtr (self (VideoEncoderSW.process s))
        = None)) /\
    (arch <> VideoEncoderSW.PROCESSOR_ARCHITECTURE_ARM64 ->
     b = false /\ VideoEncoderSW.process s' = VideoEncoderSW.process s).
Proof.
  intros Hp Hfresh.
  destruct (Z.eq_dec arch VideoEncoderSW.PROCESSOR_ARCHITECTURE_ARM64) as [-> | Harch].
  - destruct (Initialize_then_Shutdown
                (VideoEncoderSW.m_renderWidth (VideoEncoderSW.object s))
                (VideoEncoderSW.m_renderHeight (VideoEncoderSW.object s)) codec env
                (with_self (fun _ => new_client) (VideoEncoderSW.old_client_destroyed s)))
      as (b & w1 & Hrun & Hsd & Hhs & Hvs & _).
    { exact (ids_fresh_old_client_destroyed s Hfresh). }
    { repeat split. }
    assert (Hp1 : pointer_valid w1).
    { destruct (Initialize_returns
                  (VideoEncoderSW.m_renderWidth (VideoEncoderSW.object s))
                  (VideoEncoderSW.m_renderHeight (VideoEncoderSW.object s)) codec env
                  (with_self (fun _ => new_client) (VideoEncoderSW.old_client_destroyed s))
                  (pointer_valid_new_client _)) as (b' & w1' & Hrun' & Hp' & _).
      rewrite Hrun in Hrun'. injection Hrun' as _ <-. exact Hp'. }
    cbn [with_self handles views] in Hhs, Hvs.
    eexists b, _.
    split; [apply (TryInitArm64Encoder_arm64_run codec env s b w1); assumption|].
    split; [| split; [| split]].
    + intros _ ->. sw_norm. split; [reflexivity|].
      split; [apply holds_nothing_cleared|]. split; assumption.
    + intros Hown ->. sw_norm.
      unfold VideoEncoderSW.old_client_destroyed in Hhs, Hvs. rewrite Hown in Hhs, Hvs.
      split; assumption.
    + intros Hown _ ->. sw_norm.
      unfold VideoEncoderSW.old_client_destroyed in Hhs, Hvs. rewrite Hown in Hhs, Hvs.
      rewrite Hhs, Hvs. cbn [after_Shutdown handles views]. split.
      * intros h. apply Shutdown_handles_closed.
      * intros Hnz. apply drop_lookup_here. exact Hnz.
    + intros Hne. contradiction.
  - eexists false, _. split; [apply TryInitArm64Encoder_not_arm64; exact Harch|].
    sw_norm. split; [intros E; contradiction|].
    split; [auto|]. split; [intros _ E; contradiction | auto].
Qed.

Lemma attached_state_fails_without_encoder :
  exists s',
    VideoEncoderSW.TryInitArm64Encoder VideoEncoderSW.PROCESSOR_ARCHITECTURE_ARM64
      "h264" env_no_encoder VideoEncoderSW.attached_state = VideoEncoderSW.Done false s'.
Proof.
  eexists.
  apply (TryInitArm64Encoder_arm64_run "h264" env_no_encoder VideoEncoderSW.attached_state
           false).
  - intros _. rewrite attached_state_is. exact pointer_valid_connected_world.
  - apply Initialize_no_encoder; reflexivity.
  - apply pointer_valid_null. reflexivity.
Qed.

Lemma ids_fresh_attached_state : ids_fresh (VideoEncoderSW.process VideoEncoderSW.attached_state).
Proof. rewrite attached_state_is. exact ids_fresh_connected_world. Qed.

Lemma TryInitArm64Encoder_failure_releases_witness :
  (exists s',
     VideoEncoderSW.TryInitArm64Encoder VideoEncoderSW.PROCESSOR_ARCHITECTURE_ARM64
       "h264" env_never_appears VideoEncoderSW.new_state = VideoEncoderSW.Done false s' /\
     handles (VideoEncoderSW.process s') = ∅ /\
     views (VideoEncoderSW.process s') = ∅) /\
  (exists s',
     VideoEncoderSW.TryInitArm64Encoder VideoEncoderSW.PROCESSOR_ARCHITECTURE_ARM64
       "h264" env_no_encoder VideoEncoderSW.attached_state = VideoEncoderSW.Done false s' /\
     VideoEncoderSW.m_arm64Encoder (VideoEncoderSW.object s') = false /\
     handles (VideoEncoderSW.process s')
       !! m_frameReadyEvent (self (VideoEncoderSW.process VideoEncoderSW.attached_state))
     = None).
Proof.
  split.
  - destruct (TryInitArm64Encoder_failure_releases
                VideoEncoderSW.PROCESSOR_ARCHITECTURE_ARM64
                "h264" env_never_appears VideoEncoderSW.new_state)
      as (b & s' & Hrun & _ & Hfalse & _).
    { intros H. discriminate H. }
    { exact (ids_fresh_fresh_world zero_region). }
    rewrite new_state_stalls in Hrun. injection Hrun as <- <-.
    destruct (Hfalse eq_refl eq_refl) as (Hhs & Hvs).
    eexists. split; [exact new_state_stalls|]. split; assumption.
  - destruct (TryInitArm64Encoder_failure_releases
                VideoEncoderSW.PROCESSOR_ARCHITECTURE_ARM64
                "h264" env_no_encoder VideoEncoderSW.attached_state)
      as (b & s' & Hrun & Hgone & _ & Hclosed & _).
    { intros _. rewrite attached_state_is. exact pointer_valid_connected_world. }
    { exact ids_fresh_attached_state. }
    destruct attached_state_fails_without_encoder as (s2 & Hrun2).
    rewrite Hrun2 in Hrun. injection Hrun as <- <-.
    destruct (Hgone eq_refl eq_refl) as (Hown & _).
    destruct (Hclosed attached_state_owns eq_refl eq_refl) as (Hh & _).
    exists s2. split; [exact Hrun2|]. split; [exact Hown|].
    apply Hh.
    + right. left. reflexivity.
    + rewrite attached_state_is. vm_compute. discriminate.
Defined.
